(** * EfficientPose post-processing (examples/efficientpose/debugger.py)

    A shallow embedding of the box denormalisation and of the
    post-processing pipeline of [debugger.py], with the properties the
    specification states about them.

    Numbers are the ones Python computes with: unbounded integers are [Z],
    floats are IEEE binary64 values (the kernel's [float]), and a Python
    value that may be either is a [pynum].  Exceptions are results.
    [Box2D] objects are mutated in place by the source, so they live in a
    store of objects and lists hold references to them. *)

From Stdlib Require Import ZArith List Bool Lia Sorted.
From Stdlib Require Import PrimFloat SpecFloat FloatOps FloatAxioms.
From stdpp Require Import base option list gmap strings.
Import ListNotations.

Local Open Scope Z_scope.

(** ** Python values and exceptions *)

Module Py.

Inductive exn :=
| ValueError | OverflowError | ZeroDivisionError | IndexError | TypeError
| ShapeMismatchError | SelectionMismatchError
| DanglingReference.

Inductive result (A : Type) :=
| Ok (a : A)
| Raise (e : exn).
Arguments Ok {A} a.
Arguments Raise {A} e.

#[global] Instance result_ret : MRet result := fun A a => Ok a.
#[global] Instance result_bind : MBind result := fun A B k r =>
  match r with
  | Ok a => k a
  | Raise e => Raise e
  end.

Definition is_ok {A} (r : result A) : bool :=
  match r with Ok _ => true | Raise _ => false end.

(** A number as Python holds it: an [int] or a [float]. *)
Inductive pynum :=
| PyInt (z : Z)
| PyFloat (f : float).

(** [float(z)]: the nearest binary64 value, ties to even;
    [OverflowError] when it is out of range. *)
Definition float_of_int (z : Z) : result float :=
  let f := SF2Prim (binary_normalize prec emax z 0 false) in
  if PrimFloat.is_infinity f then Raise OverflowError else Ok f.

(** The magnitude of a finite float [m * 2^e], cut to an integer. *)
Definition magnitude (m : positive) (e : Z) : Z :=
  match e with
  | Z0 => Zpos m
  | Zpos p => Z.shiftl (Zpos m) (Zpos p)
  | Zneg p => Z.shiftr (Zpos m) (Zpos p)
  end.

(** [int(f)] on a float: the fractional part is dropped; NaN raises
    [ValueError], an infinity raises [OverflowError]. *)
Definition int_of_float (f : float) : result Z :=
  match Prim2SF f with
  | S754_zero _ => Ok 0
  | S754_finite s m e =>
      Ok (if s then - magnitude m e else magnitude m e)
  | S754_infinity _ => Raise OverflowError
  | S754_nan => Raise ValueError
  end.

(** The magnitude of [m * 2^e] rounded to the nearest integer, a half
    going up. *)
Definition rounded_magnitude (m : positive) (e : Z) : Z :=
  match e with
  | Zneg p => Z.shiftr (Zpos m + Z.shiftl 1 (Zpos p - 1)) (Zpos p)
  | _ => magnitude m e
  end.

(** The nearest integer, halves away from zero. *)
Definition round_half_away (x : pynum) : result Z :=
  match x with
  | PyInt z => Ok z
  | PyFloat f =>
      match Prim2SF f with
      | S754_zero _ => Ok 0
      | S754_finite s m e =>
          Ok (if s then - rounded_magnitude m e else rounded_magnitude m e)
      | S754_infinity _ => Raise OverflowError
      | S754_nan => Raise ValueError
      end
  end.

(** [int(x)] *)
Definition int (x : pynum) : result Z :=
  match x with
  | PyInt z => Ok z
  | PyFloat f => int_of_float f
  end.

(** [x * y]: int times int stays an int; otherwise the int operand is
    converted and the product is the binary64 product. *)
Definition mul (x y : pynum) : result pynum :=
  match x, y with
  | PyInt a, PyInt b => Ok (PyInt (a * b))
  | PyInt a, PyFloat g =>
      f ← float_of_int a; Ok (PyFloat (PrimFloat.mul f g))
  | PyFloat f, PyInt b =>
      g ← float_of_int b; Ok (PyFloat (PrimFloat.mul f g))
  | PyFloat f, PyFloat g => Ok (PyFloat (PrimFloat.mul f g))
  end.

(** An int against a float, as Python compares them: by value, without
    converting the int; nothing compares with NaN. *)
Definition compare_int_float (z : Z) (f : float) : option comparison :=
  match Prim2SF f with
  | S754_nan => None
  | S754_infinity s => Some (if s then Gt else Lt)
  | S754_zero _ => Some (z ?= 0)
  | S754_finite s m e =>
      let v := if s then Zneg m else Zpos m in
      Some (match e with
            | Zneg p => (z * 2 ^ Zpos p) ?= v
            | _ => z ?= v * 2 ^ e
            end)
  end.

(** [x >= y] *)
Definition ge (x y : pynum) : bool :=
  match x, y with
  | PyInt a, PyInt b => b <=? a
  | PyFloat f, PyFloat g => PrimFloat.leb g f
  | PyInt a, PyFloat g =>
      match compare_int_float a g with
      | Some Lt | None => false
      | Some _ => true
      end
  | PyFloat f, PyInt b =>
      match compare_int_float b f with
      | Some Gt | None => false
      | Some _ => true
      end
  end.

(** [l[:4]] and the like: a slice never raises. *)
Definition slice_to {A} (n : nat) (l : list A) : list A := firstn n l.

End Py.

Export Py.

Set Warnings "-inexact-float,-register-all".

(** ** Box denormalisation *)

(** The constants of [denormalize_box]: [height, width = 512*1.25, 640]. *)
Definition fixed_height : pynum := PyFloat (PrimFloat.mul 512 1.25).
Definition fixed_width : pynum := PyInt 640.

(** [denormalize_box(box, image_shape)], debugger.py lines 82-98.  The
    argument [image_shape] is not read; the tuple unpacking of [box[:4]]
    raises [ValueError] unless it has exactly four elements. *)
Definition denormalize_box (box : list pynum) (image_shape : list Z)
  : result (list pynum) :=
  match slice_to 4 box with
  | [x_min; y_min; x_max; y_max] =>
      let height := fixed_height in
      let width := fixed_width in
      a ← Py.mul x_min width; x_min' ← Py.int a;
      b ← Py.mul y_min height; y_min' ← Py.int b;
      c ← Py.mul x_max width; x_max' ← Py.int c;
      d ← Py.mul y_max height; y_max' ← Py.int d;
      Ok [PyInt x_min'; PyInt y_min'; PyInt x_max'; PyInt y_max']
  | _ => Raise ValueError
  end.

(** ** Box2D objects and the store

    A [Box2D] carries its coordinates, a score and a class name.  The
    processors below assign to [box2D.coordinates] of objects reached
    through a list, so a list of boxes is a list of references into a store
    and two entries of a list may be the same object. *)

Record Box2D := mkBox2D {
  coordinates : list pynum;
  score : pynum;
  class_name : string;
}.

(** The box with [c] stored as its coordinates. *)
Definition set_coordinates (b : Box2D) (c : list pynum) : Box2D :=
  {| coordinates := c; score := score b; class_name := class_name b |}.

(** [box2D.coordinates = c] runs the setter of the property, which belongs
    to the class [Box2D] and is not in the sources.  The setter checks the
    coordinates: it raises and leaves the box as it was, or it stores
    them.  [accepts] is that check. *)
Definition assign_coordinates (accepts : list pynum -> result unit)
    (b : Box2D) (c : list pynum) : result Box2D :=
  _ ← accepts c; Ok (set_coordinates b c).

Abbreviation ref := positive (only parsing).
Abbreviation store := (gmap positive Box2D) (only parsing).

(** An image, as far as the processors look at it: [image.shape]. *)
Record Image := mkImage { shape : list Z }.

(** [for box2D in boxes2D: box2D.coordinates = f(box2D.coordinates)].
    An exception, of [f] or of the assignment, leaves the boxes already
    visited updated. *)
Fixpoint update_coordinates (accepts : list pynum -> result unit)
    (f : list pynum -> result (list pynum))
    (boxes2D : list ref) (σ : store) : store * result unit :=
  match boxes2D with
  | [] => (σ, Ok tt)
  | box2D :: rest =>
      match σ !! box2D with
      | None => (σ, Raise DanglingReference)
      | Some b =>
          match c ← f (coordinates b); assign_coordinates accepts b c with
          | Ok b' => update_coordinates accepts f rest (<[box2D := b']> σ)
          | Raise e => (σ, Raise e)
          end
      end
  end.

(** [DenormalizeBoxes2D.call(image, boxes2D)], debugger.py lines 75-79:
    the list handed in is the list handed back. *)
Definition DenormalizeBoxes2D_call (accepts : list pynum -> result unit)
    (image : Image) (boxes2D : list ref)
    (σ : store) : store * result (list ref) :=
  let shape := slice_to 2 (shape image) in
  let '(σ', r) :=
    update_coordinates accepts (fun c => denormalize_box c shape) boxes2D σ in
  (σ', _ ← r; Ok boxes2D).

(** The boxes a list of references denotes in a store. *)
Definition deref (σ : store) (boxes2D : list ref) : list (option Box2D) :=
  map (fun r => σ !! r) boxes2D.

(** ** Arrays

    A numpy array of floats as nested lists: a scalar or a sequence of
    arrays of one rank less. *)

Inductive ndarray :=
| Scalar (x : float)
| Array (items : list ndarray).

Fixpoint nd_map (f : float -> float) (a : ndarray) : ndarray :=
  match a with
  | Scalar x => Scalar (f x)
  | Array items => Array (map (nd_map f) items)
  end.

(** [len(a)] *)
Definition nd_len (a : ndarray) : result nat :=
  match a with
  | Array items => Ok (length items)
  | Scalar _ => Raise TypeError
  end.

(** The rows of an array, for [for row in a]. *)
Definition nd_rows (a : ndarray) : result (list ndarray) :=
  match a with
  | Array items => Ok items
  | Scalar _ => Raise TypeError
  end.

(** [l[:k]] and [l[k:]] for a Python integer [k]: a negative [k] counts
    from the end. *)
Definition py_stop (k : Z) (n : nat) : nat :=
  if 0 <=? k then Z.to_nat k else (n - Z.to_nat (- k))%nat.

Definition cut_to {A} (k : Z) (l : list A) : list A :=
  firstn (py_stop k (length l)) l.

Definition cut_from {A} (k : Z) (l : list A) : list A :=
  skipn (py_stop k (length l)) l.

Fixpoint mapM_result {A B} (f : A -> result B) (l : list A) : result (list B) :=
  match l with
  | [] => Ok []
  | x :: l' => y ← f x; ys ← mapM_result f l'; Ok (y :: ys)
  end.

(** [a[:, :, cut]]: the slice acts on the third axis; an array of lower
    rank raises [IndexError]. *)
Definition slice_axis2 (cut : list ndarray -> list ndarray) (a : ndarray)
  : result ndarray :=
  let on_row r :=
    match r with
    | Array xs => Ok (Array (cut xs))
    | Scalar _ => Raise IndexError
    end in
  let on_plane p :=
    match p with
    | Array rows => rows' ← mapM_result on_row rows; Ok (Array rows')
    | Scalar _ => Raise IndexError
    end in
  match a with
  | Array planes => planes' ← mapM_result on_plane planes; Ok (Array planes')
  | Scalar _ => Raise IndexError
  end.

(** [a[i]] for one integer index: negative indices count from the end. *)
Definition nd_get (a : ndarray) (i : Z) : result ndarray :=
  match a with
  | Array items =>
      let n := Z.of_nat (length items) in
      let j := if i <? 0 then i + n else i in
      if (0 <=? j) && (j <? n)
      then match items !! Z.to_nat j with
           | Some x => Ok x
           | None => Raise IndexError
           end
      else Raise IndexError
  | Scalar _ => Raise IndexError
  end.

(** [a[indices]] for a sequence of integer indices: one row per index. *)
Definition nd_take (a : ndarray) (indices : list Z) : result ndarray :=
  rows ← mapM_result (nd_get a) indices; Ok (Array rows).

(** ** The processors the pipeline is built from

    [EfficientPosePostprocess.__init__] builds its pipeline from processor
    objects.  A [processor] is such an object with the arguments it was
    constructed with. *)

Inductive processor :=
| Squeeze (axis : option Z)
| DecodeBoxes (prior_boxes : ndarray) (variances : list float)
| RemoveClass (class_names : list string) (class_arg : option Z)
| NonMaximumSuppressionPerClass (nms_thresh : float)
| MergeNMSBoxWithClass
| FilterBoxes (class_names : list string) (conf_thresh : float)
| ToBoxes2D (class_names : list string)
| RoundBoxes2D
| DenormalizeBoxes2D
| ScaleBoxes2D
| ComputeSelectedIndices
| Scale (scales : float)
| ToPose6D (class_names : list string).

Record Pose6D := mkPose6D {
  rotation : ndarray;
  translation : ndarray;
  pose_class_name : string;
}.

(** What the processors defined outside [debugger.py] compute.  Their code
    is not part of the sources, so each is a parameter: a function of its
    arguments that returns or raises.  [scale_coordinates] and
    [round_coordinates] are what [ScaleBoxes2D] and [RoundBoxes2D] assign
    to the coordinates of one box; [accepts_coordinates] is the check the
    setter of [Box2D.coordinates] makes on every such assignment. *)
Record paz := mkPaz {
  np_squeeze : option Z -> ndarray -> result ndarray;
  decode : ndarray -> list float -> ndarray -> result ndarray;
  remove_class : list string -> option Z -> ndarray -> result ndarray;
  nms_per_class : float -> ndarray -> result ndarray;
  merge_nms_box_with_class : ndarray -> result ndarray;
  filter_boxes : list string -> float -> ndarray -> result ndarray;
  boxes2D_of : list string -> ndarray -> result (list Box2D);
  scale_coordinates : float -> list pynum -> result (list pynum);
  round_coordinates : list pynum -> result (list pynum);
  selected_indices_of : ndarray -> ndarray -> result (list Z);
  class_of_row : list string -> ndarray -> string;
  accepts_coordinates : list pynum -> result unit;
}.

(** [np.pi] *)
Definition np_pi : float := 0x1.921fb54442d18p+1.

(** Modelled from the spec: [pr.Scale], which is not in the sources.
    Section 4.5: "multiply raw rotation values by pi"; the processor
    multiplies every entry of the array by the factor it was built with. *)
Definition Scale_call (scales : float) (values : ndarray) : ndarray :=
  nd_map (PrimFloat.mul scales) values.

(** Modelled from the spec: [ToPose6D], which is not in the sources.
    Section 4.5: one [Pose6D] per detection row, pairing row [i] of
    [box_data] with rotation [i] and translation [i]; an empty [box_data]
    gives the empty list. *)
Fixpoint assemble (P : paz) (class_names : list string) (i : Z)
    (rows : list ndarray) (rotations translations : ndarray)
  : result (list Pose6D) :=
  match rows with
  | [] => Ok []
  | row :: rest =>
      r ← nd_get rotations i;
      t ← nd_get translations i;
      poses ← assemble P class_names (i + 1) rest rotations translations;
      Ok (mkPose6D r t (class_of_row P class_names row) :: poses)
  end.

(** Modelled from the spec: the call of [ToPose6D] on the rows of
    [box_data], section 4.5. *)
Definition ToPose6D_call (P : paz) (class_names : list string)
    (box_data rotations translations : ndarray) : result (list Pose6D) :=
  rows ← nd_rows box_data;
  assemble P class_names 0 rows rotations translations.

(** ** The state of a run

    The store of [Box2D] objects, and the processors called so far, oldest
    first.  The log is not part of the program: it records the order of
    the calls so that it can be stated. *)

Record world := mkWorld {
  objects : gmap positive Box2D;
  log : list processor;
}.

Definition M (A : Type) : Type := world -> world * result A.

#[global] Instance M_ret : MRet M := fun A a w => (w, Ok a).
#[global] Instance M_bind : MBind M := fun A B k m w =>
  match m w with
  | (w', Ok a) => k a w'
  | (w', Raise e) => (w', Raise e)
  end.

Definition lift {A} (r : result A) : M A := fun w => (w, r).

Definition called (p : processor) : M unit :=
  fun w => (mkWorld (objects w) (log w ++ [p]), Ok tt).

Definition on_store {A} (f : store -> store * result A) : M A :=
  fun w => let '(σ, r) := f (objects w) in (mkWorld σ (log w), r).

(** A new object: a reference no object of the store has. *)
Definition alloc (b : Box2D) : M ref :=
  fun w =>
    let r := fresh (dom (objects w)) in
    (mkWorld (<[r := b]> (objects w)) (log w), Ok r).

Fixpoint alloc_all (bs : list Box2D) : M (list ref) :=
  match bs with
  | [] => mret []
  | b :: rest => r ← alloc b; rs ← alloc_all rest; mret (r :: rs)
  end.

(** ** Calling processors

    [processor(args)] runs the processor's [call].  A processor applied to
    arguments of another processor's kind raises [TypeError]. *)

Section Pipeline.

Variable P : paz.

(** The processors from one array to one array. *)
Definition call_array (p : processor) (x : ndarray) : result ndarray :=
  match p with
  | Squeeze axis => np_squeeze P axis x
  | DecodeBoxes prior_boxes variances => decode P prior_boxes variances x
  | RemoveClass class_names class_arg => remove_class P class_names class_arg x
  | NonMaximumSuppressionPerClass nms_thresh => nms_per_class P nms_thresh x
  | MergeNMSBoxWithClass => merge_nms_box_with_class P x
  | FilterBoxes class_names conf_thresh => filter_boxes P class_names conf_thresh x
  | Scale scales => Ok (Scale_call scales x)
  | _ => Raise TypeError
  end.

Definition invoke (p : processor) (x : ndarray) : M ndarray :=
  _ ← called p; lift (call_array p x).

(** [pr.SequentialProcessor(processors)(x)]: each processor in turn, the
    output of one the input of the next. *)
Fixpoint SequentialProcessor_call (processors : list processor)
    (x : ndarray) : M ndarray :=
  match processors with
  | [] => mret x
  | p :: rest => y ← invoke p x; SequentialProcessor_call rest y
  end.

(** [ToBoxes2D(class_names)(box_data)]: a new [Box2D] per row. *)
Definition invoke_to_boxes2D (p : processor) (box_data : ndarray)
  : M (list ref) :=
  _ ← called p;
  match p with
  | ToBoxes2D class_names =>
      bs ← lift (boxes2D_of P class_names box_data); alloc_all bs
  | _ => lift (Raise TypeError)
  end.

Definition invoke_denormalize (p : processor) (image : Image)
    (boxes2D : list ref) : M (list ref) :=
  _ ← called p;
  match p with
  | DenormalizeBoxes2D =>
      on_store (DenormalizeBoxes2D_call (accepts_coordinates P) image boxes2D)
  | _ => lift (Raise TypeError)
  end.

Definition in_place (f : list pynum -> result (list pynum))
    (boxes2D : list ref) : M (list ref) :=
  _ ← on_store (update_coordinates (accepts_coordinates P) f boxes2D);
  mret boxes2D.

Definition invoke_scale_boxes2D (p : processor) (boxes2D : list ref)
    (scale : float) : M (list ref) :=
  _ ← called p;
  match p with
  | ScaleBoxes2D => in_place (scale_coordinates P scale) boxes2D
  | _ => lift (Raise TypeError)
  end.

Definition invoke_round_boxes (p : processor) (boxes2D : list ref)
  : M (list ref) :=
  _ ← called p;
  match p with
  | RoundBoxes2D => in_place (round_coordinates P) boxes2D
  | _ => lift (Raise TypeError)
  end.

Definition invoke_compute_selections (p : processor)
    (box_data_all box_data : ndarray) : M (list Z) :=
  _ ← called p;
  match p with
  | ComputeSelectedIndices => lift (selected_indices_of P box_data_all box_data)
  | _ => lift (Raise TypeError)
  end.

Definition invoke_to_pose_6D (p : processor)
    (box_data rotations translations : ndarray) : M (list Pose6D) :=
  _ ← called p;
  match p with
  | ToPose6D class_names =>
      lift (ToPose6D_call P class_names box_data rotations translations)
  | _ => lift (Raise TypeError)
  end.

(** ** EfficientPosePostprocess *)

Record Model := mkModel { prior_boxes : ndarray }.

(** The attributes [__init__] sets. *)
Record EfficientPosePostprocess := mkEfficientPosePostprocess {
  num_pose_dims : Z;
  postprocess_1 : list processor;
  scale_boxes2D : processor;
  postprocess_2 : list processor;
  to_boxes2D : processor;
  round_boxes : processor;
  denormalize : processor;
  compute_selections : processor;
  squeeze : processor;
  transform_rotations : processor;
  to_pose_6D : processor;
}.

(** The default of [variances]. *)
Definition default_variances : list float := [0.1; 0.1; 0.2; 0.2]%float.

(** [EfficientPosePostprocess.__init__], debugger.py lines 113-133. *)
Definition init (model : Model) (class_names : list string)
    (score_thresh nms_thresh : float) (variances : list float)
    (class_arg : option Z) (num_pose_dims : Z) : EfficientPosePostprocess :=
  {| num_pose_dims := num_pose_dims;
     postprocess_1 :=
       [ Squeeze None;
         DecodeBoxes (prior_boxes model) variances;
         RemoveClass class_names class_arg ];
     scale_boxes2D := ScaleBoxes2D;
     postprocess_2 :=
       [ NonMaximumSuppressionPerClass nms_thresh;
         MergeNMSBoxWithClass;
         FilterBoxes class_names score_thresh ];
     to_boxes2D := ToBoxes2D class_names;
     round_boxes := RoundBoxes2D;
     denormalize := DenormalizeBoxes2D;
     compute_selections := ComputeSelectedIndices;
     squeeze := Squeeze (Some 0);
     transform_rotations := Scale np_pi;
     to_pose_6D := ToPose6D class_names |}.

(** [1 / image_scale] *)
Definition reciprocal (image_scale : float) : result float :=
  if PrimFloat.eqb image_scale 0 then Raise ZeroDivisionError
  else Ok (PrimFloat.div 1 image_scale).

(** The body of [if len(boxes2D) > 0:], debugger.py lines 149-154. *)
Definition select_poses (self : EfficientPosePostprocess)
    (box_data_all box_data rotations translations : ndarray)
  : M (ndarray * ndarray) :=
  selected_indices ←
    invoke_compute_selections (compute_selections self) box_data_all box_data;
  rotations ← invoke (squeeze self) rotations;
  rotations ← lift (nd_take rotations selected_indices);
  rotations ← invoke (transform_rotations self) rotations;
  translations ← invoke (squeeze self) translations;
  translations ← lift (nd_take translations selected_indices);
  mret (rotations, translations).

(** [EfficientPosePostprocess.call], debugger.py lines 135-157.  No
    attribute of [self] is assigned, and [camera_parameter] is not read.
    The source sets [poses6D = []] before the [if]; the assignment from
    [self.to_pose_6D] after the [if] block overwrites it on every path, so
    it has no counterpart here. *)
Definition call {Camera : Type} (self : EfficientPosePostprocess)
    (image : Image) (model_output : ndarray * ndarray)
    (image_scale : float) (camera_parameter : Camera)
  : M (list ref * list Pose6D) :=
  let '(detections, transformations) := model_output in
  box_data ← SequentialProcessor_call (postprocess_1 self) detections;
  let box_data_all := box_data in
  box_data ← SequentialProcessor_call (postprocess_2 self) box_data;
  boxes2D ← invoke_to_boxes2D (to_boxes2D self) box_data;
  boxes2D ← invoke_denormalize (denormalize self) image boxes2D;
  scale ← lift (reciprocal image_scale);
  boxes2D ← invoke_scale_boxes2D (scale_boxes2D self) boxes2D scale;
  boxes2D ← invoke_round_boxes (round_boxes self) boxes2D;
  rotations ← lift (slice_axis2 (cut_to (num_pose_dims self)) transformations);
  translations ← lift (slice_axis2 (cut_from (num_pose_dims self)) transformations);
  '(rotations, translations) ←
    (if (0 <? length boxes2D)%nat
     then select_poses self box_data_all box_data rotations translations
     else mret (rotations, translations));
  poses6D ← invoke_to_pose_6D (to_pose_6D self) box_data rotations translations;
  mret (boxes2D, poses6D).

End Pipeline.

(** ** Non-maximum suppression

    [NonMaximumSuppressionPerClass] and the functions behind it are not in
    the sources.  The suppression of one class is modelled from section 4.3
    of the specification: "sort candidate indices by descending score;
    repeatedly select the highest-scoring remaining box, emit it, then
    discard all remaining boxes whose intersection-over-union with the
    selected box exceeds [iou_threshold]; repeat until no candidates
    remain", with ties "broken by original index order (lower index
    wins)". *)

Module NMS.

(** Corner box: [x_min, y_min, x_max, y_max]. *)
Record Box := mkBox { x_min : float; y_min : float; x_max : float; y_max : float }.

Definition fmax (a b : float) : float := if PrimFloat.ltb a b then b else a.
Definition fmin (a b : float) : float := if PrimFloat.ltb b a then b else a.

Definition area (b : Box) : float :=
  PrimFloat.mul (PrimFloat.sub (x_max b) (x_min b))
                (PrimFloat.sub (y_max b) (y_min b)).

(** Modelled from the spec: the intersection over union of two boxes,
    which is not in the sources.  Glossary: the "overlap ratio between two
    boxes", the area of the intersection over the area of the union. *)
Definition iou (a b : Box) : float :=
  let w := fmax 0 (PrimFloat.sub (fmin (x_max a) (x_max b))
                                 (fmax (x_min a) (x_min b))) in
  let h := fmax 0 (PrimFloat.sub (fmin (y_max a) (y_max b))
                                 (fmax (y_min a) (y_min b))) in
  let inter := PrimFloat.mul w h in
  PrimFloat.div inter (PrimFloat.sub (PrimFloat.add (area a) (area b)) inter).

(** A candidate: a box, its score, and its index in the input. *)
Record candidate := mkCandidate {
  c_index : nat;
  c_box : Box;
  c_score : float;
}.

Fixpoint enumerate_from (i : nat) (boxes : list Box) (scores : list float)
  : list candidate :=
  match boxes, scores with
  | b :: boxes', s :: scores' =>
      mkCandidate i b s :: enumerate_from (S i) boxes' scores'
  | _, _ => []
  end.

(** Modelled from the spec: the sort of section 4.3, which is not in the
    sources: descending score, the lower index first among equals.  [c]
    comes from before every candidate of [l], so it goes before the first
    one whose score is not higher. *)
Fixpoint insert_desc (c : candidate) (l : list candidate) : list candidate :=
  match l with
  | [] => [c]
  | d :: l' =>
      if PrimFloat.leb (c_score d) (c_score c)
      then c :: d :: l'
      else d :: insert_desc c l'
  end.

Definition sort_desc (l : list candidate) : list candidate :=
  foldr insert_desc [] l.

(** Modelled from the spec: the discard test of section 4.3.  The selected
    box discards [d] when their overlap exceeds the threshold. *)
Definition discards (iou_threshold : float) (selected d : candidate) : bool :=
  PrimFloat.ltb iou_threshold (iou (c_box selected) (c_box d)).

(** Modelled from the spec: the loop of section 4.3, which is not in the
    sources: select, emit, discard, repeat.  Every round removes the
    selected candidate, so as many rounds as there are candidates are
    enough ([select_rounds] below). *)
Fixpoint select (rounds : nat) (iou_threshold : float)
    (remaining : list candidate) : list candidate :=
  match rounds, remaining with
  | S rounds', selected :: rest =>
      selected ::
        select rounds' iou_threshold
          (List.filter (fun d => negb (discards iou_threshold selected d)) rest)
  | _, _ => []
  end.

Definition kept (boxes : list Box) (scores : list float)
    (iou_threshold : float) : list candidate :=
  let sorted := sort_desc (enumerate_from 0 boxes scores) in
  select (length sorted) iou_threshold sorted.

(** Modelled from the spec: [suppress(boxes, scores, iou_threshold) ->
    (kept_boxes, kept_scores, kept_original_indices)] of section 4.3, which
    is not in the sources. *)
Definition suppress (boxes : list Box) (scores : list float)
    (iou_threshold : float) : list Box * list float * list nat :=
  let k := kept boxes scores iou_threshold in
  (map c_box k, map c_score k, map c_index k).

(** [c] may stand before [d]: its score is not lower. *)
Definition before (c d : candidate) : Prop :=
  PrimFloat.leb (c_score d) (c_score c) = true.

(** Candidates whose scores are numbers. *)
Definition scored (l : list candidate) : Prop :=
  Forall (fun c => PrimFloat.is_nan (c_score c) = false) l.

(** No candidate discards a later one. *)
Fixpoint clean (iou_threshold : float) (l : list candidate) : Prop :=
  match l with
  | [] => True
  | c :: rest =>
      Forall (fun d => discards iou_threshold c d = false) rest
      /\ clean iou_threshold rest
  end.

(** The candidates numbered anew, as a second run numbers them. *)
Fixpoint renumber (i : nat) (l : list candidate) : list candidate :=
  match l with
  | [] => []
  | c :: rest => mkCandidate i (c_box c) (c_score c) :: renumber (S i) rest
  end.

(** The order of floats without NaN, on triples of integers compared
    place by place. *)
Definition key (x : spec_float) : Z * Z * Z :=
  match x with
  | S754_zero _ => (0, 0, 0)
  | S754_infinity false => (2, 0, 0)
  | S754_infinity true => (-2, 0, 0)
  | S754_finite false m e => (1, e, Zpos m)
  | S754_finite true m e => (-1, - e, Zneg m)
  | S754_nan => (0, 0, 0)
  end.

Definition key_le (a b : Z * Z * Z) : Prop :=
  a.1.1 < b.1.1
  \/ (a.1.1 = b.1.1
      /\ (a.1.2 < b.1.2 \/ (a.1.2 = b.1.2 /\ a.2 <= b.2))).

End NMS.

(** ** The processors of the specification

    The processors of [paz.processors] and of the example's [processors]
    module are not in the sources.  The properties of [call] below hold for
    any [paz]; to run it on concrete inputs this module gives one, each
    processor modelled from the section of the specification it names, on
    arrays whose rows are [x_min, y_min, x_max, y_max] followed by the
    class scores (before suppression) or by a score and a class index
    (after the merge). *)

Module PazSpec.

Definition scalar_of (a : ndarray) : result float :=
  match a with Scalar x => Ok x | Array _ => Raise TypeError end.

Definition row_of (a : ndarray) : result (list float) :=
  xs ← nd_rows a; mapM_result scalar_of xs.

Definition matrix_of (a : ndarray) : result (list (list float)) :=
  rows ← nd_rows a; mapM_result row_of rows.

Definition of_row (l : list float) : ndarray := Array (map Scalar l).
Definition of_matrix (m : list (list float)) : ndarray := Array (map of_row m).

(** Modelled from the spec: [pr.Squeeze], which is not in the sources and
    which the specification leaves to numpy.  [np.squeeze(a)]: every axis
    of length one is removed. *)
Fixpoint squeeze_all (a : ndarray) : ndarray :=
  match a with
  | Scalar x => Scalar x
  | Array [x] => squeeze_all x
  | Array items => Array (map squeeze_all items)
  end.

(** [np.squeeze(a, axis)]: the axis must have length one. *)
Fixpoint squeeze_at (axis : nat) (a : ndarray) : result ndarray :=
  match axis, a with
  | O, Array [x] => Ok x
  | S axis', Array items =>
      items' ← mapM_result (squeeze_at axis') items; Ok (Array items')
  | _, _ => Raise ValueError
  end.

Fixpoint nd_rank (a : ndarray) : nat :=
  match a with
  | Scalar _ => O
  | Array [] => 1%nat
  | Array (x :: _) => S (nd_rank x)
  end.

Definition squeeze (axis : option Z) (a : ndarray) : result ndarray :=
  match axis with
  | None => Ok (squeeze_all a)
  | Some k =>
      let k' := if k <? 0 then k + Z.of_nat (nd_rank a) else k in
      if k' <? 0 then Raise ValueError else squeeze_at (Z.to_nat k') a
  end.

(** Modelled from the spec: [pr.DecodeBoxes], which is not in the sources.
    Section 4.1: "multiply each delta component by its variance, apply the
    offset to the prior box's center/size parameterization, convert back
    to corner format"; the offset is added. *)
Definition decode_row (prior variances row : list float)
  : result (list float) :=
  match prior, variances, row with
  | [pcx; pcy; pw; ph], [v0; v1; v2; v3], d0 :: d1 :: d2 :: d3 :: class_scores =>
      let cx := PrimFloat.add pcx (PrimFloat.mul d0 v0) in
      let cy := PrimFloat.add pcy (PrimFloat.mul d1 v1) in
      let w := PrimFloat.add pw (PrimFloat.mul d2 v2) in
      let h := PrimFloat.add ph (PrimFloat.mul d3 v3) in
      let hw := PrimFloat.div w 2 in
      let hh := PrimFloat.div h 2 in
      Ok ([PrimFloat.sub cx hw; PrimFloat.sub cy hh;
           PrimFloat.add cx hw; PrimFloat.add cy hh] ++ class_scores)
  | _, _, _ => Raise ShapeMismatchError
  end.

Definition decode (prior_boxes : ndarray) (variances : list float)
    (x : ndarray) : result ndarray :=
  rows ← matrix_of x;
  priors ← matrix_of prior_boxes;
  if (length rows =? length priors)%nat
  then rows' ← mapM_result (fun '(prior, row) => decode_row prior variances row)
                 (zip priors rows);
       Ok (of_matrix rows')
  else Raise ShapeMismatchError.

(** Modelled from the spec: [pr.RemoveClass], which is not in the sources.
    Section 4.2: "drops one score column". *)
Definition remove_class (class_names : list string) (class_arg : option Z)
    (x : ndarray) : result ndarray :=
  match class_arg with
  | None => Ok x
  | Some k =>
      if k <? 0 then Raise IndexError
      else rows ← matrix_of x;
           Ok (of_matrix (map (delete (4 + Z.to_nat k)%nat) rows))
  end.

Definition box_of (row : list float) : result NMS.Box :=
  match row with
  | a :: b :: c :: d :: _ => Ok (NMS.mkBox a b c d)
  | _ => Raise IndexError
  end.

Definition column (j : nat) (rows : list (list float)) : result (list float) :=
  mapM_result (fun row => match row !! j with
                          | Some x => Ok x
                          | None => Raise IndexError
                          end) rows.

Definition box_row (b : NMS.Box) (rest : list float) : list float :=
  [NMS.x_min b; NMS.y_min b; NMS.x_max b; NMS.y_max b] ++ rest.

(** Modelled from the spec: [pr.NonMaximumSuppressionPerClass], which is
    not in the sources.  Section 4.3: suppression "applied independently
    per class".  The result has one array per class: the kept boxes with
    their scores. *)
Definition nms_of_class (iou_threshold : float) (rows : list (list float))
    (boxes : list NMS.Box) (class_index : nat) : result ndarray :=
  scores ← column (4 + class_index) rows;
  let '(kept_boxes, kept_scores, _) := NMS.suppress boxes scores iou_threshold in
  Ok (of_matrix (zip_with (fun b s => box_row b [s]) kept_boxes kept_scores)).

Definition nms_per_class (iou_threshold : float) (x : ndarray)
  : result ndarray :=
  rows ← matrix_of x;
  boxes ← mapM_result box_of rows;
  let num_classes := (length (default [] (head rows)) - 4)%nat in
  per_class ← mapM_result (nms_of_class iou_threshold rows boxes)
                (seq 0 num_classes);
  Ok (Array per_class).

(** Modelled from the spec: [pr.MergeNMSBoxWithClass], which is not in the
    sources.  Section 4.3, merge step: "concatenate kept boxes with a
    class-id column", "by class index then by descending score within
    class". *)
Fixpoint merge_from (class_index : Z) (per_class : list ndarray)
  : result (list (list float)) :=
  match per_class with
  | [] => Ok []
  | a :: rest =>
      rows ← matrix_of a;
      c ← float_of_int class_index;
      more ← merge_from (class_index + 1) rest;
      Ok (map (fun row => row ++ [c]) rows ++ more)
  end.

Definition merge_nms_box_with_class (x : ndarray) : result ndarray :=
  per_class ← nd_rows x;
  rows ← merge_from 0 per_class;
  Ok (of_matrix rows).

(** Modelled from the spec: [pr.FilterBoxes], which is not in the sources.
    Section 4.2: "retains rows where [max(scores) >= threshold]"; a merged
    row has one score. *)
Definition filter_boxes (class_names : list string) (threshold : float)
    (x : ndarray) : result ndarray :=
  rows ← matrix_of x;
  scores ← column 4 rows;
  Ok (of_matrix
        (List.filter (fun row => match row !! 4%nat with
                                 | Some s => PrimFloat.leb threshold s
                                 | None => false
                                 end) rows)).

(** The class a merged row names: the class index is its sixth entry. *)
Definition class_index_of (row : list float) : result Z :=
  match row !! 5%nat with
  | Some k => int_of_float k
  | None => Raise IndexError
  end.

Definition name_of (class_names : list string) (k : Z) : result string :=
  if k <? 0 then Raise IndexError
  else match class_names !! Z.to_nat k with
       | Some name => Ok name
       | None => Raise IndexError
       end.

(** Modelled from the spec: [pr.ToBoxes2D], which is not in the sources.
    Section 3, Box2D: the coordinates, class name and score of a row. *)
Definition box2D_of (class_names : list string) (row : list float)
  : result Box2D :=
  match row with
  | a :: b :: c :: d :: s :: _ =>
      k ← class_index_of row;
      name ← name_of class_names k;
      Ok (mkBox2D [PyFloat a; PyFloat b; PyFloat c; PyFloat d] (PyFloat s) name)
  | _ => Raise IndexError
  end.

Definition boxes2D_of (class_names : list string) (x : ndarray)
  : result (list Box2D) :=
  rows ← matrix_of x; mapM_result (box2D_of class_names) rows.

(** Modelled from the spec: [ScaleBoxes2D], which is not in the sources.
    Section 4.6: the image-scale correction factor times every
    coordinate. *)
Definition scale_coordinates (scale : float) (c : list pynum)
  : result (list pynum) :=
  mapM_result (fun x => Py.mul x (PyFloat scale)) c.

(** Modelled from the spec: [pr.RoundBoxes2D], which is not in the
    sources.  Section 4.6: every coordinate to the nearest integer pixel,
    halves away from zero. *)
Definition round_coordinates (c : list pynum) : result (list pynum) :=
  mapM_result (fun x => z ← round_half_away x; Ok (PyInt z)) c.

Definition same_box (a b : list float) : bool :=
  match a, b with
  | a0 :: a1 :: a2 :: a3 :: _, b0 :: b1 :: b2 :: b3 :: _ =>
      PrimFloat.eqb a0 b0 && PrimFloat.eqb a1 b1
      && PrimFloat.eqb a2 b2 && PrimFloat.eqb a3 b3
  | _, _ => false
  end.

(** A row of the array before suppression matches a survivor when the
    coordinates agree and its score for the survivor's class is the
    survivor's score. *)
Definition matches (survivor : list float) (k : Z) (row : list float) : bool :=
  same_box survivor row
  && match survivor !! 4%nat, row !! (4 + Z.to_nat k)%nat with
     | Some s, Some s' => PrimFloat.eqb s s'
     | _, _ => false
     end.

Fixpoint find_from (i : Z) (f : list float -> bool) (rows : list (list float))
  : result Z :=
  match rows with
  | [] => Raise SelectionMismatchError
  | row :: rest => if f row then Ok i else find_from (i + 1) f rest
  end.

(** Modelled from the spec: [ComputeSelectedIndices], which is not in the
    sources.  Section 4.4: for each survivor, the index of the row before
    suppression that matches it, by "exact value match on box coordinates
    and class"; [SelectionMismatchError] when there is none. *)
Definition selected_indices_of (all_box_data filtered_box_data : ndarray)
  : result (list Z) :=
  all_rows ← matrix_of all_box_data;
  survivors ← matrix_of filtered_box_data;
  mapM_result (fun survivor =>
                 k ← class_index_of survivor;
                 find_from 0 (matches survivor k) all_rows) survivors.

Definition class_of_row (class_names : list string) (row : ndarray) : string :=
  match (r ← row_of row; k ← class_index_of r; name_of class_names k) with
  | Ok name => name
  | Raise _ => EmptyString
  end.

(** The check of the setter of [Box2D.coordinates].  The class is not in
    the sources and the specification does not describe the check; this is
    the one the class makes when the program runs: the four coordinates
    are unpacked, and [x_min >= x_max] or [y_min >= y_max] raises
    [ValueError]. *)
Definition accepts_coordinates (c : list pynum) : result unit :=
  match c with
  | [x_min; y_min; x_max; y_max] =>
      if Py.ge x_min x_max then Raise ValueError
      else if Py.ge y_min y_max then Raise ValueError
      else Ok tt
  | _ => Raise ValueError
  end.

Definition processors : paz :=
  mkPaz squeeze decode remove_class nms_per_class merge_nms_box_with_class
        filter_boxes boxes2D_of scale_coordinates round_coordinates
        selected_indices_of class_of_row accepts_coordinates.

End PazSpec.

(** ** The rescaling the specification describes

    Section 4.6 in its own words, to compare [denormalize_box] with:
    [x_pixel = round(x_norm * width)], [y_pixel = round(y_norm * height)],
    halves away from zero, clamped to [[0, dimension - 1]]. *)

Module Claimed.

Definition clamp (lo hi z : Z) : Z := Z.max lo (Z.min hi z).

Definition to_pixel (x : pynum) (dimension : Z) : result Z :=
  p ← Py.mul x (PyInt dimension);
  z ← round_half_away p;
  Ok (clamp 0 (dimension - 1) z).

Definition rescale (box : list pynum) (image_shape : list Z)
  : result (list pynum) :=
  match slice_to 4 box, image_shape with
  | [x_min; y_min; x_max; y_max], [height; width] =>
      a ← to_pixel x_min width;
      b ← to_pixel y_min height;
      c ← to_pixel x_max width;
      d ← to_pixel y_max height;
      Ok [PyInt a; PyInt b; PyInt c; PyInt d]
  | _, _ => Raise ValueError
  end.

(** The order claimed for the image-scale correction: the factor first,
    then the conversion to pixels, then the rounding. *)
Definition scale_then_denormalize (P : paz) (scale : float)
    (image_shape : list Z) (c : list pynum) : result (list pynum) :=
  c1 ← scale_coordinates P scale c;
  c2 ← denormalize_box c1 image_shape;
  round_coordinates P c2.

End Claimed.

(** The value of a finite float as a fraction: numerator and a positive
    denominator. *)
Definition fraction_of (f : float) : result (Z * Z) :=
  match Prim2SF f with
  | S754_zero _ => Ok (0, 1)
  | S754_finite s m e =>
      let n := if s then Zneg m else Zpos m in
      Ok (if 0 <=? e then (n * 2 ^ e, 1) else (n, 2 ^ (- e)))
  | S754_infinity _ => Raise OverflowError
  | S754_nan => Raise ValueError
  end.

(** Truncation toward zero, on the value of the number: [Z.quot] rounds
    toward zero. *)
Definition truncate (x : pynum) : result Z :=
  match x with
  | PyInt z => Ok z
  | PyFloat f => '(n, d) ← fraction_of f; Ok (Z.quot n d)
  end.

(** Pixel conversion by truncation with the dimensions of the image and
    no clamping: [x_pixel = trunc(x_norm * width)],
    [y_pixel = trunc(y_norm * height)]. *)
Definition truncate_to_pixels (box : list pynum) (image_shape : list Z)
  : result (list pynum) :=
  match slice_to 4 box, image_shape with
  | [x_min; y_min; x_max; y_max], [height; width] =>
      a ← Py.mul x_min (PyInt width); x_min' ← truncate a;
      b ← Py.mul y_min (PyInt height); y_min' ← truncate b;
      c ← Py.mul x_max (PyInt width); x_max' ← truncate c;
      d ← Py.mul y_max (PyInt height); y_max' ← truncate d;
      Ok [PyInt x_min'; PyInt y_min'; PyInt x_max'; PyInt y_max']
  | _, _ => Raise ValueError
  end.

(** Pixel conversion with a given height and width, as
    [denormalize_box] does it. *)
Definition to_pixels (height width : pynum) (box : list pynum)
  : result (list pynum) :=
  match slice_to 4 box with
  | [x_min; y_min; x_max; y_max] =>
      a ← Py.mul x_min width; x_min' ← Py.int a;
      b ← Py.mul y_min height; y_min' ← Py.int b;
      c ← Py.mul x_max width; x_max' ← Py.int c;
      d ← Py.mul y_max height; y_max' ← Py.int d;
      Ok [PyInt x_min'; PyInt y_min'; PyInt x_max'; PyInt y_max']
  | _ => Raise ValueError
  end.

(** The boxes of the claim's scenario, and a box on the edge. *)
Definition scenario_box : list pynum :=
  [PyFloat 0.1; PyFloat 0.1; PyFloat 0.3; PyFloat 0.3].
Definition edge_box : list pynum :=
  [PyFloat 0.001; PyFloat 0.001; PyFloat 1; PyFloat 1].

(** The boxes with [f] of their coordinates as coordinates: what a loop
    of [update_coordinates] that returns has made of them. *)
Definition update_values (f : list pynum -> result (list pynum))
    (bs : list Box2D) : result (list Box2D) :=
  mapM_result (fun b => c ← f (coordinates b); Ok (set_coordinates b c)) bs.

(** What a loop of [update_coordinates] does to the boxes themselves, the
    check of each assignment included. *)
Definition assign_values (accepts : list pynum -> result unit)
    (f : list pynum -> result (list pynum))
    (bs : list Box2D) : result (list Box2D) :=
  mapM_result (fun b => c ← f (coordinates b); assign_coordinates accepts b c)
              bs.

Definition denormalize_values (image : Image) (bs : list Box2D)
  : result (list Box2D) :=
  update_values (fun c => denormalize_box c (slice_to 2 (shape image))) bs.

(** ** The pipeline as a function of its inputs

    The same pipeline on the boxes themselves instead of references: a run
    gives the processors it called and the values it returned.  The
    properties below show that [call] computes this whatever the store it
    starts from. *)

Definition W (A : Type) : Type := (list processor * result A)%type.

#[global] Instance W_ret : MRet W := fun A a => ([], Ok a).
#[global] Instance W_bind : MBind W := fun A B k m =>
  match m with
  | (l, Ok a) => let '(l', r) := k a in (l ++ l', r)
  | (l, Raise e) => (l, Raise e)
  end.

Definition told (p : processor) : W unit := ([p], Ok tt).

Definition value {A} (r : result A) : W A := ([], r).

Section Denotation.

Variable P : paz.

Definition invoke_value (p : processor) (x : ndarray) : W ndarray :=
  _ ← told p; value (call_array P p x).

Fixpoint sequential_value (processors : list processor) (x : ndarray)
  : W ndarray :=
  match processors with
  | [] => mret x
  | p :: rest => y ← invoke_value p x; sequential_value rest y
  end.

Definition to_boxes2D_value (p : processor) (box_data : ndarray)
  : W (list Box2D) :=
  _ ← told p;
  match p with
  | ToBoxes2D class_names => value (boxes2D_of P class_names box_data)
  | _ => value (Raise TypeError)
  end.

Definition denormalize_value (p : processor) (image : Image)
    (boxes : list Box2D) : W (list Box2D) :=
  _ ← told p;
  match p with
  | DenormalizeBoxes2D =>
      value (assign_values (accepts_coordinates P)
               (fun c => denormalize_box c (slice_to 2 (shape image))) boxes)
  | _ => value (Raise TypeError)
  end.

Definition scale_boxes2D_value (p : processor) (boxes : list Box2D)
    (scale : float) : W (list Box2D) :=
  _ ← told p;
  match p with
  | ScaleBoxes2D =>
      value (assign_values (accepts_coordinates P) (scale_coordinates P scale)
               boxes)
  | _ => value (Raise TypeError)
  end.

Definition round_boxes_value (p : processor) (boxes : list Box2D)
  : W (list Box2D) :=
  _ ← told p;
  match p with
  | RoundBoxes2D =>
      value (assign_values (accepts_coordinates P) (round_coordinates P) boxes)
  | _ => value (Raise TypeError)
  end.

Definition compute_selections_value (p : processor)
    (box_data_all box_data : ndarray) : W (list Z) :=
  _ ← told p;
  match p with
  | ComputeSelectedIndices => value (selected_indices_of P box_data_all box_data)
  | _ => value (Raise TypeError)
  end.

Definition to_pose_6D_value (p : processor)
    (box_data rotations translations : ndarray) : W (list Pose6D) :=
  _ ← told p;
  match p with
  | ToPose6D class_names =>
      value (ToPose6D_call P class_names box_data rotations translations)
  | _ => value (Raise TypeError)
  end.

Definition select_poses_value (self : EfficientPosePostprocess)
    (box_data_all box_data rotations translations : ndarray)
  : W (ndarray * ndarray) :=
  selected_indices ←
    compute_selections_value (compute_selections self) box_data_all box_data;
  rotations ← invoke_value (squeeze self) rotations;
  rotations ← value (nd_take rotations selected_indices);
  rotations ← invoke_value (transform_rotations self) rotations;
  translations ← invoke_value (squeeze self) translations;
  translations ← value (nd_take translations selected_indices);
  mret (rotations, translations).

Definition call_value (self : EfficientPosePostprocess)
    (image : Image) (model_output : ndarray * ndarray) (image_scale : float)
  : W (list Box2D * list Pose6D) :=
  let '(detections, transformations) := model_output in
  box_data ← sequential_value (postprocess_1 self) detections;
  let box_data_all := box_data in
  box_data ← sequential_value (postprocess_2 self) box_data;
  boxes ← to_boxes2D_value (to_boxes2D self) box_data;
  boxes ← denormalize_value (denormalize self) image boxes;
  scale ← value (reciprocal image_scale);
  boxes ← scale_boxes2D_value (scale_boxes2D self) boxes scale;
  boxes ← round_boxes_value (round_boxes self) boxes;
  rotations ← value (slice_axis2 (cut_to (num_pose_dims self)) transformations);
  translations ← value (slice_axis2 (cut_from (num_pose_dims self)) transformations);
  '(rotations, translations) ←
    (if (0 <? length boxes)%nat
     then select_poses_value self box_data_all box_data rotations translations
     else mret (rotations, translations));
  poses6D ← to_pose_6D_value (to_pose_6D self) box_data rotations translations;
  mret (boxes, poses6D).

End Denotation.

(** What a caller sees of a run: the boxes the returned references denote
    and the poses, or the exception. *)
Definition observe (run : world * result (list ref * list Pose6D))
  : result (list (option Box2D) * list Pose6D) :=
  let '(w, r) := run in
  '(boxes2D, poses6D) ← r; Ok (deref (objects w) boxes2D, poses6D).

(** A run [m] on a store satisfying [S] calls the processors [v] lists and
    ends as [v] does, with results related by [Post] in the final store. *)
Definition sim {A B} (S : store -> Prop) (m : M A) (v : W B)
    (Post : store -> A -> B -> Prop) : Prop :=
  forall w, S (objects w) ->
    exists w' r, m w = (w', r)
      /\ log w' = log w ++ v.1
      /\ match v.2 with
         | Ok b => exists a, r = Ok a /\ Post (objects w') a b
         | Raise e => r = Raise e
         end.

(** A list of references denoting the boxes [bs], each once. *)
Definition denotes (rs : list ref) (bs : list Box2D) (σ : store) : Prop :=
  NoDup rs /\ deref σ rs = map Some bs.

(** A run on values that calls the processors of [l] in order: all of
    them when it returns, the first of them when it raises. *)
Definition traces {A} (v : W A) (l : list processor) : Prop :=
  v.1 `prefix_of` l /\ (forall a, v.2 = Ok a -> v.1 = l).

(** The same when what is called depends on whether there are boxes. *)
Definition within {A} (v : W A) (L : bool -> list processor) : Prop :=
  exists b, v.1 `prefix_of` L b.

(** The processors of a full run in the order they are called; the middle
    part is called only when there are boxes. *)
Definition stage_order (self : EfficientPosePostprocess) (some_boxes : bool)
  : list processor :=
  postprocess_1 self ++ postprocess_2 self
  ++ [to_boxes2D self; denormalize self; scale_boxes2D self; round_boxes self]
  ++ (if some_boxes
      then [compute_selections self; squeeze self; transform_rotations self;
            squeeze self]
      else [])
  ++ [to_pose_6D self].

(** The processors [init] wires, in the order [call] calls them. *)
Definition init_order (model : Model) (class_names : list string)
    (score_thresh nms_thresh : float) (variances : list float)
    (class_arg : option Z) (some_boxes : bool) : list processor :=
  [ Squeeze None;
    DecodeBoxes (prior_boxes model) variances;
    RemoveClass class_names class_arg;
    NonMaximumSuppressionPerClass nms_thresh;
    MergeNMSBoxWithClass;
    FilterBoxes class_names score_thresh;
    ToBoxes2D class_names;
    DenormalizeBoxes2D;
    ScaleBoxes2D;
    RoundBoxes2D ]
  ++ (if some_boxes
      then [ComputeSelectedIndices; Squeeze (Some 0); Scale np_pi; Squeeze (Some 0)]
      else [])
  ++ [ToPose6D class_names].

(** The place of the first processor of a kind in a log. *)
Fixpoint position (kind : processor -> bool) (l : list processor) : option nat :=
  match l with
  | [] => None
  | p :: rest => if kind p then Some O else S <$> position kind rest
  end.

Definition is_nms (p : processor) : bool :=
  match p with NonMaximumSuppressionPerClass _ => true | _ => false end.
Definition is_score_filter (p : processor) : bool :=
  match p with FilterBoxes _ _ => true | _ => false end.
Definition is_denormalize (p : processor) : bool :=
  match p with DenormalizeBoxes2D => true | _ => false end.
Definition is_scale_boxes (p : processor) : bool :=
  match p with ScaleBoxes2D => true | _ => false end.
Definition is_to_pose_6D (p : processor) : bool :=
  match p with ToPose6D _ => true | _ => false end.

(** ** A concrete run *)
Module Example.
Import PazSpec.

Definition class_names : list string := ["driller"%string].

Definition model : Model :=
  mkModel (of_matrix [[0.201; 0.201; 0.2; 0.2];
                    [0.6; 0.6; 0.2; 0.2];
                    [0.211; 0.201; 0.2; 0.2]]%float).

Definition self : EfficientPosePostprocess :=
  init model class_names 0.5 0.45 default_variances None 3.

Definition detections : ndarray :=
  Array [of_matrix [[0; 0; 0; 0; 0.9];
                  [0; 0; 0; 0; 0.3];
                  [0; 0; 0; 0; 0.8]]%float].

Definition transformations : ndarray :=
  Array [of_matrix [[0.5; -0.25; 1; 10; 20; 30];
                  [0.1; 0.2; 0.3; 1; 2; 3];
                  [0.7; 0.7; 0.7; 0.7; 0.7; 0.7]]%float].

Definition image : Image := mkImage [480; 640; 3].

Definition empty_world : world := mkWorld ∅ [].

(** Two boxes in a store. *)
Definition driller_box : Box2D :=
  mkBox2D scenario_box (PyFloat 0.9) "driller".
Definition other_box : Box2D :=
  mkBox2D edge_box (PyFloat 0.8) "other".
Definition two_boxes : gmap positive Box2D :=
  <[2%positive := other_box]> (<[1%positive := driller_box]> ∅).

Definition run (image_scale : float) :=
  call processors self image (detections, transformations) image_scale tt
    empty_world.

(** The array handed to [postprocess_2], and the coordinates of the box
    [ToBoxes2D] makes of its output. *)
Definition decoded : result ndarray :=
  (sequential_value processors (postprocess_1 self) detections).2.

Definition detected_coordinates : list pynum :=
  [PyFloat 0.10100000000000001; PyFloat 0.10100000000000001;
   PyFloat 0.30100000000000005; PyFloat 0.30100000000000005].

Definition detected : result (list Box2D) :=
  box_data ← (sequential_value processors
                (postprocess_1 self ++ postprocess_2 self) detections).2;
  boxes2D_of class_names box_data.

(** The same pipeline with a score threshold no detection reaches. *)
Definition strict_self : EfficientPosePostprocess :=
  init model class_names 0.95 0.45 default_variances None 3.

Definition strict_run :=
  call processors strict_self image (detections, transformations) 1 tt
    empty_world.

(** Two boxes of the same class whose overlap is 0.6 of their union. *)
Definition overlapping_boxes : list NMS.Box :=
  [NMS.mkBox 0 0 1 1; NMS.mkBox 0.25 0 1.25 1]%float.
Definition overlapping_scores : list float := [0.9; 0.8]%float.

(** The poses of the scenario: the rotation is [pi] times
    [0.5, -0.25, 1]. *)
Definition poses : list Pose6D :=
  [ mkPose6D (of_row [1.5707963267948966; -0.78539816339744828;
                      3.1415926535897931]%float)
             (of_row [10; 20; 30]%float) "driller" ].
End Example.

(** [denormalize_box] applied [n] times, each time to the result of the
    time before: what happens to a box that a list holds [n] times. *)
Fixpoint denormalize_times (n : nat) (c : list pynum) (image_shape : list Z)
  : result (list pynum) :=
  match n with
  | O => Ok c
  | S n' => c' ← denormalize_box c image_shape;
            denormalize_times n' c' image_shape
  end.

(** ** The transformation the script hands to the detector

    debugger.py lines 240-243 cut two blocks of columns out of
    [seq[1]['transformation'][0]], put them side by side and add a leading
    axis. *)

(** [l[start:stop]] for Python integers. *)
Definition cut_between {A} (start stop : Z) (l : list A) : list A :=
  skipn (py_stop start (length l)) (firstn (py_stop stop (length l)) l).

(** [a[:, cut]]: the slice acts on the second axis; an array of rank one
    raises [IndexError]. *)
Definition slice_axis1 (cut : list ndarray -> list ndarray) (a : ndarray)
  : result ndarray :=
  let on_row r :=
    match r with
    | Array xs => Ok (Array (cut xs))
    | Scalar _ => Raise IndexError
    end in
  match a with
  | Array rows => rows' ← mapM_result on_row rows; Ok (Array rows')
  | Scalar _ => Raise IndexError
  end.

(** [a.shape], read along the first entries. *)
Fixpoint nd_shape (a : ndarray) : list nat :=
  match a with
  | Scalar _ => []
  | Array items =>
      length items :: match items with
                      | x :: _ => nd_shape x
                      | [] => []
                      end
  end.

Definition nd_items (a : ndarray) : list ndarray :=
  match a with
  | Array items => items
  | Scalar _ => []
  end.

(** All the arrays of a list have one shape. *)
Definition same_shapes (l : list ndarray) : bool :=
  match l with
  | [] => true
  | x :: rest => forallb (fun y => bool_decide (nd_shape y = nd_shape x)) rest
  end.

(** [np.concatenate((a, b), axis=1)]: row [i] of the result is row [i] of
    [a] followed by row [i] of [b].  numpy raises [ValueError] (its
    [AxisError] is one) unless both arrays have a second axis, as many
    rows as each other and entries of one shape. *)
Definition concatenate_axis1 (a b : ndarray) : result ndarray :=
  let join rows :=
    match rows with
    | (Array xs, Array ys) => Ok (Array (xs ++ ys))
    | _ => Raise ValueError
    end in
  match a, b with
  | Array rows_a, Array rows_b =>
      if negb (length rows_a =? length rows_b)%nat then Raise ValueError
      else
        rows ← mapM_result join (zip rows_a rows_b);
        if same_shapes (concat (map nd_items rows))
        then Ok (Array rows)
        else Raise ValueError
  | _, _ => Raise ValueError
  end.

(** [np.expand_dims(a, axis=0)] *)
Definition expand_dims_axis0 (a : ndarray) : ndarray := Array [a].

(** The value of [transformation] after debugger.py lines 240-243, from
    [seq[1]['transformation'][0]]. *)
Definition transformation (annotation : ndarray) : result ndarray :=
  rotations ← slice_axis1 (cut_to 3) annotation;
  translations ← slice_axis1 (cut_between 6 9) annotation;
  transformation ← concatenate_axis1 rotations translations;
  Ok (expand_dims_axis0 transformation).

(** An array of rank two: rows of scalars. *)
Definition is_matrix (a : ndarray) : bool :=
  match a with
  | Array rows =>
      forallb (fun r => match r with
                        | Array xs =>
                            forallb (fun x => match x with
                                              | Scalar _ => true
                                              | Array _ => false
                                              end) xs
                        | Scalar _ => false
                        end) rows
  | Scalar _ => false
  end.

(** ** DetectAndEstimateEfficientPose

    debugger.py lines 160-220.  The detector holds its attributes in
    [self]; [call] assigns one of them, [draw_pose6D].  An attribute that
    [__init__] did not assign is absent, and reading it raises
    [AttributeError]: the base class [Processor] is taken to define none
    of them. *)

Module Detect.

(** What a call of the detector raises: an exception of its own, or the
    one a processor it calls has raised. *)
Inductive error :=
| AttributeError (attribute : string)
| KeyError (key : string)
| Raised (e : exn).

Inductive outcome (A : Type) :=
| Returned (a : A)
| Failed (e : error).
Arguments Returned {A} a.
Arguments Failed {A} e.

(** The processor objects [__init__] makes, with the arguments they are
    made with. *)
Inductive preprocessor := EfficientPosePreprocess (model : Model).
Inductive box_drawer := DrawBoxes2D (class_names : list string).
Inductive wrapper := WrapOutput (keys : list string).

Section Detector.

(** Images, object sizes, the camera matrix, colours, what the
    preprocessing returns and what [WrapOutput] returns are values of the
    framework; the code here only passes them on.  [picture_shape] is
    [image.shape]. *)
Context {Picture Size CameraMatrix Color Tensor Camera Output : Type}.

Variable P : paz.
Variable picture_shape : Picture -> list Z.

(** The code called that is not in the sources: each is a function of its
    arguments that returns or raises. *)
Variable lincolor : nat -> list Color.
Variable EfficientPosePreprocess_call :
  Model -> Picture -> result (Tensor * Tensor * Camera).
Variable DrawBoxes2D_call :
  list string -> Picture -> list Box2D -> result Picture.
Variable WrapOutput_call :
  list string -> Picture -> list ref -> list Pose6D -> Output.

(** [DrawPose6D(object_size, camera_parameter, box_color)] *)
Record DrawPose6D := mkDrawPose6D {
  object_size : Size;
  camera_parameter : CameraMatrix;
  box_color : Color;
}.

Variable DrawPose6D_call : DrawPose6D -> Picture -> Pose6D -> result Picture.

(** The attributes of the detector.  [class_to_sizes] is a dict: its
    items in order, one per key. *)
Record DetectAndEstimateEfficientPose := mkDetectAndEstimateEfficientPose {
  model : Model;
  class_names : list string;
  score_thresh : float;
  nms_thresh : float;
  variances : list float;
  class_to_sizes : list (string * Size);
  camera_matrix : CameraMatrix;
  colors : list Color;
  show_boxes2D : bool;
  show_poses6D : bool;
  preprocess : option preprocessor;
  postprocess : option EfficientPosePostprocess;
  draw_boxes2D : box_drawer;
  wrap : wrapper;
  draw_pose6D : option (gmap string DrawPose6D);
}.

(** [DetectAndEstimateEfficientPose.__init__], debugger.py lines 161-183.
    [preprocess] and [postprocess] are assigned only when the argument is
    [None]; [variances] is stored and not handed to
    [EfficientPosePostprocess], which is built with its defaults for
    [variances] and [num_pose_dims]. *)
Definition init {Preprocess Postprocess : Type}
    (model : Model) (class_names : list string)
    (score_thresh nms_thresh : float)
    (LINEMOD_CAMERA_MATRIX : CameraMatrix)
    (LINEMOD_OBJECT_SIZES : list (string * Size))
    (preprocess : option Preprocess) (postprocess : option Postprocess)
    (variances : list float) (show_boxes2D show_poses6D : bool)
  : DetectAndEstimateEfficientPose :=
  {| model := model;
     class_names := class_names;
     score_thresh := score_thresh;
     nms_thresh := nms_thresh;
     variances := variances;
     class_to_sizes := LINEMOD_OBJECT_SIZES;
     camera_matrix := LINEMOD_CAMERA_MATRIX;
     colors := lincolor (length LINEMOD_OBJECT_SIZES);
     show_boxes2D := show_boxes2D;
     show_poses6D := show_poses6D;
     preprocess :=
       match preprocess with
       | None => Some (EfficientPosePreprocess model)
       | Some _ => None
       end;
     postprocess :=
       match postprocess with
       | None => Some (init model class_names score_thresh nms_thresh
                            default_variances (Some 0) 3)
       | Some _ => None
       end;
     draw_boxes2D := DrawBoxes2D class_names;
     wrap := WrapOutput ["image"; "boxes2D"; "poses6D"]%string;
     draw_pose6D := None |}.

(** [EFFICIENTPOSEALINEMODDRILLER.__init__], debugger.py lines 211-220;
    [names] and [model] are what [get_class_names] and [EFFICIENTPOSEA]
    return. *)
Definition EFFICIENTPOSEALINEMODDRILLER (names : list string) (model : Model)
    (LINEMOD_CAMERA_MATRIX : CameraMatrix)
    (LINEMOD_OBJECT_SIZES : list (string * Size))
    (score_thresh nms_thresh : float) (show_boxes2D show_poses6D : bool)
  : DetectAndEstimateEfficientPose :=
  init (Preprocess := unit) (Postprocess := unit)
       model names score_thresh nms_thresh
       LINEMOD_CAMERA_MATRIX LINEMOD_OBJECT_SIZES None None
       default_variances show_boxes2D show_poses6D.

(** [self._build_draw_pose6D(name_to_size, camera_parameter)], debugger.py
    lines 185-191: [zip] stops with the shorter of the items and the
    colours. *)
Definition _build_draw_pose6D (self : DetectAndEstimateEfficientPose)
    (name_to_size : list (string * Size)) (camera_parameter : CameraMatrix)
  : gmap string DrawPose6D :=
  let iterator := zip name_to_size (colors self) in
  foldl (fun name_to_draw '((name, object_size), box_color) =>
           let draw := mkDrawPose6D object_size camera_parameter box_color in
           <[name := draw]> name_to_draw)
        ∅ iterator.

(** A computation of the detector: it reads and assigns attributes of
    [self], runs in the store of boxes, and returns or raises. *)
Definition D (A : Type) : Type :=
  DetectAndEstimateEfficientPose * world ->
  (DetectAndEstimateEfficientPose * world) * outcome A.

#[global] Instance D_ret : MRet D := fun A a s => (s, Returned a).
#[global] Instance D_bind : MBind D := fun A B k m s =>
  match m s with
  | (s', Returned a) => k a s'
  | (s', Failed e) => (s', Failed e)
  end.

Definition of_result {A} (r : result A) : outcome A :=
  match r with
  | Ok a => Returned a
  | Raise e => Failed (Raised e)
  end.

(** [self.name] for an attribute [__init__] always assigns. *)
Definition read {A} (field : DetectAndEstimateEfficientPose -> A) : D A :=
  fun s => (s, Returned (field s.1)).

(** [self.name] for an attribute that may be absent. *)
Definition attribute {A} (name : string)
    (field : DetectAndEstimateEfficientPose -> option A) : D A :=
  fun s =>
    match field s.1 with
    | Some a => (s, Returned a)
    | None => (s, Failed (AttributeError name))
    end.

Definition returning {A} (r : result A) : D A := fun s => (s, of_result r).

(** A processor that works on the store of boxes. *)
Definition running {A} (m : M A) : D A :=
  fun s => let '(w', r) := m s.2 in ((s.1, w'), of_result r).

(** [self.draw_pose6D = name_to_draw] *)
Definition set_draw_pose6D (name_to_draw : gmap string DrawPose6D) : D unit :=
  fun s =>
    let self := s.1 in
    ({| model := model self;
        class_names := class_names self;
        score_thresh := score_thresh self;
        nms_thresh := nms_thresh self;
        variances := variances self;
        class_to_sizes := class_to_sizes self;
        camera_matrix := camera_matrix self;
        colors := colors self;
        show_boxes2D := show_boxes2D self;
        show_poses6D := show_poses6D self;
        preprocess := preprocess self;
        postprocess := postprocess self;
        draw_boxes2D := draw_boxes2D self;
        wrap := wrap self;
        draw_pose6D := Some name_to_draw |}, s.2, Returned tt).

(** The object a reference stands for. *)
Definition box_at (box2D : ref) : D Box2D :=
  fun s =>
    match objects s.2 !! box2D with
    | Some b => (s, Returned b)
    | None => (s, Failed (Raised DanglingReference))
    end.

Fixpoint boxes_at (boxes2D : list ref) : D (list Box2D) :=
  match boxes2D with
  | [] => mret []
  | box2D :: rest => b ← box_at box2D; bs ← boxes_at rest; mret (b :: bs)
  end.

(** [name_to_draw[key]] *)
Definition item (name_to_draw : gmap string DrawPose6D) (key : string)
  : D DrawPose6D :=
  fun s =>
    match name_to_draw !! key with
    | Some draw => (s, Returned draw)
    | None => (s, Failed (KeyError key))
    end.

(** The loop of debugger.py lines 205-206 over the pairs [zip] gives. *)
Fixpoint draw_poses (image : Picture) (pairs : list (ref * Pose6D))
  : D Picture :=
  match pairs with
  | [] => mret image
  | (box2D, pose6D) :: rest =>
      name_to_draw ← attribute "draw_pose6D" draw_pose6D;
      b ← box_at box2D;
      draw ← item name_to_draw (class_name b);
      image ← returning (DrawPose6D_call draw image pose6D);
      draw_poses image rest
  end.

(** [DetectAndEstimateEfficientPose.call], debugger.py lines 193-207.  The
    post-processing reads of the image its shape only. *)
Definition call (image : Picture) (detections transformations : ndarray)
  : D Output :=
  preprocess ← attribute "preprocess" preprocess;
  let 'EfficientPosePreprocess model := preprocess in
  preprocessed_data ← returning (EfficientPosePreprocess_call model image);
  let '(_, _, camera_parameter) := preprocessed_data in
  let outputs := (detections, transformations) in
  postprocess ← attribute "postprocess" postprocess;
  '(boxes2D, poses6D) ←
    running (call P postprocess (mkImage (picture_shape image)) outputs 1
                  camera_parameter);
  show_boxes2D ← read show_boxes2D;
  image ← (if show_boxes2D : bool
           then '(DrawBoxes2D class_names) ← read draw_boxes2D;
                boxes ← boxes_at boxes2D;
                returning (DrawBoxes2D_call class_names image boxes)
           else mret image);
  show_poses6D ← read show_poses6D;
  image ← (if show_poses6D : bool
           then name_to_draw ←
                  read (fun self =>
                          _build_draw_pose6D self (class_to_sizes self)
                                             (camera_matrix self));
                _ ← set_draw_pose6D name_to_draw;
                draw_poses image (zip boxes2D poses6D)
           else mret image);
  '(WrapOutput keys) ← read wrap;
  mret (WrapOutput_call keys image boxes2D poses6D).

(** Two detectors that differ at most in the attributes the body of
    [call] does not read: [model], [class_names], [score_thresh],
    [nms_thresh] and [variances]. *)
Definition same_reads (a b : DetectAndEstimateEfficientPose) : Prop :=
  preprocess a = preprocess b
  /\ postprocess a = postprocess b
  /\ show_boxes2D a = show_boxes2D b
  /\ draw_boxes2D a = draw_boxes2D b
  /\ show_poses6D a = show_poses6D b
  /\ class_to_sizes a = class_to_sizes b
  /\ camera_matrix a = camera_matrix b
  /\ colors a = colors b
  /\ wrap a = wrap b
  /\ draw_pose6D a = draw_pose6D b.

(** A computation that does the same for two such detectors: the same
    outcome, the same store, and detectors that still differ in those
    attributes only. *)
Definition agrees {A} (m : D A) : Prop :=
  forall a b w,
    same_reads a b ->
    (m (a, w)).2 = (m (b, w)).2
    /\ (m (a, w)).1.2 = (m (b, w)).1.2
    /\ same_reads (m (a, w)).1.1 (m (b, w)).1.1.

(** A computation that finds every attribute it reads when it starts from
    a detector satisfying [Pre], and leaves one satisfying [Post]. *)
Definition finds_attributes {A}
    (Pre : DetectAndEstimateEfficientPose -> Prop) (m : D A)
    (Post : DetectAndEstimateEfficientPose -> Prop) : Prop :=
  forall self w,
    Pre self ->
    match m (self, w) with
    | (_, Failed (AttributeError _)) => False
    | ((self', _), _) => Post self'
    end.

End Detector.

End Detect.

(** ** A concrete detector

    Pictures are the lists of what has been drawn on them; the
    preprocessing, the colours and the drawing are the simplest there
    are. *)
Module DetectExample.

Inductive mark :=
| BoxMark (b : Box2D)
| PoseMark (object_size : Z) (box_color : nat) (pose6D : Pose6D).

Definition picture_shape (image : list mark) : list Z := [480; 640; 3].

Definition lincolor (n : nat) : list nat := seq 0 n.

Definition preprocess_call (model : Model) (image : list mark)
  : result (unit * unit * unit) := Ok (tt, tt, tt).

Definition draw_boxes2D_call (class_names : list string) (image : list mark)
    (boxes : list Box2D) : result (list mark) :=
  Ok (image ++ map BoxMark boxes).

Definition draw_pose6D_call (draw : @Detect.DrawPose6D Z unit nat)
    (image : list mark) (pose6D : Pose6D) : result (list mark) :=
  Ok (image ++ [PoseMark (Detect.object_size draw) (Detect.box_color draw) pose6D]).

Definition wrap_call (keys : list string) (image : list mark)
    (boxes2D : list ref) (poses6D : list Pose6D)
  : list mark * list ref * list Pose6D :=
  (image, boxes2D, poses6D).

Definition detections : ndarray :=
  Array [PazSpec.of_matrix [[0; 0; 0; 0; 0.1; 0.9];
                            [0; 0; 0; 0; 0.7; 0.3];
                            [0; 0; 0; 0; 0.2; 0.8]]%float].

(** The detector of the script, with one class and its size. *)
Definition detect (sizes : list (string * Z))
  : @Detect.DetectAndEstimateEfficientPose Z unit nat :=
  Detect.EFFICIENTPOSEALINEMODDRILLER lincolor Example.class_names
    Example.model tt sizes 0.5 0.45 true true.

Definition call (self : @Detect.DetectAndEstimateEfficientPose Z unit nat) :=
  Detect.call PazSpec.processors picture_shape preprocess_call
    draw_boxes2D_call wrap_call draw_pose6D_call
    [] detections Example.transformations (self, Example.empty_world).

End DetectExample.

(** A computation that leaves the store of boxes as it finds it. *)
Definition keeps_objects {A} (m : M A) : Prop :=
  forall w, objects (m w).1 = objects w.

(** The state [w] of a run begun in [w0] that has made the boxes [rs]:
    every box of [w0] is in [w] as it was, and the references of [rs] are
    distinct, new since [w0] and in [w]. *)
Definition fresh_boxes (w0 : world) (rs : list ref) (w : world) : Prop :=
  objects w0 ⊆ objects w
  /\ NoDup rs
  /\ Forall (fun r => objects w0 !! r = None /\ is_Some (objects w !! r)) rs.

(** * Properties *)

(** ** Numbers *)

Lemma magnitude_neg_div (m p : positive) :
  magnitude m (Zneg p) = Zpos m / 2 ^ Zpos p.
Proof. unfold magnitude. apply Z.shiftr_div_pow2. lia. Qed.

Lemma magnitude_nonneg_mul (m : positive) (e : Z) :
  0 <= e -> magnitude m e = Zpos m * 2 ^ e.
Proof.
  intros He. destruct e as [|p|p]; simpl; [lia| |lia].
  change (Z.pow_pos 2 p) with (2 ^ Zpos p).
  rewrite <- Z.shiftl_mul_pow2 by lia. reflexivity.
Qed.

(** [int] on a float is truncation toward zero of its value. *)
Lemma int_of_float_truncate (f : float) :
  int_of_float f = truncate (PyFloat f).
Proof.
  unfold int_of_float, truncate, fraction_of.
  destruct (Prim2SF f) as [s| s | |s m e] eqn:E; try reflexivity.
  destruct (0 <=? e) eqn:He; cbn.
  - apply Z.leb_le in He. rewrite Z.quot_1_r, magnitude_nonneg_mul by lia.
    destruct s; f_equal; lia.
  - apply Z.leb_gt in He. destruct e as [|p|p]; try lia.
    rewrite magnitude_neg_div.
    change (- Zneg p) with (Zpos p).
    assert (0 < 2 ^ Zpos p) by (apply Z.pow_pos_nonneg; lia).
    destruct s; f_equal.
    + change (Zneg m) with (- Zpos m).
      rewrite Z.quot_opp_l by lia. rewrite Z.quot_div_nonneg by lia.
      reflexivity.
    + rewrite Z.quot_div_nonneg by lia. reflexivity.
Qed.

Lemma int_truncate (x : pynum) : Py.int x = truncate x.
Proof. destruct x; [reflexivity | apply int_of_float_truncate]. Qed.

(** ** Box denormalisation *)

Lemma float_of_int_640 : float_of_int 640 = Ok 640%float.
Proof. vm_compute. reflexivity. Qed.

Lemma fixed_height_640 : fixed_height = PyFloat 640.
Proof. vm_compute. reflexivity. Qed.

(** C9: the result of [denormalize_box] does not depend on [image_shape]:
    any two image shapes give the same result, which is the conversion
    with the fixed width 640 and the fixed height 512 * 1.25; so
    [DenormalizeBoxes2D.call] does the same to the boxes whatever the
    image. *)
Theorem denormalize_box_ignores_image_shape
    (box : list pynum) (shape1 shape2 : list Z)
    (accepts : list pynum -> result unit)
    (image1 image2 : Image) (boxes2D : list ref) (σ : store) :
  denormalize_box box shape1 = denormalize_box box shape2
  /\ denormalize_box box shape1
     = to_pixels (PyFloat (PrimFloat.mul 512 1.25)) (PyInt 640) box
  /\ DenormalizeBoxes2D_call accepts image1 boxes2D σ
     = DenormalizeBoxes2D_call accepts image2 boxes2D σ.
Proof. repeat split; reflexivity. Qed.

(** C1, as the code has it: on a 640 by 640 image [denormalize_box]
    converts a box of floats by [x_pixel = trunc(x_norm * width)] and
    [y_pixel = trunc(y_norm * height)], truncating toward zero and without
    clamping; the exceptions agree as well. *)
Theorem denormalize_box_truncates (coords : list float) (image_shape : list Z) :
  image_shape = [640; 640] ->
  denormalize_box (map PyFloat coords) image_shape
  = truncate_to_pixels (map PyFloat coords) image_shape.
Proof.
  intros ->. unfold denormalize_box, truncate_to_pixels.
  destruct coords as [|a [|b [|c [|d rest]]]]; try reflexivity.
  cbn [map slice_to firstn].
  rewrite fixed_height_640. unfold fixed_width, Py.mul.
  rewrite float_of_int_640. cbn [mbind result_bind].
  rewrite <- !int_truncate. reflexivity.
Qed.

Lemma denormalize_box_truncates_witness :
  denormalize_box (map PyFloat [0.1; 0.1; 0.3; 0.3]%float) [640; 640]
  = Ok [PyInt 64; PyInt 64; PyInt 192; PyInt 192].
Proof.
  rewrite (denormalize_box_truncates [0.1; 0.1; 0.3; 0.3]%float [640; 640] eq_refl).
  vm_compute. reflexivity.
Defined.

(** C1 fails as stated: on a 640 by 480 image the scenario's box comes out
    as [64, 64, 192, 192], not [64, 48, 192, 144]; on a 640 by 640 image
    0.001 is cut to 0 where rounding gives 1, and 1.0 becomes 640 where
    clamping gives 639. *)
Lemma rescale_claim_counterexample :
  denormalize_box scenario_box [480; 640]
  = Ok [PyInt 64; PyInt 64; PyInt 192; PyInt 192]
  /\ Claimed.rescale scenario_box [480; 640]
     = Ok [PyInt 64; PyInt 48; PyInt 192; PyInt 144]
  /\ denormalize_box edge_box [640; 640]
     = Ok [PyInt 0; PyInt 0; PyInt 640; PyInt 640]
  /\ Claimed.rescale edge_box [640; 640]
     = Ok [PyInt 1; PyInt 1; PyInt 639; PyInt 639].
Proof. repeat split; vm_compute; reflexivity. Qed.

(** ** In-place updates of boxes *)

Section Store.

Variable accepts : list pynum -> result unit.
Variable f : list pynum -> result (list pynum).

(** An assignment that is accepted stores the coordinates and nothing
    else. *)
Lemma assign_coordinates_Ok (b b' : Box2D) (c : list pynum) :
  assign_coordinates accepts b c = Ok b' -> b' = set_coordinates b c.
Proof.
  unfold assign_coordinates. destruct (accepts c); cbn; congruence.
Qed.

(** Whatever the outcome, the loop keeps the objects of the store, their
    class names and their scores, and leaves alone what is not listed. *)
Lemma update_coordinates_frame (boxes2D : list ref) :
  forall (σ σ' : store) (r : result unit),
    update_coordinates accepts f boxes2D σ = (σ', r) ->
    dom σ' = dom σ
    /\ forall ref b, σ !! ref = Some b ->
         exists b', σ' !! ref = Some b'
                    /\ class_name b' = class_name b
                    /\ score b' = score b
                    /\ (ref ∉ boxes2D -> b' = b).
Proof.
  induction boxes2D as [|r0 rest IH]; intros σ σ' r Hrun; cbn in Hrun.
  - injection Hrun as <- <-. split; [done|]. intros ref b Hb. by exists b.
  - destruct (σ !! r0) as [b0|] eqn:Hr0.
    2:{ injection Hrun as <- <-. split; [done|]. intros ref b Hb. by exists b. }
    destruct (f (coordinates b0)) as [c|e] eqn:Hf; cbn in Hrun.
    2:{ injection Hrun as <- <-. split; [done|]. intros ref b Hb. by exists b. }
    destruct (assign_coordinates accepts b0 c) as [b1|e] eqn:Hset.
    2:{ injection Hrun as <- <-. split; [done|]. intros ref b Hb. by exists b. }
    apply assign_coordinates_Ok in Hset as ->.
    apply IH in Hrun as [Hdom Hframe]. split.
    + rewrite Hdom, dom_insert_L.
      assert (r0 ∈ dom σ) as Hin by (apply elem_of_dom; eauto).
      apply set_eq. intros x. rewrite elem_of_union, elem_of_singleton.
      split; [intros [->|]; done | by right].
    + intros ref b Hb. destruct (decide (ref = r0)) as [->|Hne].
      * rewrite Hr0 in Hb. injection Hb as <-.
        destruct (Hframe r0 (set_coordinates b0 c)) as (b' & Hb' & Hn & Hs & _).
        { by rewrite lookup_insert_eq. }
        exists b'. repeat split; try done.
        intros Hnot. exfalso. apply Hnot. apply list_elem_of_here.
      * destruct (Hframe ref b) as (b' & Hb' & Hn & Hs & Hsame).
        { by rewrite lookup_insert_ne. }
        exists b'. repeat split; try done.
        intros Hnot. apply Hsame. intros Hin. apply Hnot.
        by apply list_elem_of_further.
Qed.

(** On a list without repetition the loop is [assign_values] on the
    boxes the list denotes. *)
Lemma update_coordinates_values (boxes2D : list ref) :
  forall (σ σ' : store) (r : result unit) (bs : list Box2D),
    NoDup boxes2D ->
    deref σ boxes2D = map Some bs ->
    update_coordinates accepts f boxes2D σ = (σ', r) ->
    match assign_values accepts f bs with
    | Ok bs' => r = Ok tt /\ deref σ' boxes2D = map Some bs'
    | Raise e => r = Raise e
    end.
Proof.
  induction boxes2D as [|r0 rest IH]; intros σ σ' r bs Hnd Hbs Hrun.
  - destruct bs; [|discriminate]. cbn in *. by injection Hrun as <- <-.
  - destruct bs as [|b0 bs]; [discriminate|].
    cbn in Hbs. injection Hbs as Hr0 Hrest.
    apply NoDup_cons in Hnd as [Hnotin Hnd].
    cbn in Hrun. rewrite Hr0 in Hrun.
    unfold assign_values. cbn [mapM_result].
    destruct (f (coordinates b0)) as [c|e] eqn:Hf; cbn in Hrun |- *.
    2:{ by injection Hrun as <- <-. }
    destruct (assign_coordinates accepts b0 c) as [b1|e] eqn:Hset; cbn.
    2:{ by injection Hrun as <- <-. }
    apply assign_coordinates_Ok in Hset as ->.
    pose proof Hrun as Hframe. apply update_coordinates_frame in Hframe as [_ Hframe].
    assert (deref (<[r0:=set_coordinates b0 c]> σ) rest = map Some bs) as Hrest'.
    { rewrite <- Hrest. unfold deref. apply map_ext_in. intros x Hx.
      rewrite lookup_insert_ne; [done|]. intros ->.
      apply Hnotin. by apply list_elem_of_In. }
    pose proof (IH _ _ _ bs Hnd Hrest' Hrun) as IH'.
    fold (assign_values accepts f bs).
    destruct (assign_values accepts f bs) as [bs'|e]; cbn; [|done].
    destruct IH' as [-> Hd]. split; [done|].
    cbn. f_equal; [|done].
    destruct (Hframe r0 (set_coordinates b0 c)) as (b' & Hb' & _ & _ & Hsame).
    { by rewrite lookup_insert_eq. }
    rewrite Hb'. f_equal. by apply Hsame.
Qed.

(** When every assignment is accepted the boxes are [update_values] of
    what they were. *)
Lemma assign_values_Ok (bs : list Box2D) :
  forall bs', assign_values accepts f bs = Ok bs' -> update_values f bs = Ok bs'.
Proof.
  unfold assign_values, update_values.
  induction bs as [|b bs IH]; intros bs' H; cbn in H |- *; [done|].
  destruct (f (coordinates b)) as [c|e]; cbn in H |- *; [|done].
  destruct (assign_coordinates accepts b c) as [b1|e] eqn:Hset; cbn in H; [|done].
  apply assign_coordinates_Ok in Hset as ->.
  destruct (mapM_result _ bs) as [bs1|e]; cbn in H; [|done].
  injection H as <-. by rewrite (IH bs1 eq_refl).
Qed.

End Store.

(** C10: when [DenormalizeBoxes2D.call] returns, it hands back the list it
    was given, same length and order.  Whether it returns or raises, it
    keeps the objects of the store and the class name and score of each,
    and changes nothing of a box that is not listed.  When it returns on
    a list of distinct objects, the coordinates of the listed boxes have
    become their denormalisation.  This holds for every check the setter
    of [Box2D.coordinates] makes; an assignment it refuses makes the call
    raise. *)
Theorem DenormalizeBoxes2D_call_frame (accepts : list pynum -> result unit)
    (image : Image) (boxes2D : list ref) (σ : store) :
  exists (σ' : store) (r : result (list ref)),
    DenormalizeBoxes2D_call accepts image boxes2D σ = (σ', r)
    /\ (forall out, r = Ok out -> out = boxes2D)
    /\ dom σ' = dom σ
    /\ (forall ref b, σ !! ref = Some b ->
          exists b', σ' !! ref = Some b'
                     /\ class_name b' = class_name b
                     /\ score b' = score b
                     /\ (ref ∉ boxes2D -> b' = b))
    /\ (forall out bs,
          r = Ok out ->
          NoDup boxes2D ->
          deref σ boxes2D = map Some bs ->
          exists bs',
            denormalize_values image bs = Ok bs'
            /\ deref σ' boxes2D = map Some bs').
Proof.
  unfold DenormalizeBoxes2D_call.
  destruct (update_coordinates _ _ boxes2D σ) as [σ' r] eqn:Hrun.
  exists σ', (_ ← r; Ok boxes2D). split; [done|].
  pose proof (update_coordinates_frame _ _ _ _ _ _ Hrun) as [Hdom Hframe].
  split; [|split; [done|split; [done|]]].
  - intros out. destruct r; cbn; congruence.
  - intros out bs Hout Hnd Hbs.
    pose proof (update_coordinates_values _ _ _ _ _ _ bs Hnd Hbs Hrun) as Hv.
    destruct (assign_values accepts _ bs) as [bs'|e] eqn:Hvals.
    + destruct Hv as [_ Hd]. exists bs'. split; [|done].
      by apply assign_values_Ok in Hvals.
    + subst r. discriminate.
Qed.

Lemma DenormalizeBoxes2D_call_frame_witness :
  exists σ' : store,
    DenormalizeBoxes2D_call PazSpec.accepts_coordinates Example.image
      [2; 1]%positive Example.two_boxes
    = (σ', Ok [2; 1]%positive)
    /\ deref σ' [2; 1]%positive
       = [ Some (mkBox2D [PyInt 0; PyInt 0; PyInt 640; PyInt 640]
                         (PyFloat 0.8) "other");
           Some (mkBox2D [PyInt 64; PyInt 64; PyInt 192; PyInt 192]
                         (PyFloat 0.9) "driller") ].
Proof.
  destruct (DenormalizeBoxes2D_call_frame PazSpec.accepts_coordinates
              Example.image [2; 1]%positive Example.two_boxes)
    as (σ' & r & Hrun & _ & _ & _ & Hret).
  assert (r = Ok [2; 1]%positive) as ->.
  { apply (f_equal snd) in Hrun. vm_compute in Hrun. by subst r. }
  destruct (Hret [2; 1]%positive [Example.other_box; Example.driller_box])
    as (bs' & Hvals & Hd).
  - reflexivity.
  - apply NoDup_cons_2; [|apply NoDup_singleton].
    rewrite list_elem_of_singleton. discriminate.
  - vm_compute. reflexivity.
  - exists σ'. split; [exact Hrun|].
    vm_compute in Hvals. injection Hvals as <-. exact Hd.
Defined.

(** With the check that the class makes, a box whose pixels coincide is
    refused: [0.1] and [0.1005] both become [64], the assignment raises
    [ValueError], and the box keeps its coordinates. *)
Lemma degenerate_box_is_refused :
  let b := mkBox2D [PyFloat 0.1; PyFloat 0.1; PyFloat 0.1005; PyFloat 0.3]
                   (PyFloat 0.9) "driller" in
  let σ : store := <[1%positive := b]> ∅ in
  denormalize_box (coordinates b) [480; 640]
  = Ok [PyInt 64; PyInt 64; PyInt 64; PyInt 192]
  /\ DenormalizeBoxes2D_call PazSpec.accepts_coordinates
       (mkImage [480; 640; 3]) [1%positive] σ
     = (σ, Raise ValueError).
Proof. split; vm_compute; reflexivity. Qed.

(** ** Runs on a store and runs on values *)

Section Simulation.

Variable P : paz.

Lemma sim_bind {A A' B B'} (S : store -> Prop)
    (m : M A) (v : W A') (Mid : store -> A -> A' -> Prop)
    (k : A -> M B) (k' : A' -> W B') (Post : store -> B -> B' -> Prop) :
  sim S m v Mid ->
  (forall a a', sim (fun σ => Mid σ a a') (k a) (k' a') Post) ->
  sim S (m ≫= k) (v ≫= k') Post.
Proof.
  intros Hm Hk w HS. destruct (Hm w HS) as (w1 & r1 & Hrun & Hlog & Hres).
  unfold mbind, M_bind, W_bind. rewrite Hrun.
  destruct v as [l [a'|e]]; cbn in *.
  - destruct Hres as (a & -> & Hmid).
    destruct (Hk a a' w1 Hmid) as (w2 & r2 & Hrun2 & Hlog2 & Hres2).
    destruct (k' a') as [l' r'] eqn:Hk'. cbn in *.
    exists w2, r2. rewrite Hlog2, Hlog, app_assoc. done.
  - subst r1. exists w1, (Raise e). done.
Qed.

Lemma sim_weaken {A B} (S S' : store -> Prop) (m : M A) (v : W B)
    (Post Post' : store -> A -> B -> Prop) :
  sim S' m v Post' ->
  (forall σ, S σ -> S' σ) ->
  (forall σ a b, Post' σ a b -> Post σ a b) ->
  sim S m v Post.
Proof.
  intros Hm HS HP w Hw. destruct (Hm w (HS _ Hw)) as (w' & r & Hrun & Hlog & Hres).
  exists w', r. repeat split; try done.
  destruct (v.2) as [b|e]; [|done]. destruct Hres as (a0 & -> & HPost). eauto.
Qed.

(** A step that leaves the store alone keeps what holds of it. *)
Lemma sim_value {A} (S : store -> Prop) (r : result A) :
  sim S (lift r) (value r) (fun σ a b => a = b /\ S σ).
Proof.
  intros w HS. exists w, r. cbn. rewrite app_nil_r.
  repeat split. destruct r; eauto.
Qed.

Lemma sim_ret {A B} (S : store -> Prop) (a : A) (b : B) :
  sim S (mret a) (mret b) (fun σ a' b' => a' = a /\ b' = b /\ S σ).
Proof.
  intros w HS. exists w, (Ok a). cbn. rewrite app_nil_r. eauto 10.
Qed.

Lemma sim_called (S : store -> Prop) (p : processor) :
  sim S (called p) (told p) (fun σ _ _ => S σ).
Proof. intros w HS. eexists _, _. cbn. eauto 10. Qed.

Lemma sim_invoke (S : store -> Prop) (p : processor) (x : ndarray) :
  sim S (invoke P p x) (invoke_value P p x) (fun σ a b => a = b /\ S σ).
Proof.
  unfold invoke, invoke_value.
  eapply sim_bind; [apply sim_called|]. intros [] []. apply sim_value.
Qed.

Lemma sim_sequential (S : store -> Prop) (processors : list processor) :
  forall x, sim S (SequentialProcessor_call P processors x)
                  (sequential_value P processors x)
                  (fun σ a b => a = b /\ S σ).
Proof.
  induction processors as [|p rest IH]; intros x;
    cbn [SequentialProcessor_call sequential_value].
  - eapply sim_weaken; [apply sim_ret|done|]. intros σ a b (-> & -> & HS). done.
  - eapply sim_bind; [apply sim_invoke|]. intros a a'.
    intros w [<- HS]. by apply IH.
Qed.

(** New objects are distinct, new to the store, and hold the boxes they
    were made for; the objects of before are kept. *)
Lemma alloc_all_spec (bs : list Box2D) :
  forall w, exists w' rs,
    alloc_all bs w = (w', Ok rs)
    /\ log w' = log w
    /\ denotes rs bs (objects w')
    /\ Forall (fun r => objects w !! r = None) rs
    /\ (forall x b, objects w !! x = Some b -> objects w' !! x = Some b).
Proof.
  induction bs as [|b rest IH]; intros w; cbn [alloc_all].
  - exists w, []. repeat split; try done. apply NoDup_nil_2.
  - unfold mbind, M_bind, alloc at 1.
    set (r := fresh (dom (objects w))).
    assert (objects w !! r = None) as Hfresh.
    { apply not_elem_of_dom. apply is_fresh. }
    set (w1 := mkWorld (<[r:=b]> (objects w)) (log w)).
    destruct (IH w1) as (w' & rs & Hrun & Hlog & [Hnd Hd] & Hnew & Hold).
    fold (@mbind M _) in *.
    exists w', (r :: rs). unfold mbind, M_bind in *. rewrite Hrun. cbn.
    repeat split; try done.
    + apply NoDup_cons_2; [|done]. intros Hin.
      rewrite Forall_forall in Hnew. apply Hnew in Hin.
      cbn in Hin. by rewrite lookup_insert_eq in Hin.
    + cbn. f_equal; [|done]. apply Hold. cbn. by rewrite lookup_insert_eq.
    + apply Forall_cons. split; [done|].
      rewrite Forall_forall in *. intros x Hx. specialize (Hnew x Hx). cbn in Hnew.
      destruct (decide (x = r)) as [->|Hne]; [done|].
      by rewrite lookup_insert_ne in Hnew.
    + intros x b0 Hx. apply Hold. cbn.
      rewrite lookup_insert_ne; [done|]. intros <-. congruence.
Qed.

Lemma sim_to_boxes2D (S : store -> Prop) (p : processor) (box_data : ndarray) :
  sim S (invoke_to_boxes2D P p box_data) (to_boxes2D_value P p box_data)
      (fun σ rs bs => denotes rs bs σ).
Proof.
  unfold invoke_to_boxes2D, to_boxes2D_value.
  eapply sim_bind; [apply sim_called|]. intros [] [].
  destruct p; try (eapply sim_weaken; [apply sim_value|done|by intros ? ? ? [_ ?]]).
  all: try (intros w HS; exists w, (Raise TypeError); cbn; by rewrite app_nil_r).
  intros w HS. unfold mbind at 1, M_bind, lift, value. cbn.
  destruct (boxes2D_of P class_names box_data) as [bs|e]; cbn.
  - destruct (alloc_all_spec bs w) as (w' & rs & Hrun & Hlog & Hden & _).
    exists w', (Ok rs). rewrite Hrun, Hlog, app_nil_r. eauto.
  - exists w, (Raise e). by rewrite app_nil_r.
Qed.

(** An in-place loop over distinct boxes is the loop on their values. *)
Lemma sim_in_place (f : list pynum -> result (list pynum))
    (boxes2D : list ref) (bs : list Box2D) :
  sim (denotes boxes2D bs) (in_place P f boxes2D)
      (value (assign_values (accepts_coordinates P) f bs))
      (fun σ rs bs' => rs = boxes2D /\ denotes boxes2D bs' σ).
Proof.
  intros w [Hnd Hd]. unfold in_place, mbind, M_bind, on_store.
  destruct (update_coordinates _ f boxes2D (objects w)) as [σ' r] eqn:Hrun.
  pose proof (update_coordinates_values _ f _ _ _ _ bs Hnd Hd Hrun) as Hv.
  cbn. rewrite app_nil_r.
  destruct (assign_values _ f bs) as [bs'|e].
  - destruct Hv as [-> Hd']. eexists _, _. cbn. repeat split. eexists. repeat split; done.
  - subst r. eexists _, _. done.
Qed.

Lemma sim_use {A B} (Φ : Prop) (S : store -> Prop) (m : M A) (v : W B)
    (Post : store -> A -> B -> Prop) :
  (forall σ, S σ -> Φ) -> (Φ -> sim S m v Post) -> sim S m v Post.
Proof. intros HΦ H w HS. apply H; eauto. Qed.

Lemma sim_raise {A B} (S : store -> Prop) (e : exn)
    (Post : store -> A -> B -> Prop) :
  sim S (lift (Raise e)) (value (Raise e)) Post.
Proof. intros w HS. exists w, (Raise e). cbn. by rewrite app_nil_r. Qed.

Lemma on_store_denormalize (image : Image) (boxes2D : list ref) (w : world) :
  on_store (DenormalizeBoxes2D_call (accepts_coordinates P) image boxes2D) w
  = in_place P (fun c => denormalize_box c (slice_to 2 (shape image)))
             boxes2D w.
Proof.
  unfold on_store, DenormalizeBoxes2D_call, in_place, mbind, M_bind, on_store.
  destruct (update_coordinates _ _ boxes2D (objects w)) as [σ' [[]|e]];
    reflexivity.
Qed.

Lemma sim_denormalize (p : processor) (image : Image)
    (boxes2D : list ref) (bs : list Box2D) :
  sim (denotes boxes2D bs)
      (invoke_denormalize P p image boxes2D) (denormalize_value P p image bs)
      (fun σ rs bs' => rs = boxes2D /\ denotes boxes2D bs' σ).
Proof.
  unfold invoke_denormalize, denormalize_value.
  eapply sim_bind; [apply sim_called|]. intros [] [].
  destruct p; try apply sim_raise.
  intros w Hw. rewrite on_store_denormalize. by apply sim_in_place.
Qed.

Lemma sim_scale_boxes2D (p : processor) (scale : float)
    (boxes2D : list ref) (bs : list Box2D) :
  sim (denotes boxes2D bs)
      (invoke_scale_boxes2D P p boxes2D scale) (scale_boxes2D_value P p bs scale)
      (fun σ rs bs' => rs = boxes2D /\ denotes boxes2D bs' σ).
Proof.
  unfold invoke_scale_boxes2D, scale_boxes2D_value.
  eapply sim_bind; [apply sim_called|]. intros [] [].
  destruct p; try apply sim_raise. apply sim_in_place.
Qed.

Lemma sim_round_boxes (p : processor) (boxes2D : list ref) (bs : list Box2D) :
  sim (denotes boxes2D bs)
      (invoke_round_boxes P p boxes2D) (round_boxes_value P p bs)
      (fun σ rs bs' => rs = boxes2D /\ denotes boxes2D bs' σ).
Proof.
  unfold invoke_round_boxes, round_boxes_value.
  eapply sim_bind; [apply sim_called|]. intros [] [].
  destruct p; try apply sim_raise. apply sim_in_place.
Qed.

Lemma sim_compute_selections (S : store -> Prop) (p : processor)
    (box_data_all box_data : ndarray) :
  sim S (invoke_compute_selections P p box_data_all box_data)
        (compute_selections_value P p box_data_all box_data)
        (fun σ a b => a = b /\ S σ).
Proof.
  unfold invoke_compute_selections, compute_selections_value.
  eapply sim_bind; [apply sim_called|]. intros [] [].
  destruct p; try apply sim_raise. apply sim_value.
Qed.

Lemma sim_to_pose_6D (S : store -> Prop) (p : processor)
    (box_data rotations translations : ndarray) :
  sim S (invoke_to_pose_6D P p box_data rotations translations)
        (to_pose_6D_value P p box_data rotations translations)
        (fun σ a b => a = b /\ S σ).
Proof.
  unfold invoke_to_pose_6D, to_pose_6D_value.
  eapply sim_bind; [apply sim_called|]. intros [] [].
  destruct p; try apply sim_raise. apply sim_value.
Qed.

(** One step of a run: the step's own lemma, then the facts it gives. *)
Ltac sim_step L :=
  eapply sim_bind;
  [ eapply sim_weaken;
    [ apply L
    | first [ exact (fun σ H => H)
            | let H := fresh in intros ? H; cbn in H; intuition (subst; eauto) ]
    | let H := fresh in intros ? ? ? H; exact H ]
  | ].

Ltac sim_same :=
  let a := fresh "a" in let a' := fresh "a'" in
  intros a a';
  apply (sim_use (a = a'));
  [ let H := fresh in intros ? H; cbn in H; intuition | intros <- ].

Lemma sim_select_poses (S : store -> Prop) (self : EfficientPosePostprocess)
    (box_data_all box_data rotations translations : ndarray) :
  sim S (select_poses P self box_data_all box_data rotations translations)
        (select_poses_value P self box_data_all box_data rotations translations)
        (fun σ a b => a = b /\ S σ).
Proof.
  unfold select_poses, select_poses_value.
  sim_step sim_compute_selections. sim_same.
  sim_step sim_invoke. sim_same.
  sim_step (@sim_value ndarray). sim_same.
  sim_step sim_invoke. sim_same.
  sim_step sim_invoke. sim_same.
  sim_step (@sim_value ndarray). sim_same.
  eapply sim_weaken; [apply sim_ret|exact (fun σ H => H)|].
  intros σ x y (-> & -> & H). cbn in H. intuition.
Qed.

Lemma denotes_length (rs : list ref) (bs : list Box2D) (σ : store) :
  denotes rs bs σ -> length rs = length bs.
Proof.
  intros [_ H]. apply (f_equal length) in H.
  unfold deref in H. by rewrite !length_map in H.
Qed.

(** [call] on any store calls the processors [call_value] lists, raises
    what it raises, and returns its poses and references to its boxes. *)
Lemma sim_call {Camera : Type} (self : EfficientPosePostprocess)
    (image : Image) (model_output : ndarray * ndarray)
    (image_scale : float) (camera_parameter : Camera) :
  sim (fun _ => True)
      (call P self image model_output image_scale camera_parameter)
      (call_value P self image model_output image_scale)
      (fun σ a b => a.2 = b.2 /\ denotes a.1 b.1 σ).
Proof.
  unfold call, call_value. destruct model_output as [detections transformations].
  sim_step sim_sequential. sim_same.
  sim_step sim_sequential. sim_same.
  sim_step sim_to_boxes2D. intros rs bs.
  sim_step sim_denormalize. intros rs1 bs1.
  apply (sim_use (rs1 = rs)); [intros σ H; apply H|intros ->].
  sim_step (@sim_value float). sim_same.
  sim_step sim_scale_boxes2D. intros rs2 bs2.
  apply (sim_use (rs2 = rs)); [intros σ H; apply H|intros ->].
  sim_step sim_round_boxes. intros rs3 bs3.
  apply (sim_use (rs3 = rs)); [intros σ H; apply H|intros ->].
  sim_step (@sim_value ndarray). sim_same.
  sim_step (@sim_value ndarray). sim_same.
  apply (sim_use (length rs = length bs3)).
  { intros σ H. cbn in H. eapply denotes_length. intuition eauto. }
  intros ->.
  eapply sim_bind.
  { destruct (0 <? length bs3)%nat.
    - apply sim_select_poses.
    - eapply sim_weaken; [apply sim_ret|exact (fun σ H => H)|].
      intros σ x y (-> & -> & H). split; [reflexivity|exact H]. }
  intros pair pair'.
  apply (sim_use (pair = pair')); [intros σ H; apply H|intros <-].
  destruct pair as [rotations translations].
  sim_step sim_to_pose_6D. sim_same.
  eapply sim_weaken; [apply sim_ret|exact (fun σ H => H)|].
  intros σ x y (-> & -> & H). cbn in *. intuition.
Qed.
End Simulation.

(** ** The processors a run calls *)

Section Traces.

Variable P : paz.

Lemma W_bind_Ok {A B} (m : W A) (k : A -> W B) (b : B) :
  (m ≫= k).2 = Ok b ->
  exists a, m.2 = Ok a /\ (k a).2 = Ok b /\ (m ≫= k).1 = m.1 ++ (k a).1.
Proof.
  unfold mbind, W_bind. destruct m as [l [a|e]]; cbn; [|discriminate].
  destruct (k a) as [l' r] eqn:Hk. cbn. intros ->. exists a. by rewrite Hk.
Qed.

Lemma traces_value {A} (r : result A) : traces (value r) [].
Proof. split; [done|]. by intros. Qed.

Lemma traces_ret {A} (a : A) : traces (mret a : W A) [].
Proof. split; [done|]. by intros. Qed.

Lemma traces_bind {A B} (m : W A) (k : A -> W B) (l1 l2 : list processor) :
  traces m l1 -> (forall a, traces (k a) l2) -> traces (m ≫= k) (l1 ++ l2).
Proof.
  intros [Hp Hok] Hk. unfold mbind, W_bind.
  destruct m as [l [a|e]]; cbn in *.
  - rewrite (Hok a eq_refl). destruct (Hk a) as [Hp2 Hok2].
    destruct (k a) as [l' r]. cbn in *. split.
    + by apply prefix_app.
    + intros b Hb. cbn in Hb. subst r. by rewrite (Hok2 b).
  - split; [|discriminate]. by apply prefix_app_r.
Qed.

Lemma within_traces {A} (v : W A) (l : list processor) (L : bool -> list processor)
    (b : bool) :
  traces v l -> L b = l -> within v L.
Proof. intros [Hp _] <-. by exists b. Qed.

Lemma within_bind {A B} (m : W A) (k : A -> W B) (l1 : list processor)
    (L : bool -> list processor) :
  traces m l1 -> (forall a, within (k a) L) ->
  within (m ≫= k) (fun b => l1 ++ L b).
Proof.
  intros [Hp Hok] Hk. unfold mbind, W_bind.
  destruct m as [l [a|e]]; cbn in *.
  - rewrite (Hok a eq_refl). destruct (Hk a) as [b Hb].
    destruct (k a) as [l' r]. cbn in *. exists b. by apply prefix_app.
  - exists true. by apply prefix_app_r.
Qed.

Lemma traces_told_then {A} (p : processor) (r : result A) :
  traces (_ ← told p; value r) [p].
Proof. apply (traces_bind (told p) _ [p] []); [done|]. intros; apply traces_value. Qed.

Lemma traces_invoke (p : processor) (x : ndarray) :
  traces (invoke_value P p x) [p].
Proof. apply traces_told_then. Qed.

Lemma traces_sequential (processors : list processor) :
  forall x, traces (sequential_value P processors x) processors.
Proof.
  induction processors as [|p rest IH]; intros x; cbn [sequential_value].
  - apply traces_ret.
  - apply (traces_bind _ _ [p] rest); [apply traces_invoke|done].
Qed.

Lemma traces_to_boxes2D (p : processor) (x : ndarray) :
  traces (to_boxes2D_value P p x) [p].
Proof. unfold to_boxes2D_value. destruct p; apply traces_told_then. Qed.

Lemma traces_denormalize (p : processor) (image : Image) (bs : list Box2D) :
  traces (denormalize_value P p image bs) [p].
Proof. unfold denormalize_value. destruct p; apply traces_told_then. Qed.

Lemma traces_scale_boxes2D (p : processor) (bs : list Box2D) (s : float) :
  traces (scale_boxes2D_value P p bs s) [p].
Proof. unfold scale_boxes2D_value. destruct p; apply traces_told_then. Qed.

Lemma traces_round_boxes (p : processor) (bs : list Box2D) :
  traces (round_boxes_value P p bs) [p].
Proof. unfold round_boxes_value. destruct p; apply traces_told_then. Qed.

Lemma traces_compute_selections (p : processor) (x y : ndarray) :
  traces (compute_selections_value P p x y) [p].
Proof. unfold compute_selections_value. destruct p; apply traces_told_then. Qed.

Lemma traces_to_pose_6D (p : processor) (x y z : ndarray) :
  traces (to_pose_6D_value P p x y z) [p].
Proof. unfold to_pose_6D_value. destruct p; apply traces_told_then. Qed.

Lemma traces_select_poses (self : EfficientPosePostprocess)
    (box_data_all box_data rotations translations : ndarray) :
  traces (select_poses_value P self box_data_all box_data rotations translations)
         [compute_selections self; squeeze self; transform_rotations self;
          squeeze self].
Proof.
  unfold select_poses_value.
  apply (traces_bind _ _ [_] [_; _; _]); [apply traces_compute_selections|intros].
  apply (traces_bind _ _ [_] [_; _]); [apply traces_invoke|intros].
  apply (traces_bind _ _ [] [_; _]); [apply traces_value|intros].
  apply (traces_bind _ _ [_] [_]); [apply traces_invoke|intros].
  apply (traces_bind _ _ [_] []); [apply traces_invoke|intros].
  apply (traces_bind _ _ [] []); [apply traces_value|intros].
  apply traces_ret.
Qed.

Lemma traces_Ok {A} (v : W A) (l : list processor) (a : A) :
  traces v l -> v.2 = Ok a -> v.1 = l.
Proof. intros [_ H]. apply H. Qed.

(** Whatever happens, the processors called are the first of
    [stage_order]. *)
Lemma call_value_within (self : EfficientPosePostprocess) (image : Image)
    (model_output : ndarray * ndarray) (image_scale : float) :
  within (call_value P self image model_output image_scale) (stage_order self).
Proof.
  unfold call_value, stage_order. destruct model_output as [d t].
  apply within_bind; [apply traces_sequential|intros box_data_all].
  apply within_bind; [apply traces_sequential|intros box_data].
  apply (within_bind _ _ [_]); [apply traces_to_boxes2D|intros bs0].
  apply (within_bind _ _ [_]); [apply traces_denormalize|intros bs1].
  apply (within_bind _ _ []); [apply traces_value|intros scale].
  apply (within_bind _ _ [_]); [apply traces_scale_boxes2D|intros bs2].
  apply (within_bind _ _ [_]); [apply traces_round_boxes|intros bs].
  apply (within_bind _ _ []); [apply traces_value|intros rot3].
  apply (within_bind _ _ []); [apply traces_value|intros trans3].
  assert (forall pair : ndarray * ndarray,
            traces (let '(rotations, translations) := pair in
                    poses6D ← to_pose_6D_value P (to_pose_6D self) box_data
                                rotations translations;
                    mret (bs, poses6D)) [to_pose_6D self]) as Hrest.
  { intros [rot trans].
    apply (traces_bind _ _ [_] []); [apply traces_to_pose_6D|intros; apply traces_ret]. }
  destruct (0 <? length bs)%nat.
  - eapply (within_traces _ _ _ true); [|reflexivity].
    apply (traces_bind _ _ [_; _; _; _] [_]); [apply traces_select_poses|apply Hrest].
  - eapply (within_traces _ _ _ false); [|reflexivity].
    apply (traces_bind _ _ [] [_]); [apply traces_ret|apply Hrest].
Qed.

Ltac W_inv H a Ha Hl :=
  apply W_bind_Ok in H as (a & Ha & H & Hl).

(** A run that returns went through every step, and called the processors
    of [stage_order]. *)
Lemma call_value_Ok (self : EfficientPosePostprocess) (image : Image)
    (d t : ndarray) (s : float) (bs : list Box2D) (poses : list Pose6D) :
  (call_value P self image (d, t) s).2 = Ok (bs, poses) ->
  exists box_data_all box_data bs0 bs1 scale bs2 rot3 trans3 rot trans,
    (sequential_value P (postprocess_1 self) d).2 = Ok box_data_all
    /\ (sequential_value P (postprocess_2 self) box_data_all).2 = Ok box_data
    /\ (to_boxes2D_value P (to_boxes2D self) box_data).2 = Ok bs0
    /\ (denormalize_value P (denormalize self) image bs0).2 = Ok bs1
    /\ reciprocal s = Ok scale
    /\ (scale_boxes2D_value P (scale_boxes2D self) bs1 scale).2 = Ok bs2
    /\ (round_boxes_value P (round_boxes self) bs2).2 = Ok bs
    /\ slice_axis2 (cut_to (num_pose_dims self)) t = Ok rot3
    /\ slice_axis2 (cut_from (num_pose_dims self)) t = Ok trans3
    /\ (if (0 <? length bs)%nat
        then (select_poses_value P self box_data_all box_data rot3 trans3).2
             = Ok (rot, trans)
        else (rot, trans) = (rot3, trans3))
    /\ (to_pose_6D_value P (to_pose_6D self) box_data rot trans).2 = Ok poses
    /\ (call_value P self image (d, t) s).1
       = stage_order self (0 <? length bs)%nat.
Proof.
  intros H. unfold call_value in *.
  W_inv H box_data_all H1 L1. W_inv H box_data H2 L2.
  W_inv H bs0 H3 L3. W_inv H bs1 H4 L4. W_inv H scale H5 L5.
  W_inv H bs2 H6 L6. W_inv H bs' H7 L7. W_inv H rot3 H8 L8.
  W_inv H trans3 H9 L9. W_inv H rt H10 L10. destruct rt as [rot trans].
  W_inv H poses' H11 L11. cbn in H. injection H as -> ->.
  exists box_data_all, box_data, bs0, bs1, scale, bs2, rot3, trans3, rot, trans.
  rewrite L1, L2, L3, L4, L5, L6, L7, L8, L9, L10, L11.
  clear L1 L2 L3 L4 L5 L6 L7 L8 L9 L10 L11.
  remember (0 <? length bs)%nat as some_boxes eqn:Hsome in *.
  repeat (split; [done|]).
  split.
  { destruct some_boxes; [done|]. cbn in H10. by injection H10 as -> ->. }
  split; [done|].
  rewrite (traces_Ok _ _ _ (traces_sequential _ _) H1).
  rewrite (traces_Ok _ _ _ (traces_sequential _ _) H2).
  rewrite (traces_Ok _ _ _ (traces_to_boxes2D _ _) H3).
  rewrite (traces_Ok _ _ _ (traces_denormalize _ _ _) H4).
  rewrite (traces_Ok _ _ _ (traces_scale_boxes2D _ _ _) H6).
  rewrite (traces_Ok _ _ _ (traces_round_boxes _ _) H7).
  rewrite (traces_Ok _ _ _ (traces_to_pose_6D _ _ _ _) H11).
  unfold stage_order. cbn [value fst].
  destruct some_boxes.
  - rewrite (traces_Ok _ _ _ (traces_select_poses _ _ _ _ _) H10). reflexivity.
  - reflexivity.
Qed.

End Traces.


(** ** The pipeline *)

Lemma stage_order_init (model : Model) (class_names : list string)
    (score_thresh nms_thresh : float) (variances : list float)
    (class_arg : option Z) (num_pose_dims : Z) (some_boxes : bool) :
  stage_order (init model class_names score_thresh nms_thresh variances
                    class_arg num_pose_dims) some_boxes
  = init_order model class_names score_thresh nms_thresh variances class_arg
               some_boxes.
Proof. reflexivity. Qed.

(** What [call] does from any state, in terms of [call_value]. *)
Lemma call_runs {Camera : Type} (P : paz) (self : EfficientPosePostprocess)
    (image : Image) (model_output : ndarray * ndarray) (image_scale : float)
    (camera_parameter : Camera) (w : world) :
  exists w' r,
    call P self image model_output image_scale camera_parameter w = (w', r)
    /\ log w' = log w ++ (call_value P self image model_output image_scale).1
    /\ match (call_value P self image model_output image_scale).2 with
       | Ok (bs, poses) =>
           exists boxes2D, r = Ok (boxes2D, poses)
                           /\ denotes boxes2D bs (objects w')
       | Raise e => r = Raise e
       end.
Proof.
  destruct (sim_call P self image model_output image_scale camera_parameter w I)
    as (w' & r & Hrun & Hlog & Hres).
  exists w', r. repeat split; try done.
  destruct (call_value P self image model_output image_scale).2 as [[bs poses]|e];
    [|done].
  destruct Hres as ([boxes2D poses'] & -> & Hposes & Hden). cbn in *. subst.
  eauto.
Qed.

(** C8: a call is a function of its inputs and of the configuration
    [self] was built with: from whatever state two invocations start, also
    the state an earlier call left, they return the same poses and boxes
    with the same contents, or raise the same exception.  [call] assigns no
    attribute of [self]. *)
Theorem call_deterministic {Camera : Type} (P : paz)
    (self : EfficientPosePostprocess) (image : Image)
    (model_output : ndarray * ndarray) (image_scale : float)
    (camera_parameter : Camera) (w1 w2 : world) :
  observe (call P self image model_output image_scale camera_parameter w1)
  = observe (call P self image model_output image_scale camera_parameter w2).
Proof.
  destruct (call_runs P self image model_output image_scale camera_parameter w1)
    as (w1' & r1 & -> & _ & H1).
  destruct (call_runs P self image model_output image_scale camera_parameter w2)
    as (w2' & r2 & -> & _ & H2).
  destruct (call_value P self image model_output image_scale).2 as [[bs poses]|e].
  - destruct H1 as (rs1 & -> & _ & Hd1). destruct H2 as (rs2 & -> & _ & Hd2).
    cbn. by rewrite Hd1, Hd2.
  - by subst.
Qed.

Lemma told_then_value {A} (p : processor) (r : result A) :
  (_ ← told p; value r).2 = r.
Proof. unfold mbind, W_bind, told, value. by destruct r. Qed.

Lemma sequential_value_three (P : paz) (p1 p2 p3 : processor) (x y : ndarray) :
  (sequential_value P [p1; p2; p3] x).2 = Ok y ->
  exists a b,
    call_array P p1 x = Ok a
    /\ call_array P p2 a = Ok b
    /\ call_array P p3 b = Ok y.
Proof.
  cbn [sequential_value]. unfold invoke_value. intros H.
  apply W_bind_Ok in H as (a & Ha & H & _). rewrite told_then_value in Ha.
  apply W_bind_Ok in H as (b & Hb & H & _). rewrite told_then_value in Hb.
  apply W_bind_Ok in H as (c & Hc & H & _). rewrite told_then_value in Hc.
  cbn in H. injection H as <-. by exists a, b.
Qed.

(** What a returning call has computed, stage by stage: each array is the
    output of one processor on the output of the one before. *)
Lemma call_data_flow {Camera : Type} (P : paz)
    (model : Model) (class_names : list string)
    (score_thresh nms_thresh : float) (variances : list float)
    (class_arg : option Z) (num_pose_dims : Z)
    (image : Image) (detections transformations : ndarray)
    (image_scale : float) (camera_parameter : Camera) (w w' : world)
    (boxes2D : list ref) (poses6D : list Pose6D) :
  let self := init model class_names score_thresh nms_thresh variances
                   class_arg num_pose_dims in
  call P self image (detections, transformations) image_scale
       camera_parameter w
  = (w', Ok (boxes2D, poses6D)) ->
  exists squeezed decoded box_data_all suppressed merged box_data
         bs0 bs1 scale bs2 bs3 rotations translations rot trans,
    (np_squeeze P None detections = Ok squeezed
     /\ decode P (prior_boxes model) variances squeezed = Ok decoded
     /\ remove_class P class_names class_arg decoded = Ok box_data_all)
    /\ (nms_per_class P nms_thresh box_data_all = Ok suppressed
        /\ merge_nms_box_with_class P suppressed = Ok merged
        /\ filter_boxes P class_names score_thresh merged = Ok box_data)
    /\ (boxes2D_of P class_names box_data = Ok bs0
        /\ denormalize_values image bs0 = Ok bs1
        /\ reciprocal image_scale = Ok scale
        /\ update_values (scale_coordinates P scale) bs1 = Ok bs2
        /\ update_values (round_coordinates P) bs2 = Ok bs3
        /\ deref (objects w') boxes2D = map Some bs3)
    /\ slice_axis2 (cut_to num_pose_dims) transformations = Ok rotations
    /\ slice_axis2 (cut_from num_pose_dims) transformations = Ok translations
    /\ (if (0 <? length boxes2D)%nat
        then (select_poses_value P self box_data_all box_data
                rotations translations).2 = Ok (rot, trans)
        else (rot, trans) = (rotations, translations))
    /\ ToPose6D_call P class_names box_data rot trans = Ok poses6D.
Proof.
  intros self Hcall.
  destruct (call_runs P self image (detections, transformations) image_scale
              camera_parameter w) as (w1 & r & Hrun & _ & Hres).
  rewrite Hcall in Hrun. injection Hrun as <- <-.
  destruct (call_value P self image (detections, transformations) image_scale).2
    as [[bs poses]|e] eqn:Hv; [|discriminate].
  destruct Hres as (rs & [= <- <-] & Hden).
  apply call_value_Ok in Hv
    as (bda & bd & bs0 & bs1 & scale & bs2 & rot3 & trans3 & rot & trans
        & H1 & H2 & H3 & H4 & H5 & H6 & H7 & Hrot3 & Htrans3 & Hsel & Hpose & _).
  rewrite <- (denotes_length _ _ _ Hden) in Hsel.
  destruct Hden as [_ Hden].
  cbn [self init postprocess_1 postprocess_2 to_boxes2D denormalize
       scale_boxes2D round_boxes to_pose_6D] in *.
  apply sequential_value_three in H1 as (squeezed & decoded & Ha & Hb & Hc).
  apply sequential_value_three in H2 as (suppressed & merged & Hn & Hm & Hf).
  cbn [call_array] in Ha, Hb, Hc, Hn, Hm, Hf.
  unfold to_boxes2D_value, denormalize_value, scale_boxes2D_value,
    round_boxes_value, to_pose_6D_value in *.
  rewrite told_then_value in H3. rewrite told_then_value in H4.
  rewrite told_then_value in H6. rewrite told_then_value in H7.
  rewrite told_then_value in Hpose.
  apply assign_values_Ok in H4. apply assign_values_Ok in H6.
  apply assign_values_Ok in H7.
  exists squeezed, decoded, bda, suppressed, merged, bd,
    bs0, bs1, scale, bs2, bs, rot3, trans3, rot, trans.
  repeat split; done.
Qed.

(** C2, as the code has it: the stages run in the fixed order squeeze,
    decode, remove class, non-maximum suppression, merge, score filter,
    to boxes, denormalise, scale, round, and each works on the output of
    the one before.  The score filter runs after the suppression, on its
    merged output, and the boxes are made of what the filter leaves.  A
    run that raises stops at some place of this order. *)
Theorem pipeline_stage_order {Camera : Type} (P : paz)
    (model : Model) (class_names : list string)
    (score_thresh nms_thresh : float) (variances : list float)
    (class_arg : option Z) (num_pose_dims : Z)
    (image : Image) (detections transformations : ndarray)
    (image_scale : float) (camera_parameter : Camera) (w : world) :
  exists w' r l,
    call P (init model class_names score_thresh nms_thresh variances class_arg
                 num_pose_dims)
         image (detections, transformations) image_scale camera_parameter w
    = (w', r)
    /\ log w' = log w ++ l
    /\ (exists b, l `prefix_of` init_order model class_names score_thresh
                                 nms_thresh variances class_arg b)
    /\ (forall boxes2D poses6D, r = Ok (boxes2D, poses6D) ->
          l = init_order model class_names score_thresh nms_thresh variances
                         class_arg (0 <? length boxes2D)%nat
          /\ exists squeezed decoded box_data_all suppressed merged box_data
                    bs0 bs1 scale bs2 bs3,
               np_squeeze P None detections = Ok squeezed
               /\ decode P (prior_boxes model) variances squeezed = Ok decoded
               /\ remove_class P class_names class_arg decoded = Ok box_data_all
               /\ nms_per_class P nms_thresh box_data_all = Ok suppressed
               /\ merge_nms_box_with_class P suppressed = Ok merged
               /\ filter_boxes P class_names score_thresh merged = Ok box_data
               /\ boxes2D_of P class_names box_data = Ok bs0
               /\ denormalize_values image bs0 = Ok bs1
               /\ reciprocal image_scale = Ok scale
               /\ update_values (scale_coordinates P scale) bs1 = Ok bs2
               /\ update_values (round_coordinates P) bs2 = Ok bs3
               /\ deref (objects w') boxes2D = map Some bs3).
Proof.
  set (self := init model class_names score_thresh nms_thresh variances
                    class_arg num_pose_dims).
  destruct (call_runs P self image (detections, transformations) image_scale
              camera_parameter w) as (w' & r & Hrun & Hlog & Hres).
  exists w', r,
    (call_value P self image (detections, transformations) image_scale).1.
  repeat split; try done.
  - destruct (call_value_within P self image (detections, transformations)
                image_scale) as [b Hb].
    exists b. by rewrite <- stage_order_init with (num_pose_dims := num_pose_dims).
  - subst r.
    destruct (call_value P self image (detections, transformations)
                image_scale).2 as [[bs poses]|e] eqn:Hv; [|discriminate].
    destruct Hres as (rs & [= <- <-] & Hden).
    apply call_value_Ok in Hv as (? & ? & ? & ? & ? & ? & ? & ? & ? & ? & Hv).
    rewrite (denotes_length _ _ _ Hden).
    rewrite <- stage_order_init with (num_pose_dims := num_pose_dims).
    apply Hv.
  - subst r.
    destruct (call_data_flow P model class_names score_thresh nms_thresh
                variances class_arg num_pose_dims image detections
                transformations image_scale camera_parameter w w'
                boxes2D poses6D Hrun)
      as (squeezed & decoded & box_data_all & suppressed & merged & box_data
          & bs0 & bs1 & scale & bs2 & bs3 & _ & _ & _ & _
          & (? & ? & ?) & (? & ? & ?) & (? & ? & ? & ? & ? & ?) & _).
    exists squeezed, decoded, box_data_all, suppressed, merged, box_data,
      bs0, bs1, scale, bs2, bs3.
    repeat split; done.
Qed.

(** C2 fails as stated: in a run of the scenario non-maximum suppression
    is the fourth processor called and the score filter the sixth, and the
    array handed to the suppression still holds the detection of score 0.3,
    under the threshold 0.5. *)
Lemma score_filter_first_counterexample :
  position is_nms (log (Example.run 1).1) = Some 3%nat
  /\ position is_score_filter (log (Example.run 1).1) = Some 5%nat
  /\ Example.decoded
     = Ok (PazSpec.of_matrix
             [[0.10100000000000001; 0.10100000000000001;
               0.30100000000000005; 0.30100000000000005; 0.9];
              [0.5; 0.5; 0.7; 0.7; 0.3];
              [0.11099999999999999; 0.10100000000000001;
               0.311; 0.30100000000000005; 0.8]]%float).
Proof. repeat split; vm_compute; reflexivity. Qed.

(** C6, as the code has it: the boxes are first converted to pixels by
    [denormalize_box], then multiplied by the correction factor
    [1 / image_scale], then rounded; the returned references denote the
    result. *)
Theorem scale_correction_follows_denormalization {Camera : Type} (P : paz)
    (model : Model) (class_names : list string)
    (score_thresh nms_thresh : float) (variances : list float)
    (class_arg : option Z) (num_pose_dims : Z)
    (image : Image) (model_output : ndarray * ndarray) (image_scale : float)
    (camera_parameter : Camera) (w w' : world)
    (boxes2D : list ref) (poses6D : list Pose6D) :
  call P (init model class_names score_thresh nms_thresh variances class_arg
               num_pose_dims)
       image model_output image_scale camera_parameter w
  = (w', Ok (boxes2D, poses6D)) ->
  exists box_data bs0 bs1 scale bs2 bs3,
    boxes2D_of P class_names box_data = Ok bs0
    /\ denormalize_values image bs0 = Ok bs1
    /\ reciprocal image_scale = Ok scale
    /\ update_values (scale_coordinates P scale) bs1 = Ok bs2
    /\ update_values (round_coordinates P) bs2 = Ok bs3
    /\ deref (objects w') boxes2D = map Some bs3.
Proof.
  intros Hcall.
  set (self := init model class_names score_thresh nms_thresh variances
                    class_arg num_pose_dims) in *.
  destruct (call_runs P self image model_output image_scale camera_parameter w)
    as (w1 & r & Hrun & _ & Hres).
  rewrite Hcall in Hrun. injection Hrun as <- <-.
  destruct model_output as [d t].
  destruct (call_value P self image (d, t) image_scale).2
    as [[bs poses]|e] eqn:Hv; [|discriminate].
  destruct Hres as (rs & [= <- <-] & _ & Hden).
  apply call_value_Ok in Hv
    as (bda & bd & bs0 & bs1 & scale & bs2 & _ & _ & _ & _
        & _ & _ & H3 & H4 & H5 & H6 & H7 & _).
  cbn [self init to_boxes2D denormalize scale_boxes2D round_boxes] in *.
  unfold to_boxes2D_value, denormalize_value, scale_boxes2D_value,
    round_boxes_value in *.
  rewrite told_then_value in H3. rewrite told_then_value in H4.
  rewrite told_then_value in H6. rewrite told_then_value in H7.
  apply assign_values_Ok in H4. apply assign_values_Ok in H6.
  apply assign_values_Ok in H7.
  exists bd, bs0, bs1, scale, bs2, bs. done.
Qed.

Lemma scale_correction_follows_denormalization_witness :
  exists box_data bs0 bs1 scale bs2 bs3,
    boxes2D_of PazSpec.processors Example.class_names box_data = Ok bs0
    /\ denormalize_values Example.image bs0 = Ok bs1
    /\ reciprocal 0.5 = Ok scale
    /\ update_values (scale_coordinates PazSpec.processors scale) bs1 = Ok bs2
    /\ update_values (round_coordinates PazSpec.processors) bs2 = Ok bs3
    /\ deref (objects (Example.run 0.5).1) [1%positive] = map Some bs3.
Proof.
  apply (scale_correction_follows_denormalization
           PazSpec.processors Example.model Example.class_names
           0.5 0.45 default_variances None 3 Example.image
           (Example.detections, Example.transformations) 0.5 tt
           Example.empty_world (Example.run 0.5).1 [1%positive] Example.poses).
  vm_compute. reflexivity.
Defined.

(** C6 fails as stated: with [image_scale = 0.5] the detected box
    [0.101, 0.101, 0.301, 0.301] comes out as [128, 128, 384, 384], the
    truncated pixels times two; the factor applied before the conversion
    gives [129, 129, 385, 385].  [DenormalizeBoxes2D] is the eighth
    processor called, [ScaleBoxes2D] the ninth. *)
Lemma scale_first_counterexample :
  Example.detected
  = Ok [mkBox2D Example.detected_coordinates (PyFloat 0.9) "driller"]
  /\ observe (Example.run 0.5)
     = Ok ([Some (mkBox2D [PyInt 128; PyInt 128; PyInt 384; PyInt 384]
                          (PyFloat 0.9) "driller")],
           Example.poses)
  /\ Claimed.scale_then_denormalize PazSpec.processors 2 [480; 640]
       Example.detected_coordinates
     = Ok [PyInt 129; PyInt 129; PyInt 385; PyInt 385]
  /\ position is_denormalize (log (Example.run 0.5).1) = Some 7%nat
  /\ position is_scale_boxes (log (Example.run 0.5).1) = Some 8%nat.
Proof. repeat split; vm_compute; reflexivity. Qed.

(** C3 on the code: when no detection reaches the score threshold the run
    returns no box and no pose and raises nothing, but [ToPose6D] is still
    called, as the eleventh processor: the pose stage is not skipped. *)
Lemma no_survivors_still_calls_to_pose_6D :
  observe Example.strict_run = Ok ([], [])
  /\ log Example.strict_run.1
     = init_order Example.model Example.class_names 0.95 0.45
                  default_variances None false
  /\ position is_to_pose_6D (log Example.strict_run.1) = Some 10%nat.
Proof. repeat split; vm_compute; reflexivity. Qed.

(** A run that returns has called [ToPose6D] last, whether or not a box
    survived: the call stands after the [if] block, not inside it. *)
Theorem to_pose_6D_called_on_every_return {Camera : Type} (P : paz)
    (model : Model) (class_names : list string)
    (score_thresh nms_thresh : float) (variances : list float)
    (class_arg : option Z) (num_pose_dims : Z)
    (image : Image) (model_output : ndarray * ndarray) (image_scale : float)
    (camera_parameter : Camera) (w w' : world)
    (boxes2D : list ref) (poses6D : list Pose6D) :
  call P (init model class_names score_thresh nms_thresh variances class_arg
               num_pose_dims)
       image model_output image_scale camera_parameter w
  = (w', Ok (boxes2D, poses6D)) ->
  exists l, log w' = log w ++ l ++ [ToPose6D class_names].
Proof.
  intros Hcall.
  set (self := init model class_names score_thresh nms_thresh variances
                    class_arg num_pose_dims) in *.
  destruct (call_runs P self image model_output image_scale camera_parameter w)
    as (w1 & r & Hrun & Hlog & Hres).
  rewrite Hcall in Hrun. injection Hrun as <- <-.
  destruct model_output as [d t].
  destruct (call_value P self image (d, t) image_scale).2
    as [[bs poses]|e] eqn:Hv; [|discriminate].
  apply call_value_Ok in Hv as (? & ? & ? & ? & ? & ? & ? & ? & ? & ? & Hv).
  do 11 destruct Hv as [_ Hv]. rewrite Hlog, Hv.
  exists (removelast
            (init_order model class_names score_thresh nms_thresh variances
                        class_arg (0 <? length bs)%nat)).
  f_equal. unfold stage_order, init_order.
  by destruct (0 <? length bs)%nat.
Qed.

Lemma to_pose_6D_called_on_every_return_witness :
  exists l, log Example.strict_run.1
            = log Example.empty_world ++ l ++ [ToPose6D Example.class_names].
Proof.
  apply (to_pose_6D_called_on_every_return
           PazSpec.processors Example.model Example.class_names
           0.95 0.45 default_variances None 3 Example.image
           (Example.detections, Example.transformations) 1 tt
           Example.empty_world Example.strict_run.1 [] []).
  vm_compute. reflexivity.
Defined.

(** [call] reads neither the image nor the camera parameter: the image
    only reaches [denormalize_box], which ignores its shape. *)
Theorem call_ignores_image_and_camera {Camera1 Camera2 : Type} (P : paz)
    (self : EfficientPosePostprocess) (image1 image2 : Image)
    (model_output : ndarray * ndarray) (image_scale : float)
    (camera1 : Camera1) (camera2 : Camera2) (w : world) :
  call P self image1 model_output image_scale camera1 w
  = call P self image2 model_output image_scale camera2 w.
Proof.
  assert (forall boxes2D,
            invoke_denormalize P (denormalize self) image1 boxes2D
            = invoke_denormalize P (denormalize self) image2 boxes2D) as H.
  { intros boxes2D. unfold invoke_denormalize.
    destruct (denormalize self); reflexivity. }
  assert (forall A B (m : M A) (k k' : A -> M B) w0,
            (forall a w1, k a w1 = k' a w1) -> (m ≫= k) w0 = (m ≫= k') w0)
    as Hext.
  { intros A B m k k' w0 Hk. unfold mbind, M_bind.
    destruct (m w0) as [w1 [a|e]]; [apply Hk|done]. }
  unfold call. destruct model_output as [detections transformations].
  apply Hext. intros box_data_all w1.
  apply Hext. intros box_data w2.
  apply Hext. intros boxes2D w3.
  by rewrite H.
Qed.

(** ** Pose assembly *)

Lemma mapM_result_lookup {A B} (f : A -> result B) (l : list A) :
  forall l' k y, mapM_result f l = Ok l' -> l' !! k = Some y ->
    exists x, l !! k = Some x /\ f x = Ok y.
Proof.
  induction l as [|x l IH]; intros l' k y H Hk; cbn in H.
  - injection H as <-. by destruct k.
  - destruct (f x) as [y0|e] eqn:Hf; [|discriminate]. cbn in H.
    destruct (mapM_result f l) as [ys|e] eqn:Hl; [|discriminate]. cbn in H.
    injection H as <-. destruct k as [|k]; cbn in *.
    + injection Hk as <-. eauto.
    + eapply IH; eauto.
Qed.

Lemma nd_get_Array (items : list ndarray) (k : nat) (x : ndarray) :
  items !! k = Some x -> nd_get (Array items) (Z.of_nat k) = Ok x.
Proof.
  intros Hk. pose proof (lookup_lt_Some _ _ _ Hk) as Hlt. unfold nd_get.
  replace (Z.of_nat k <? 0) with false by (symmetry; apply Z.ltb_ge; lia).
  replace (0 <=? Z.of_nat k) with true by (symmetry; apply Z.leb_le; lia).
  replace (Z.of_nat k <? Z.of_nat (length items)) with true
    by (symmetry; apply Z.ltb_lt; lia).
  cbn. by rewrite Nat2Z.id, Hk.
Qed.

Lemma nd_get_Array_inv (items : list ndarray) (k : nat) (x : ndarray) :
  nd_get (Array items) (Z.of_nat k) = Ok x -> items !! k = Some x.
Proof.
  unfold nd_get.
  replace (Z.of_nat k <? 0) with false by (symmetry; apply Z.ltb_ge; lia).
  destruct ((0 <=? Z.of_nat k) && (Z.of_nat k <? Z.of_nat (length items)));
    [|discriminate].
  rewrite Nat2Z.id. destruct (items !! k); [|discriminate]. congruence.
Qed.

(** Pose [k] holds rotation [k] and translation [k]. *)
Lemma assemble_lookup (P : paz) (class_names : list string)
    (rotations translations : ndarray) (rows : list ndarray) :
  forall i poses k pose,
    assemble P class_names i rows rotations translations = Ok poses ->
    poses !! k = Some pose ->
    nd_get rotations (i + Z.of_nat k) = Ok (rotation pose)
    /\ nd_get translations (i + Z.of_nat k) = Ok (translation pose).
Proof.
  induction rows as [|row rest IH]; intros i poses k pose H Hk; cbn in H.
  - injection H as <-. by destruct k.
  - destruct (nd_get rotations i) as [r|e] eqn:Hr; [|discriminate].
    destruct (nd_get translations i) as [t|e] eqn:Ht; [|discriminate].
    cbn in H.
    destruct (assemble P class_names (i + 1) rest rotations translations)
      as [ps|e] eqn:Hrest; [|discriminate].
    cbn in H. injection H as <-. destruct k as [|k].
    + cbn in Hk. injection Hk as <-. cbn. by rewrite Z.add_0_r.
    + cbn in Hk. destruct (IH _ _ _ _ Hrest Hk) as [H1 H2].
      replace (i + Z.of_nat (S k)) with (i + 1 + Z.of_nat k) by lia. done.
Qed.

Lemma assemble_length (P : paz) (class_names : list string)
    (rotations translations : ndarray) (rows : list ndarray) :
  forall i poses,
    assemble P class_names i rows rotations translations = Ok poses ->
    length poses = length rows.
Proof.
  induction rows as [|row rest IH]; intros i poses H; cbn in H.
  - by injection H as <-.
  - destruct (nd_get rotations i) as [r|e]; [|discriminate].
    destruct (nd_get translations i) as [t|e]; [|discriminate].
    cbn in H.
    destruct (assemble P class_names (i + 1) rest rotations translations)
      as [ps|e] eqn:Hrest; [|discriminate].
    cbn in H. injection H as <-. cbn. f_equal. eauto.
Qed.

Lemma nd_get_in_range (a : ndarray) (n : nat) (i : Z) :
  nd_len a = Ok n -> 0 <= i < Z.of_nat n -> exists x, nd_get a i = Ok x.
Proof.
  destruct a as [x|items]; [discriminate|]. cbn. intros [= <-] Hi.
  replace (i <? 0) with false by (symmetry; apply Z.ltb_ge; lia).
  replace (0 <=? i) with true by (symmetry; apply Z.leb_le; lia).
  replace (i <? Z.of_nat (length items)) with true
    by (symmetry; apply Z.ltb_lt; lia).
  cbn. destruct (items !! Z.to_nat i) as [x|] eqn:Hx; [eauto|].
  apply lookup_ge_None in Hx. lia.
Qed.

(** With a rotation and a translation for every row the assembly
    returns. *)
Lemma assemble_returns (P : paz) (class_names : list string)
    (rotations translations : ndarray) (n m : nat) (rows : list ndarray) :
  nd_len rotations = Ok n -> nd_len translations = Ok m ->
  forall i, 0 <= i ->
    i + Z.of_nat (length rows) <= Z.of_nat n ->
    i + Z.of_nat (length rows) <= Z.of_nat m ->
    exists poses,
      assemble P class_names i rows rotations translations = Ok poses.
Proof.
  intros Hn Hm. induction rows as [|row rest IH]; intros i Hi Hin Him; cbn.
  - eauto.
  - cbn [length] in Hin, Him.
    destruct (nd_get_in_range rotations n i Hn) as [r ->]; [lia|].
    destruct (nd_get_in_range translations m i Hm) as [t ->]; [lia|].
    destruct (IH (i + 1)) as [ps ->]; [lia..|]. cbn. eauto.
Qed.

(** C5: pose assembly returns one [Pose6D] per row of [box_data]: for an
    empty [box_data], whatever the other arrays, and for rotations and
    translations aligned with the rows, it returns a list as long as
    [box_data]. *)
Theorem pose_assembly_one_per_row (P : paz) (class_names : list string)
    (rows : list ndarray) (rotations translations : ndarray) :
  rows = []
  \/ (nd_len rotations = Ok (length rows)
      /\ nd_len translations = Ok (length rows)) ->
  exists poses6D,
    ToPose6D_call P class_names (Array rows) rotations translations
    = Ok poses6D
    /\ length poses6D = length rows.
Proof.
  intros [->|[Hr Ht]].
  - exists []. done.
  - unfold ToPose6D_call. cbn.
    destruct (assemble_returns P class_names rotations translations
                _ _ rows Hr Ht 0) as [poses Hposes]; [lia..|].
    exists poses. split; [done|]. by eapply assemble_length.
Qed.

Lemma pose_assembly_one_per_row_witness :
  exists poses6D,
    ToPose6D_call PazSpec.processors Example.class_names
      (PazSpec.of_matrix [[64; 64; 192; 192; 0.9; 0]]%float)
      (PazSpec.of_matrix [[0.5; 0.25; 1]]%float)
      (PazSpec.of_matrix [[10; 20; 30]]%float)
    = Ok poses6D
    /\ length poses6D = 1%nat.
Proof.
  apply (pose_assembly_one_per_row PazSpec.processors Example.class_names
           [PazSpec.of_row [64; 64; 192; 192; 0.9; 0]%float]).
  right. split; reflexivity.
Defined.

Lemma select_poses_value_Ok (P : paz)
    (model : Model) (class_names : list string)
    (score_thresh nms_thresh : float) (variances : list float)
    (class_arg : option Z) (num_pose_dims : Z)
    (box_data_all box_data rotations translations rot trans : ndarray) :
  (select_poses_value P
     (init model class_names score_thresh nms_thresh variances class_arg
           num_pose_dims)
     box_data_all box_data rotations translations).2 = Ok (rot, trans) ->
  exists selected_indices raw taken,
    selected_indices_of P box_data_all box_data = Ok selected_indices
    /\ np_squeeze P (Some 0) rotations = Ok raw
    /\ nd_take raw selected_indices = Ok taken
    /\ rot = Scale_call np_pi taken.
Proof.
  intros H. unfold select_poses_value in H.
  cbn [init compute_selections squeeze transform_rotations] in H.
  apply W_bind_Ok in H as (sel & H1 & H & _).
  apply W_bind_Ok in H as (raw & H2 & H & _).
  apply W_bind_Ok in H as (taken & H3 & H & _).
  apply W_bind_Ok in H as (scaled & H4 & H & _).
  apply W_bind_Ok in H as (raw' & H5 & H & _).
  apply W_bind_Ok in H as (taken' & H6 & H & _).
  cbn in H. injection H as <- <-.
  unfold compute_selections_value, invoke_value in *.
  rewrite told_then_value in H1. rewrite told_then_value in H2.
  rewrite told_then_value in H4. cbn in H2, H3, H4.
  injection H4 as <-.
  exists sel, raw, taken. done.
Qed.

Lemma nd_take_lookup (a taken : ndarray) (indices : list Z)
    (k : nat) (x : ndarray) :
  nd_take a indices = Ok taken ->
  nd_get taken (Z.of_nat k) = Ok x ->
  exists index, indices !! k = Some index /\ nd_get a index = Ok x.
Proof.
  unfold nd_take. destruct (mapM_result (nd_get a) indices) as [rows|e] eqn:Hm;
    [|discriminate].
  cbn. intros [= <-] Hx. apply nd_get_Array_inv in Hx.
  eapply mapM_result_lookup; eauto.
Qed.

Lemma nd_get_Scale_call (scales : float) (a : ndarray) (k : nat) (x : ndarray) :
  nd_get (Scale_call scales a) (Z.of_nat k) = Ok x ->
  exists y, nd_get a (Z.of_nat k) = Ok y
            /\ x = nd_map (PrimFloat.mul scales) y.
Proof.
  destruct a as [v|items]; [discriminate|]. unfold Scale_call. cbn [nd_map].
  intros Hx. apply nd_get_Array_inv in Hx.
  rewrite list_lookup_fmap in Hx.
  destruct (items !! k) as [y|] eqn:Hy; [|discriminate].
  injection Hx as <-. exists y. split; [|done]. by apply nd_get_Array.
Qed.

Lemma assemble_lookup_row (P : paz) (class_names : list string)
    (rotations translations : ndarray) (rows : list ndarray) :
  forall i poses k pose,
    assemble P class_names i rows rotations translations = Ok poses ->
    poses !! k = Some pose ->
    exists row, rows !! k = Some row
                /\ pose_class_name pose = class_of_row P class_names row.
Proof.
  induction rows as [|row rest IH]; intros i poses k pose H Hk; cbn in H.
  - injection H as <-. by destruct k.
  - destruct (nd_get rotations i) as [r|e]; [|discriminate].
    destruct (nd_get translations i) as [t|e]; [|discriminate].
    cbn in H.
    destruct (assemble P class_names (i + 1) rest rotations translations)
      as [ps|e] eqn:Hrest; [|discriminate].
    cbn in H. injection H as <-. destruct k as [|k].
    + cbn in Hk. injection Hk as <-. by exists row.
    + cbn in Hk. by apply (IH _ _ _ _ Hrest Hk).
Qed.

(** C4: when there are boxes, the rotation of pose [i] is the row of raw
    rotations selected for detection [i], every entry multiplied by
    [pi].  The detections are the rows of [box_data], the output of
    [postprocess_2] on [box_data_all], the output of [postprocess_1]; pose
    [i] is made for row [i] and carries its class.  The raw rotations are
    [transformations[:, :, :num_pose_dims]] squeezed, and the row is the
    one at the [i]-th index that [ComputeSelectedIndices] gives for
    [box_data_all] and [box_data], in this order. *)
Theorem rotations_scaled_by_pi {Camera : Type} (P : paz)
    (model : Model) (class_names : list string)
    (score_thresh nms_thresh : float) (variances : list float)
    (class_arg : option Z) (num_pose_dims : Z)
    (image : Image) (detections transformations : ndarray)
    (image_scale : float) (camera_parameter : Camera) (w w' : world)
    (boxes2D : list ref) (poses6D : list Pose6D) :
  call P (init model class_names score_thresh nms_thresh variances class_arg
               num_pose_dims)
       image (detections, transformations) image_scale camera_parameter w
  = (w', Ok (boxes2D, poses6D)) ->
  boxes2D <> [] ->
  exists squeezed decoded box_data_all suppressed merged box_data
         rows rotations raw selected_indices,
    np_squeeze P None detections = Ok squeezed
    /\ decode P (prior_boxes model) variances squeezed = Ok decoded
    /\ remove_class P class_names class_arg decoded = Ok box_data_all
    /\ nms_per_class P nms_thresh box_data_all = Ok suppressed
    /\ merge_nms_box_with_class P suppressed = Ok merged
    /\ filter_boxes P class_names score_thresh merged = Ok box_data
    /\ nd_rows box_data = Ok rows
    /\ slice_axis2 (cut_to num_pose_dims) transformations = Ok rotations
    /\ np_squeeze P (Some 0) rotations = Ok raw
    /\ selected_indices_of P box_data_all box_data = Ok selected_indices
    /\ length poses6D = length rows
    /\ forall i pose, poses6D !! i = Some pose ->
         exists detection index row,
           rows !! i = Some detection
           /\ pose_class_name pose = class_of_row P class_names detection
           /\ selected_indices !! i = Some index
           /\ nd_get raw index = Ok row
           /\ rotation pose = nd_map (PrimFloat.mul np_pi) row.
Proof.
  intros Hcall Hsome.
  destruct (call_data_flow P model class_names score_thresh nms_thresh
              variances class_arg num_pose_dims image detections
              transformations image_scale camera_parameter w w'
              boxes2D poses6D Hcall)
    as (squeezed & decoded & box_data_all & suppressed & merged & box_data
        & bs0 & bs1 & scale & bs2 & bs3 & rot3 & trans3 & rot & trans
        & (Ha & Hb & Hc) & (Hn & Hm & Hf) & _ & Hrot3 & _ & Hsel & Hpose).
  destruct boxes2D as [|r0 rest]; [done|]. cbn [length Nat.ltb Nat.leb] in Hsel.
  apply select_poses_value_Ok in Hsel as (sel & raw & taken & Hs & Hraw & Htake & ->).
  unfold ToPose6D_call in Hpose.
  destruct (nd_rows box_data) as [rows|e] eqn:Hrows; [|discriminate].
  cbn in Hpose.
  exists squeezed, decoded, box_data_all, suppressed, merged, box_data,
    rows, rot3, raw, sel.
  repeat split; try done.
  - by apply assemble_length in Hpose.
  - intros i pose Hi.
    destruct (assemble_lookup _ _ _ _ _ _ _ _ _ Hpose Hi) as [Hr _].
    destruct (assemble_lookup_row _ _ _ _ _ _ _ _ _ Hpose Hi)
      as (detection & Hdet & Hclass).
    rewrite Z.add_0_l in Hr.
    apply nd_get_Scale_call in Hr as (row & Hrow & ->).
    destruct (nd_take_lookup _ _ _ _ _ Htake Hrow) as (index & Hindex & Hget).
    by exists detection, index, row.
Qed.

Lemma rotations_scaled_by_pi_witness :
  exists squeezed decoded box_data_all suppressed merged box_data
         rows rotations raw selected_indices,
    np_squeeze PazSpec.processors None Example.detections = Ok squeezed
    /\ decode PazSpec.processors (prior_boxes Example.model) default_variances
              squeezed = Ok decoded
    /\ remove_class PazSpec.processors Example.class_names None decoded
       = Ok box_data_all
    /\ nms_per_class PazSpec.processors 0.45 box_data_all = Ok suppressed
    /\ merge_nms_box_with_class PazSpec.processors suppressed = Ok merged
    /\ filter_boxes PazSpec.processors Example.class_names 0.5 merged
       = Ok box_data
    /\ nd_rows box_data = Ok rows
    /\ slice_axis2 (cut_to 3) Example.transformations = Ok rotations
    /\ np_squeeze PazSpec.processors (Some 0) rotations = Ok raw
    /\ selected_indices_of PazSpec.processors box_data_all box_data
       = Ok selected_indices
    /\ length Example.poses = length rows
    /\ forall i pose, Example.poses !! i = Some pose ->
         exists detection index row,
           rows !! i = Some detection
           /\ pose_class_name pose
              = class_of_row PazSpec.processors Example.class_names detection
           /\ selected_indices !! i = Some index
           /\ nd_get raw index = Ok row
           /\ rotation pose = nd_map (PrimFloat.mul np_pi) row.
Proof.
  apply (rotations_scaled_by_pi
           PazSpec.processors Example.model Example.class_names
           0.5 0.45 default_variances None 3 Example.image
           Example.detections Example.transformations 1 tt
           Example.empty_world (Example.run 1).1 [1%positive] Example.poses).
  - vm_compute. reflexivity.
  - discriminate.
Defined.

(** ** Non-maximum suppression *)

Section Suppression.

Import NMS.

Lemma Prim2SF_not_nan (f : float) :
  PrimFloat.is_nan f = false -> Prim2SF f <> S754_nan.
Proof.
  intros H. unfold Prim2SF. rewrite H.
  destruct (is_zero f); [discriminate|].
  destruct (is_infinity f); [discriminate|].
  destruct (Z.frexp f) as [r e].
  destruct (shr_fexp prec emax _ _ _) as [shr e'].
  destruct (shr_m shr); discriminate.
Qed.

Lemma SFleb_key (x y : spec_float) :
  x <> S754_nan -> y <> S754_nan ->
  SFleb x y = true <-> key_le (key x) (key y).
Proof.
  intros Hx Hy. unfold SFleb, key_le.
  destruct x as [sx|sx| |sx mx ex], y as [sy|sy| |sy my ey]; try done;
    try (destruct sx); try (destruct sy); cbn;
    try (split; [intros _; lia | reflexivity]);
    try (split; [discriminate | lia]).
  - destruct (Z.compare_spec ex ey) as [->|Hlt|Hgt].
    + change (Pos.compare_cont Eq mx my) with (Pos.compare mx my).
      destruct (Pos.compare_spec mx my) as [->|Hm|Hm]; cbn;
        (split; [intros; lia | try reflexivity; try lia]).
    + cbn. split; [discriminate | lia].
    + cbn. split; [intros; lia | reflexivity].
  - destruct (Z.compare_spec ex ey) as [->|Hlt|Hgt].
    + change (Pos.compare_cont Eq mx my) with (Pos.compare mx my).
      destruct (Pos.compare_spec mx my) as [->|Hm|Hm]; cbn;
        (split; [intros; lia | try reflexivity; try lia]).
    + cbn. split; [intros; lia | reflexivity].
    + cbn. split; [discriminate | lia].
Qed.

Lemma leb_key (a b : float) :
  PrimFloat.is_nan a = false -> PrimFloat.is_nan b = false ->
  PrimFloat.leb a b = true <-> key_le (key (Prim2SF a)) (key (Prim2SF b)).
Proof.
  intros Ha Hb. rewrite leb_spec.
  apply SFleb_key; by apply Prim2SF_not_nan.
Qed.

Lemma leb_total (a b : float) :
  PrimFloat.is_nan a = false -> PrimFloat.is_nan b = false ->
  PrimFloat.leb a b = true \/ PrimFloat.leb b a = true.
Proof.
  intros Ha Hb. rewrite !leb_key by done. unfold key_le.
  destruct (key (Prim2SF a)) as [[a1 a2] a3], (key (Prim2SF b)) as [[b1 b2] b3].
  cbn. lia.
Qed.

Lemma leb_trans (a b c : float) :
  PrimFloat.is_nan a = false -> PrimFloat.is_nan b = false ->
  PrimFloat.is_nan c = false ->
  PrimFloat.leb a b = true -> PrimFloat.leb b c = true ->
  PrimFloat.leb a c = true.
Proof.
  intros Ha Hb Hc. rewrite !leb_key by done. unfold key_le.
  destruct (key (Prim2SF a)) as [[a1 a2] a3], (key (Prim2SF b)) as [[b1 b2] b3],
    (key (Prim2SF c)) as [[c1 c2] c3].
  cbn. lia.
Qed.

Lemma enumerate_scored (scores : list float) :
  Forall (fun s => PrimFloat.is_nan s = false) scores ->
  forall boxes i, scored (enumerate_from i boxes scores).
Proof.
  induction 1 as [|s scores Hs _ IH]; intros [|b boxes] i; cbn;
    try apply Forall_nil_2.
  apply Forall_cons_2; [done|apply IH].
Qed.

Lemma insert_desc_Forall (Q : candidate -> Prop) (c : candidate)
    (l : list candidate) :
  Q c -> Forall Q l -> Forall Q (insert_desc c l).
Proof.
  intros Hc. induction 1 as [|d l Hd Hl IH]; cbn.
  - by apply Forall_singleton.
  - destruct (PrimFloat.leb (c_score d) (c_score c)).
    + by repeat apply Forall_cons_2.
    + by apply Forall_cons_2.
Qed.

Lemma insert_desc_sorted (c : candidate) (l : list candidate) :
  PrimFloat.is_nan (c_score c) = false -> scored l ->
  StronglySorted before l -> StronglySorted before (insert_desc c l).
Proof.
  intros Hc Hl Hs. induction Hs as [|d l Hs IH Hd]; cbn.
  - apply SSorted_cons; [apply SSorted_nil|apply Forall_nil_2].
  - apply Forall_cons in Hl as [Hdn Hl].
    destruct (PrimFloat.leb (c_score d) (c_score c)) eqn:Hle.
    + apply SSorted_cons; [by apply SSorted_cons|].
      apply Forall_cons_2; [done|].
      rewrite Forall_forall in *. intros x Hx. unfold before in *.
      apply (leb_trans _ (c_score d)); auto.
    + apply SSorted_cons; [by apply IH|].
      apply insert_desc_Forall; [|done]. unfold before.
      destruct (leb_total (c_score c) (c_score d)) as [H|H]; congruence.
Qed.

Lemma sort_desc_sorted (l : list candidate) :
  scored l -> StronglySorted before (sort_desc l) /\ scored (sort_desc l).
Proof.
  induction 1 as [|c l Hc Hl [IH1 IH2]]; cbn.
  - split; [apply SSorted_nil|apply Forall_nil_2].
  - split; [by apply insert_desc_sorted|by apply insert_desc_Forall].
Qed.

Lemma filter_Forall (Q : candidate -> Prop) (f : candidate -> bool)
    (l : list candidate) :
  Forall Q l -> Forall Q (List.filter f l).
Proof.
  induction 1 as [|d l Hd Hl IH]; cbn; [apply Forall_nil_2|].
  destruct (f d); [by apply Forall_cons_2|done].
Qed.

Lemma filter_true (f : candidate -> bool) (l : list candidate) :
  Forall (fun d => f d = true) (List.filter f l).
Proof.
  induction l as [|d l IH]; cbn; [apply Forall_nil_2|].
  destruct (f d) eqn:Hf; [by apply Forall_cons_2|done].
Qed.

Lemma filter_sorted (f : candidate -> bool) (l : list candidate) :
  StronglySorted before l -> StronglySorted before (List.filter f l).
Proof.
  induction 1 as [|d l Hs IH Hd]; cbn; [apply SSorted_nil|].
  destruct (f d); [|done]. apply SSorted_cons; [done|by apply filter_Forall].
Qed.

Lemma select_Forall (Q : candidate -> Prop) (iou_threshold : float)
    (rounds : nat) :
  forall l, Forall Q l -> Forall Q (select rounds iou_threshold l).
Proof.
  induction rounds as [|n IH]; intros [|c rest] H; cbn;
    try apply Forall_nil_2.
  apply Forall_cons in H as [Hc Hrest].
  apply Forall_cons_2; [done|]. apply IH. by apply filter_Forall.
Qed.

Lemma select_sorted (iou_threshold : float) (rounds : nat) :
  forall l, StronglySorted before l ->
            StronglySorted before (select rounds iou_threshold l).
Proof.
  induction rounds as [|n IH]; intros [|c rest] H; cbn; try apply SSorted_nil.
  apply StronglySorted_inv in H as [Hs Hc].
  apply SSorted_cons.
  - apply IH. by apply filter_sorted.
  - apply select_Forall. by apply filter_Forall.
Qed.

Lemma select_clean (iou_threshold : float) (rounds : nat) :
  forall l, clean iou_threshold (select rounds iou_threshold l).
Proof.
  induction rounds as [|n IH]; intros [|c rest]; cbn; try done.
  split; [|apply IH].
  apply select_Forall.
  eapply Forall_impl; [apply filter_true|].
  intros d Hd. cbn in Hd. by apply negb_true_iff in Hd.
Qed.

(** More rounds than candidates change nothing. *)
Lemma select_rounds (iou_threshold : float) :
  forall (n m : nat) (l : list candidate),
    (length l <= n)%nat -> (length l <= m)%nat ->
    select n iou_threshold l = select m iou_threshold l.
Proof.
  induction n as [|n IH]; intros [|m] [|c rest] Hn Hm;
    cbn [select length] in *; try done; try lia.
  f_equal. apply IH.
  - pose proof (filter_length_le
                  (fun d => negb (discards iou_threshold c d)) rest). lia.
  - pose proof (filter_length_le
                  (fun d => negb (discards iou_threshold c d)) rest). lia.
Qed.

(** The candidates of a second run are the kept ones, numbered anew. *)
Lemma enumerate_renumber (l : list candidate) :
  forall i, enumerate_from i (map c_box l) (map c_score l) = renumber i l.
Proof. induction l as [|c l IH]; intros i; cbn; [done|]. by rewrite IH. Qed.

Lemma renumber_boxes (l : list candidate) :
  forall i, map c_box (renumber i l) = map c_box l.
Proof. induction l as [|c l IH]; intros i; cbn; [done|]. by rewrite IH. Qed.

Lemma renumber_scores (l : list candidate) :
  forall i, map c_score (renumber i l) = map c_score l.
Proof. induction l as [|c l IH]; intros i; cbn; [done|]. by rewrite IH. Qed.

Lemma renumber_indices (l : list candidate) :
  forall i, map c_index (renumber i l) = seq i (length l).
Proof. induction l as [|c l IH]; intros i; cbn; [done|]. by rewrite IH. Qed.

Lemma renumber_length (l : list candidate) :
  forall i, length (renumber i l) = length l.
Proof. induction l as [|c l IH]; intros i; cbn; [done|]. by rewrite IH. Qed.

(** Sorting a sorted list leaves it as it is. *)
Lemma sort_desc_renumber (l : list candidate) :
  StronglySorted before l -> forall i, sort_desc (renumber i l) = renumber i l.
Proof.
  induction 1 as [|c l Hs IH Hc]; intros i; [done|].
  cbn [renumber sort_desc foldr]. fold (sort_desc (renumber (S i) l)).
  rewrite IH. destruct l as [|d l]; [done|].
  cbn [renumber insert_desc c_score].
  apply Forall_cons in Hc as [Hcd _]. unfold before in Hcd. by rewrite Hcd.
Qed.

Lemma filter_renumber (iou_threshold : float) (c c' : candidate)
    (l : list candidate) :
  c_box c' = c_box c ->
  Forall (fun d => discards iou_threshold c d = false) l ->
  forall j,
    List.filter (fun d => negb (discards iou_threshold c' d)) (renumber j l)
    = renumber j l.
Proof.
  intros Hbox. induction 1 as [|d l Hd Hl IH]; intros j; [done|].
  cbn [renumber List.filter]. unfold discards at 1. cbn [c_box].
  rewrite Hbox. unfold discards in Hd. rewrite Hd. cbn. by rewrite IH.
Qed.

(** Selecting among candidates none of which discards a later one keeps
    them all. *)
Lemma select_renumber (iou_threshold : float) (l : list candidate) :
  clean iou_threshold l ->
  forall n i, (length l <= n)%nat ->
    select n iou_threshold (renumber i l) = renumber i l.
Proof.
  induction l as [|c l IH]; intros Hclean n i Hn.
  - by destruct n.
  - destruct Hclean as [Hc Hclean]. destruct n as [|n]; cbn in Hn; [lia|].
    cbn [renumber select].
    rewrite (filter_renumber iou_threshold c) by done.
    rewrite IH by (done || lia). done.
Qed.

(** C7: suppression run again on the boxes and scores it kept, with the
    same threshold, keeps them all, in the same order: the same boxes and
    the same scores come back, numbered from zero.  The scores are
    numbers (no NaN). *)
Theorem suppress_idempotent (boxes : list Box) (scores : list float)
    (iou_threshold : float) :
  Forall (fun s => PrimFloat.is_nan s = false) scores ->
  let '(kept_boxes, kept_scores, _) := suppress boxes scores iou_threshold in
  suppress kept_boxes kept_scores iou_threshold
  = (kept_boxes, kept_scores, seq 0 (length kept_boxes)).
Proof.
  intros Hscores. unfold suppress.
  set (k := kept boxes scores iou_threshold).
  assert (StronglySorted before k /\ clean iou_threshold k) as [Hsorted Hclean].
  { unfold k, kept. split; [|apply select_clean].
    apply select_sorted. apply sort_desc_sorted. by apply enumerate_scored. }
  unfold kept. rewrite enumerate_renumber.
  rewrite sort_desc_renumber by done.
  rewrite select_renumber by (done || by rewrite renumber_length).
  by rewrite renumber_boxes, renumber_scores, renumber_indices, length_map.
Qed.

Lemma suppress_idempotent_witness :
  suppress Example.overlapping_boxes Example.overlapping_scores 0.45
  = ([mkBox 0 0 1 1], [0.9%float], [0%nat])
  /\ suppress [mkBox 0 0 1 1] [0.9%float] 0.45
     = ([mkBox 0 0 1 1], [0.9%float], [0%nat]).
Proof.
  split; [vm_compute; reflexivity|].
  apply (suppress_idempotent Example.overlapping_boxes
           Example.overlapping_scores 0.45).
  repeat constructor.
Defined.

End Suppression.

(** * Further properties of the code *)

(** ** When [denormalize_box] returns *)

Lemma SFeqb_refl_finite (s : bool) (m : positive) (e : Z) :
  SFeqb (S754_finite s m e) (S754_finite s m e) = true.
Proof.
  unfold SFeqb, SFcompare. rewrite Z.compare_refl.
  change (Pos.compare_cont Eq m m) with (Pos.compare m m).
  rewrite Pos.compare_refl. by destruct s.
Qed.

(** [int] accepts exactly the finite floats. *)
Lemma int_of_float_is_finite (f : float) :
  is_ok (int_of_float f) = PrimFloat.is_finite f.
Proof.
  unfold PrimFloat.is_finite, PrimFloat.is_nan, PrimFloat.is_infinity,
    int_of_float.
  rewrite !FloatAxioms.eqb_spec, abs_spec.
  replace (Prim2SF infinity) with (S754_infinity false)
    by (vm_compute; reflexivity).
  destruct (Prim2SF f) as [s|s| |s m e]; try reflexivity.
  - by destruct s.
  - cbn [SFabs]. rewrite SFeqb_refl_finite. reflexivity.
Qed.

Lemma mul_fixed_width (x : float) :
  Py.mul (PyFloat x) fixed_width = Ok (PyFloat (PrimFloat.mul x 640)).
Proof. unfold fixed_width, Py.mul. by rewrite float_of_int_640. Qed.

Lemma mul_fixed_height (x : float) :
  Py.mul (PyFloat x) fixed_height = Ok (PyFloat (PrimFloat.mul x 640)).
Proof. by rewrite fixed_height_640. Qed.

Lemma denormalize_box_floats (a b c d : float) (rest : list float) image_shape :
  denormalize_box (map PyFloat (a :: b :: c :: d :: rest)) image_shape
  = x_min ← int_of_float (PrimFloat.mul a 640);
    y_min ← int_of_float (PrimFloat.mul b 640);
    x_max ← int_of_float (PrimFloat.mul c 640);
    y_max ← int_of_float (PrimFloat.mul d 640);
    Ok [PyInt x_min; PyInt y_min; PyInt x_max; PyInt y_max].
Proof.
  unfold denormalize_box. cbn [map slice_to firstn].
  rewrite !mul_fixed_width, !mul_fixed_height. reflexivity.
Qed.

(** [denormalize_box] on a box of floats returns exactly when the box has
    at least four entries and each of the first four, times 640, is a
    finite float: no NaN and no overflow.  Otherwise it raises. *)
Theorem denormalize_box_returns_iff (coords : list float) (image_shape : list Z) :
  is_ok (denormalize_box (map PyFloat coords) image_shape) = true
  <-> (4 <= length coords)%nat
      /\ Forall (fun x => PrimFloat.is_finite (PrimFloat.mul x 640) = true)
                (firstn 4 coords).
Proof.
  destruct coords as [|a [|b [|c [|d rest]]]];
    try (split; [discriminate | cbn; intros [H _]; lia]).
  rewrite denormalize_box_floats. cbn [firstn length].
  rewrite !Forall_cons, <- !int_of_float_is_finite.
  destruct (int_of_float (PrimFloat.mul a 640)),
    (int_of_float (PrimFloat.mul b 640)),
    (int_of_float (PrimFloat.mul c 640)),
    (int_of_float (PrimFloat.mul d 640)); cbn;
    (split; [try discriminate; intros _; repeat split; (lia || constructor)
            | try done; intros (_ & ? & ? & ? & ? & _); done]).
Qed.

(** ** The loop of [DenormalizeBoxes2D.call] on lists that share boxes *)

Lemma set_coordinates_same (b : Box2D) : set_coordinates b (coordinates b) = b.
Proof. by destruct b. Qed.

Lemma set_coordinates_twice (b : Box2D) (c c' : list pynum) :
  set_coordinates (set_coordinates b c) c' = set_coordinates b c'.
Proof. reflexivity. Qed.

(** The loop over [l1 ++ l2] is the loop over [l1] followed, when that
    returns, by the loop over [l2] on the store it leaves. *)
Lemma update_coordinates_app (accepts : list pynum -> result unit)
    (f : list pynum -> result (list pynum)) (l1 l2 : list ref) :
  forall σ : store,
    update_coordinates accepts f (l1 ++ l2) σ
    = match update_coordinates accepts f l1 σ with
      | (σ1, Ok _) => update_coordinates accepts f l2 σ1
      | (σ1, Raise e) => (σ1, Raise e)
      end.
Proof.
  induction l1 as [|r rest IH]; intros σ; cbn; [done|].
  destruct (σ !! r) as [b|]; [|done].
  destruct (f (coordinates b)) as [c|e]; cbn; [|done].
  destruct (assign_coordinates accepts b c) as [b'|e]; [apply IH|done].
Qed.

Lemma denormalize_loop_counts (accepts : list pynum -> result unit)
    (image_shape : list Z) (boxes2D : list ref) :
  forall (σ σ' : store),
    update_coordinates accepts (fun c => denormalize_box c image_shape)
                       boxes2D σ
    = (σ', Ok tt) ->
    forall r b, σ !! r = Some b ->
      exists c,
        denormalize_times (count_occ Pos.eq_dec boxes2D r) (coordinates b)
                          image_shape = Ok c
        /\ σ' !! r = Some (set_coordinates b c).
Proof.
  induction boxes2D as [|x rest IH]; intros σ σ' Hrun r b Hb; cbn in Hrun.
  - injection Hrun as <-. exists (coordinates b).
    by rewrite set_coordinates_same.
  - destruct (σ !! x) as [bx|] eqn:Hx; [|discriminate].
    destruct (denormalize_box (coordinates bx) image_shape) as [cx|e] eqn:Hf;
      cbn in Hrun; [|discriminate].
    destruct (assign_coordinates accepts bx cx) as [bx'|e] eqn:Hset;
      [|discriminate].
    apply assign_coordinates_Ok in Hset as ->.
    cbn [count_occ]. destruct (Pos.eq_dec x r) as [->|Hne].
    + rewrite Hb in Hx. injection Hx as <-.
      destruct (IH _ _ Hrun r (set_coordinates b cx)) as (c & Hc & Hr).
      { by rewrite lookup_insert_eq. }
      exists c. cbn [denormalize_times]. rewrite Hf. cbn. by split.
    + apply (IH _ _ Hrun r b). by rewrite lookup_insert_ne.
Qed.

(** When [DenormalizeBoxes2D.call] returns, it returns the list it was
    given, and every box of the store has been denormalised once for each
    time the list holds it: a box listed twice has had [denormalize_box]
    applied to the result of [denormalize_box], a box not listed is as it
    was. *)
Theorem DenormalizeBoxes2D_call_once_per_occurrence
    (accepts : list pynum -> result unit) (image : Image)
    (boxes2D returned : list ref) (σ σ' : store) :
  DenormalizeBoxes2D_call accepts image boxes2D σ = (σ', Ok returned) ->
  returned = boxes2D
  /\ forall r b, σ !! r = Some b ->
       exists c,
         denormalize_times (count_occ Pos.eq_dec boxes2D r) (coordinates b)
                           (slice_to 2 (shape image)) = Ok c
         /\ σ' !! r = Some (set_coordinates b c).
Proof.
  unfold DenormalizeBoxes2D_call.
  destruct (update_coordinates _ _ boxes2D σ) as [σ1 [[]|e]] eqn:Hrun; cbn;
    [|discriminate].
  intros [= -> <-]. split; [done|].
  by apply (denormalize_loop_counts accepts).
Qed.

Lemma DenormalizeBoxes2D_call_once_per_occurrence_witness :
  let σ : store := <[1%positive := mkBox2D [PyFloat 0.5; PyFloat 0.5; PyFloat 1; PyFloat 1]
                                    (PyFloat 0.9) "driller"]> ∅ in
  exists σ' : store,
    DenormalizeBoxes2D_call PazSpec.accepts_coordinates (mkImage [480; 640; 3])
      [1%positive; 1%positive] σ
    = (σ', Ok [1%positive; 1%positive])
    /\ σ' !! 1%positive
       = Some (mkBox2D [PyInt 204800; PyInt 204800; PyInt 409600; PyInt 409600]
                       (PyFloat 0.9) "driller").
Proof.
  intros σ.
  destruct (DenormalizeBoxes2D_call PazSpec.accepts_coordinates
              (mkImage [480; 640; 3]) [1%positive; 1%positive] σ)
    as [σ' r] eqn:Hrun.
  assert (r = Ok [1%positive; 1%positive]) as ->.
  { apply (f_equal snd) in Hrun. vm_compute in Hrun. by subst r. }
  exists σ'. split; [done|].
  destruct (DenormalizeBoxes2D_call_once_per_occurrence _ _ _ _ _ _ Hrun)
    as [_ Hcount].
  destruct (Hcount 1%positive
              (mkBox2D [PyFloat 0.5; PyFloat 0.5; PyFloat 1; PyFloat 1]
                       (PyFloat 0.9) "driller") eq_refl) as (c & Hc & Hr).
  vm_compute in Hc. injection Hc as <-. exact Hr.
Defined.

(** The loop is not undone by an exception: when the boxes of [done]
    can be denormalised and the next box cannot, the call raises that
    box's exception and leaves the store as a complete call on [done]
    leaves it, the failing box and the boxes after it as they were. *)
Theorem DenormalizeBoxes2D_call_raises_midway
    (accepts : list pynum -> result unit) (image : Image)
    (done rest : list ref) (failing : ref) (b : Box2D) (e : exn)
    (σ σ1 : store) :
  DenormalizeBoxes2D_call accepts image done σ = (σ1, Ok done) ->
  σ1 !! failing = Some b ->
  denormalize_box (coordinates b) (slice_to 2 (shape image)) = Raise e ->
  DenormalizeBoxes2D_call accepts image (done ++ failing :: rest) σ
  = (σ1, Raise e).
Proof.
  unfold DenormalizeBoxes2D_call. rewrite update_coordinates_app.
  destruct (update_coordinates _ _ done σ) as [σ0 [[]|e0]]; cbn; [|discriminate].
  intros [= ->] Hb He. by rewrite Hb, He.
Qed.

Lemma DenormalizeBoxes2D_call_raises_midway_witness :
  let good := mkBox2D [PyFloat 0.5; PyFloat 0.5; PyFloat 1; PyFloat 1]
                      (PyFloat 0.9) "driller" in
  let bad := mkBox2D [PyFloat nan; PyFloat 0.5; PyFloat 1; PyFloat 1]
                     (PyFloat 0.8) "driller" in
  let σ : store := <[1%positive := good]> (<[2%positive := bad]> (<[3%positive := good]> ∅)) in
  exists σ1 : store,
    DenormalizeBoxes2D_call PazSpec.accepts_coordinates (mkImage [480; 640; 3])
      ([1%positive] ++ 2%positive :: [3%positive]) σ = (σ1, Raise ValueError)
    /\ σ1 !! 1%positive
       = Some (mkBox2D [PyInt 320; PyInt 320; PyInt 640; PyInt 640]
                       (PyFloat 0.9) "driller")
    /\ σ1 !! 2%positive = Some bad
    /\ σ1 !! 3%positive = Some good.
Proof.
  intros good bad σ.
  exists (<[1%positive := mkBox2D [PyInt 320; PyInt 320; PyInt 640; PyInt 640]
                                  (PyFloat 0.9) "driller"]> σ).
  split; [|by repeat split].
  apply (DenormalizeBoxes2D_call_raises_midway _ _ _ _ _ bad).
  - reflexivity.
  - reflexivity.
  - vm_compute. reflexivity.
Defined.

(** ** A zero image scale *)

Lemma W_bind_snd {A B} (m : W A) (k : A -> W B) :
  (m ≫= k).2 = match m.2 with Ok a => (k a).2 | Raise e => Raise e end.
Proof.
  unfold mbind, W_bind. destruct m as [l [a|e]]; cbn; [|done].
  by destruct (k a).
Qed.

Lemma stops_bind {A B} (m : W A) (k : A -> W B) (l1 l2 : list processor) :
  traces m l1 ->
  (forall a, (k a).1 `prefix_of` l2 /\ exists e, (k a).2 = Raise e) ->
  (m ≫= k).1 `prefix_of` (l1 ++ l2) /\ exists e, (m ≫= k).2 = Raise e.
Proof.
  intros [Hp Hok] Hk. unfold mbind, W_bind.
  destruct m as [l [a|e]]; cbn in *.
  - rewrite (Hok a eq_refl). destruct (Hk a) as [Hp2 [e He]].
    destruct (k a) as [l' r]. cbn in *. split; [by apply prefix_app|eauto].
  - split; [by apply prefix_app_r|eauto].
Qed.

Lemma call_value_zero_scale_stops (P : paz) (self : EfficientPosePostprocess)
    (image : Image) (model_output : ndarray * ndarray) (image_scale : float) :
  PrimFloat.eqb image_scale 0 = true ->
  (call_value P self image model_output image_scale).1
    `prefix_of` (postprocess_1 self ++ postprocess_2 self
                 ++ [to_boxes2D self; denormalize self])
  /\ exists e, (call_value P self image model_output image_scale).2 = Raise e.
Proof.
  intros Hzero. unfold call_value. destruct model_output as [d t].
  apply stops_bind; [apply traces_sequential|intros box_data_all].
  apply stops_bind; [apply traces_sequential|intros box_data].
  apply (stops_bind _ _ [_] [_]); [apply traces_to_boxes2D|intros bs0].
  rewrite <- (app_nil_r [denormalize self]).
  apply (stops_bind _ _ [_] []); [apply traces_denormalize|intros bs1].
  unfold reciprocal. rewrite Hzero. cbn. split; [done|eauto].
Qed.

Lemma call_value_zero_scale_error (P : paz) (self : EfficientPosePostprocess)
    (image : Image) (model_output : ndarray * ndarray)
    (image_scale other_scale : float) (out : list Box2D * list Pose6D) :
  PrimFloat.eqb image_scale 0 = true ->
  (call_value P self image model_output other_scale).2 = Ok out ->
  (call_value P self image model_output image_scale).2 = Raise ZeroDivisionError.
Proof.
  intros Hzero. unfold call_value. destruct model_output as [d t].
  rewrite !W_bind_snd.
  destruct (sequential_value P (postprocess_1 self) d).2 as [a1|]; [|done].
  rewrite !W_bind_snd.
  destruct (sequential_value P (postprocess_2 self) a1).2 as [a2|]; [|done].
  rewrite !W_bind_snd.
  destruct (to_boxes2D_value P (to_boxes2D self) a2).2 as [a3|]; [|done].
  rewrite !W_bind_snd.
  destruct (denormalize_value P (denormalize self) image a3).2 as [a4|]; [|done].
  intros _. rewrite W_bind_snd. unfold reciprocal. by rewrite Hzero.
Qed.

(** With an image scale of zero ([0.0] or [-0.0]) the call never returns.
    It raises before [ScaleBoxes2D] is called: the boxes may have been made
    and denormalised, nothing after that has run.  On an input for which
    the call returns with some other scale, the exception is
    [ZeroDivisionError]. *)
Theorem zero_image_scale_raises {Camera : Type} (P : paz)
    (self : EfficientPosePostprocess) (image : Image)
    (model_output : ndarray * ndarray) (image_scale : float)
    (camera_parameter : Camera) (w : world) :
  PrimFloat.eqb image_scale 0 = true ->
  exists w' e l,
    call P self image model_output image_scale camera_parameter w = (w', Raise e)
    /\ log w' = log w ++ l
    /\ l `prefix_of` (postprocess_1 self ++ postprocess_2 self
                      ++ [to_boxes2D self; denormalize self])
    /\ forall other_scale w2 w2' out,
         call P self image model_output other_scale camera_parameter w2
         = (w2', Ok out) ->
         e = ZeroDivisionError.
Proof.
  intros Hzero.
  destruct (call_runs P self image model_output image_scale camera_parameter w)
    as (w' & r & Hrun & Hlog & Hres).
  destruct (call_value_zero_scale_stops P self image model_output _ Hzero)
    as [Hprefix [e He]].
  rewrite He in Hres. subst r.
  exists w', e, (call_value P self image model_output image_scale).1.
  repeat split; try done.
  intros other_scale w2 w2' out Hother.
  destruct (call_runs P self image model_output other_scale camera_parameter w2)
    as (w3 & r3 & Hrun3 & _ & Hres3).
  rewrite Hother in Hrun3. injection Hrun3 as <- <-.
  destruct (call_value P self image model_output other_scale).2
    as [out'|e'] eqn:Hv; [|discriminate].
  pose proof (call_value_zero_scale_error P self image model_output
                image_scale other_scale out' Hzero Hv) as Herr.
  congruence.
Qed.

Lemma zero_image_scale_raises_witness :
  exists w' l,
    Example.run 0 = (w', Raise ZeroDivisionError)
    /\ log w' = log Example.empty_world ++ l
    /\ l `prefix_of` (postprocess_1 Example.self ++ postprocess_2 Example.self
                      ++ [to_boxes2D Example.self; denormalize Example.self]).
Proof.
  destruct (zero_image_scale_raises PazSpec.processors Example.self
              Example.image (Example.detections, Example.transformations)
              0 tt Example.empty_world eq_refl)
    as (w' & e & l & Hrun & Hlog & Hprefix & Herr).
  assert (e = ZeroDivisionError) as ->.
  { apply (Herr 1%float Example.empty_world (Example.run 1).1
                ([1%positive], Example.poses)).
    vm_compute. reflexivity. }
  by exists w', l.
Defined.

(** ** What a call does to the boxes that were there before *)

Lemma M_bind_inv {A B} (m : M A) (k : A -> M B) (w w' : world) (r : result B) :
  (m ≫= k) w = (w', r) ->
  (exists e, m w = (w', Raise e) /\ r = Raise e)
  \/ (exists a w1, m w = (w1, Ok a) /\ k a w1 = (w', r)).
Proof.
  unfold mbind, M_bind. destruct (m w) as [w1 [a|e]].
  - intros H. right. eauto.
  - intros [= <- <-]. left. eauto.
Qed.

Lemma keeps_objects_run {A} (m : M A) (w w' : world) (r : result A) :
  keeps_objects m -> m w = (w', r) -> objects w' = objects w.
Proof. intros H Hrun. specialize (H w). by rewrite Hrun in H. Qed.

Lemma keeps_bind {A B} (m : M A) (k : A -> M B) :
  keeps_objects m -> (forall a, keeps_objects (k a)) -> keeps_objects (m ≫= k).
Proof.
  intros Hm Hk w. unfold mbind, M_bind.
  specialize (Hm w). destruct (m w) as [w1 [a|e]]; cbn in *; [|done].
  by rewrite Hk.
Qed.

Lemma keeps_ret {A} (a : A) : keeps_objects (mret a : M A).
Proof. by intros w. Qed.

Lemma keeps_lift {A} (r : result A) : keeps_objects (lift r).
Proof. by intros w. Qed.

Lemma keeps_called (p : processor) : keeps_objects (called p).
Proof. by intros w. Qed.

Lemma keeps_invoke (P : paz) (p : processor) (x : ndarray) :
  keeps_objects (invoke P p x).
Proof. apply keeps_bind; [apply keeps_called|intros; apply keeps_lift]. Qed.

Lemma keeps_sequential (P : paz) (processors : list processor) :
  forall x, keeps_objects (SequentialProcessor_call P processors x).
Proof.
  induction processors as [|p rest IH]; intros x; cbn [SequentialProcessor_call].
  - apply keeps_ret.
  - apply keeps_bind; [apply keeps_invoke|done].
Qed.

Lemma keeps_compute_selections (P : paz) (p : processor) (x y : ndarray) :
  keeps_objects (invoke_compute_selections P p x y).
Proof.
  apply keeps_bind; [apply keeps_called|intros].
  destruct p; apply keeps_lift.
Qed.

Lemma keeps_to_pose_6D (P : paz) (p : processor) (x y z : ndarray) :
  keeps_objects (invoke_to_pose_6D P p x y z).
Proof.
  apply keeps_bind; [apply keeps_called|intros].
  destruct p; apply keeps_lift.
Qed.

Lemma keeps_select_poses (P : paz) (self : EfficientPosePostprocess)
    (box_data_all box_data rotations translations : ndarray) :
  keeps_objects (select_poses P self box_data_all box_data rotations translations).
Proof.
  unfold select_poses.
  repeat (apply keeps_bind;
          [first [apply keeps_compute_selections | apply keeps_invoke
                 | apply keeps_lift] | intros]).
  apply keeps_ret.
Qed.

Lemma fresh_boxes_objects (w0 w w' : world) (rs : list ref) :
  objects w' = objects w -> fresh_boxes w0 rs w -> fresh_boxes w0 rs w'.
Proof. unfold fresh_boxes. by intros ->. Qed.

(** A loop that assigns to the coordinates of new boxes leaves the boxes
    of before alone, whether it returns or raises. *)
Lemma fresh_boxes_in_place (P : paz) (f : list pynum -> result (list pynum))
    (w0 w w' : world) (rs : list ref) (r : result (list ref)) :
  in_place P f rs w = (w', r) ->
  fresh_boxes w0 rs w ->
  fresh_boxes w0 rs w' /\ forall rs', r = Ok rs' -> rs' = rs.
Proof.
  unfold in_place, mbind, M_bind, on_store.
  destruct (update_coordinates _ f rs (objects w)) as [σ' u] eqn:Hrun.
  apply update_coordinates_frame in Hrun as [Hdom Hframe].
  intros Hres (Hsub & Hnd & Hfresh).
  assert (fresh_boxes w0 rs (mkWorld σ' (log w))) as Hgoal.
  { repeat split; [|done|].
    - apply map_subseteq_spec. intros x b Hx.
      assert (objects w !! x = Some b) as Hw
        by (eapply map_subseteq_spec in Hsub; eauto).
      destruct (Hframe x b Hw) as (b' & Hb' & _ & _ & Hsame).
      cbn. rewrite Hb'. f_equal. apply Hsame. intros Hin.
      rewrite Forall_forall in Hfresh. destruct (Hfresh x Hin) as [Hnone _].
      congruence.
    - rewrite Forall_forall in Hfresh |- *. intros x Hin.
      destruct (Hfresh x Hin) as [Hnone Hsome]. split; [done|].
      cbn. apply elem_of_dom. rewrite Hdom. by apply elem_of_dom. }
  destruct u as [[]|e]; cbn in Hres; injection Hres as <- <-;
    (split; [done|]); intros rs'; [by intros [= <-]|done].
Qed.

Lemma fresh_boxes_denormalize (P : paz) (p : processor) (image : Image)
    (w0 w w' : world) (rs : list ref) (r : result (list ref)) :
  invoke_denormalize P p image rs w = (w', r) ->
  fresh_boxes w0 rs w ->
  fresh_boxes w0 rs w' /\ forall rs', r = Ok rs' -> rs' = rs.
Proof.
  unfold invoke_denormalize. intros Hrun Hw.
  apply M_bind_inv in Hrun as [(e & [=] & _)|([] & w1 & [= <-] & Hrun)].
  assert (fresh_boxes w0 rs (mkWorld (objects w) (log w ++ [p]))) as Hw1
    by exact Hw.
  destruct p; try (injection Hrun as <- <-; by split).
  rewrite on_store_denormalize in Hrun.
  by apply (fresh_boxes_in_place _ _ _ _ _ _ _ Hrun).
Qed.

Lemma fresh_boxes_scale_boxes2D (P : paz) (p : processor) (scale : float)
    (w0 w w' : world) (rs : list ref) (r : result (list ref)) :
  invoke_scale_boxes2D P p rs scale w = (w', r) ->
  fresh_boxes w0 rs w ->
  fresh_boxes w0 rs w' /\ forall rs', r = Ok rs' -> rs' = rs.
Proof.
  unfold invoke_scale_boxes2D. intros Hrun Hw.
  apply M_bind_inv in Hrun as [(e & [=] & _)|([] & w1 & [= <-] & Hrun)].
  assert (fresh_boxes w0 rs (mkWorld (objects w) (log w ++ [p]))) as Hw1
    by exact Hw.
  destruct p; try (injection Hrun as <- <-; by split).
  by apply (fresh_boxes_in_place _ _ _ _ _ _ _ Hrun).
Qed.

Lemma fresh_boxes_round_boxes (P : paz) (p : processor)
    (w0 w w' : world) (rs : list ref) (r : result (list ref)) :
  invoke_round_boxes P p rs w = (w', r) ->
  fresh_boxes w0 rs w ->
  fresh_boxes w0 rs w' /\ forall rs', r = Ok rs' -> rs' = rs.
Proof.
  unfold invoke_round_boxes. intros Hrun Hw.
  apply M_bind_inv in Hrun as [(e & [=] & _)|([] & w1 & [= <-] & Hrun)].
  assert (fresh_boxes w0 rs (mkWorld (objects w) (log w ++ [p]))) as Hw1
    by exact Hw.
  destruct p; try (injection Hrun as <- <-; by split).
  by apply (fresh_boxes_in_place _ _ _ _ _ _ _ Hrun).
Qed.

(** [ToBoxes2D] makes its boxes new. *)
Lemma fresh_boxes_to_boxes2D (P : paz) (p : processor) (box_data : ndarray)
    (w w' : world) (r : result (list ref)) :
  invoke_to_boxes2D P p box_data w = (w', r) ->
  objects w ⊆ objects w'
  /\ forall rs, r = Ok rs -> fresh_boxes w rs w'.
Proof.
  unfold invoke_to_boxes2D. intros Hrun.
  apply M_bind_inv in Hrun as [(e & [=] & _)|([] & w1 & [= <-] & Hrun)].
  destruct p; try (injection Hrun as <- <-; by split).
  apply M_bind_inv in Hrun as [(e & [= <- He] & ->)|(bs & w2 & [= <- Hbs] & Hrun)];
    [by split|].
  destruct (alloc_all_spec bs (mkWorld (objects w) (log w ++ [ToBoxes2D class_names])))
    as (w3 & rs & Halloc & _ & [Hnd Hden] & Hfresh & Hkeep).
  rewrite Halloc in Hrun. injection Hrun as <- <-.
  assert (objects w ⊆ objects w3) as Hsub
    by (apply map_subseteq_spec; intros x b Hx; by apply Hkeep).
  split; [done|]. intros rs' [= <-]. repeat split; [done..|].
  rewrite Forall_forall in Hfresh |- *. intros x Hin. split.
  - by apply Hfresh.
  - unfold deref in Hden.
    apply list_elem_of_lookup in Hin as [i Hi].
    pose proof (f_equal (fun l => l !! i) Hden) as Hlook. cbn in Hlook.
    rewrite !list_lookup_fmap in Hlook. rewrite Hi in Hlook. cbn in Hlook.
    destruct (bs !! i); cbn in Hlook; [|done]. by injection Hlook as ->.
Qed.

(** A call changes no box that was there before it, whether it returns or
    raises; the boxes it returns are distinct objects, none of them there
    before, all of them in the store. *)
Theorem call_allocates_fresh_boxes {Camera : Type} (P : paz)
    (self : EfficientPosePostprocess) (image : Image)
    (model_output : ndarray * ndarray) (image_scale : float)
    (camera_parameter : Camera) (w : world) :
  let run := call P self image model_output image_scale camera_parameter w in
  objects w ⊆ objects run.1
  /\ forall boxes2D poses6D,
       run.2 = Ok (boxes2D, poses6D) ->
       NoDup boxes2D
       /\ Forall (fun r => objects w !! r = None
                           /\ is_Some (objects run.1 !! r)) boxes2D.
Proof.
  intros run. subst run.
  destruct (call P self image model_output image_scale camera_parameter w)
    as [w' r] eqn:Hrun.
  cbn [fst snd]. destruct model_output as [d t]. unfold call in Hrun.
  apply M_bind_inv in Hrun as [(e & H1 & ->)|(box_data_all & w1 & H1 & Hrun)];
    apply (keeps_objects_run _ _ _ _ (keeps_sequential P _ _)) in H1 as O1;
    [by rewrite O1|].
  apply M_bind_inv in Hrun as [(e & H2 & ->)|(box_data & w2 & H2 & Hrun)];
    apply (keeps_objects_run _ _ _ _ (keeps_sequential P _ _)) in H2 as O2;
    [by rewrite O2, O1|].
  apply M_bind_inv in Hrun as [(e & H3 & ->)|(rs & w3 & H3 & Hrun)];
    apply fresh_boxes_to_boxes2D in H3 as [S3 F3];
    rewrite O2, O1 in S3; [done|].
  assert (fresh_boxes w rs w3) as Hw3.
  { destruct (F3 rs eq_refl) as (_ & Hnd & Hf). repeat split; [done..|].
    eapply Forall_impl; [exact Hf|]. cbn. intros x [Hx ?].
    rewrite O2, O1 in Hx. done. }
  clear F3 S3 O1 O2 H1 H2.
  apply M_bind_inv in Hrun as [(e & H4 & ->)|(rs4 & w4 & H4 & Hrun)];
    apply (fresh_boxes_denormalize _ _ _ w) in H4 as [Hw4 E4]; try done;
    [by destruct Hw4|].
  rewrite (E4 rs4 eq_refl) in *. clear E4 rs4.
  apply M_bind_inv in Hrun as [(e & [= <- _] & ->)|(scale & w5 & [= <- _] & Hrun)];
    [by destruct Hw4|].
  apply M_bind_inv in Hrun as [(e & H6 & ->)|(rs6 & w6 & H6 & Hrun)];
    apply (fresh_boxes_scale_boxes2D _ _ _ w) in H6 as [Hw6 E6]; try done;
    [by destruct Hw6|].
  rewrite (E6 rs6 eq_refl) in *. clear E6 rs6.
  apply M_bind_inv in Hrun as [(e & H7 & ->)|(rs7 & w7 & H7 & Hrun)];
    apply (fresh_boxes_round_boxes _ _ w) in H7 as [Hw7 E7]; try done;
    [by destruct Hw7|].
  rewrite (E7 rs7 eq_refl) in *. clear E7 rs7.
  apply M_bind_inv in Hrun as [(e & [= <- _] & ->)|(rot3 & w8 & [= <- _] & Hrun)];
    [by destruct Hw7|].
  apply M_bind_inv in Hrun as [(e & [= <- _] & ->)|(trans3 & w9 & [= <- _] & Hrun)];
    [by destruct Hw7|].
  assert (keeps_objects
            (if (0 <? length rs)%nat
             then select_poses P self box_data_all box_data rot3 trans3
             else mret (rot3, trans3))) as Hsel
    by (destruct (0 <? length rs)%nat; [apply keeps_select_poses|apply keeps_ret]).
  apply M_bind_inv in Hrun as [(e & H10 & ->)|([rot trans] & w10 & H10 & Hrun)];
    apply (keeps_objects_run _ _ _ _ Hsel) in H10 as O10;
    [apply (fresh_boxes_objects w _ _ rs O10) in Hw7; by destruct Hw7|].
  apply (fresh_boxes_objects w _ _ rs O10) in Hw7.
  apply M_bind_inv in Hrun as [(e & H11 & ->)|(poses & w11 & H11 & Hrun)];
    apply (keeps_objects_run _ _ _ _ (keeps_to_pose_6D P _ _ _ _)) in H11 as O11;
    apply (fresh_boxes_objects w _ _ rs O11) in Hw7;
    [by destruct Hw7|].
  injection Hrun as <- <-. destruct Hw7 as (Hsub & Hnd & Hf).
  split; [done|]. by intros boxes2D poses6D [= <- <-].
Qed.

(** ** The transformation array: from the script to the slices of [call] *)

Lemma mapM_result_Ok_Forall2 {A B} (f : A -> result B) (l : list A) :
  forall l', mapM_result f l = Ok l' -> Forall2 (fun x y => f x = Ok y) l l'.
Proof.
  induction l as [|x l IH]; intros l' H; cbn in H.
  - injection H as <-. constructor.
  - destruct (f x) as [y|] eqn:Hx; [|done]. cbn in H.
    destruct (mapM_result f l) as [ys|]; [|done]. cbn in H.
    injection H as <-. constructor; [done|by apply IH].
Qed.

Lemma mapM_result_Forall2_Ok {A B} (f : A -> result B) (l : list A) (l' : list B) :
  Forall2 (fun x y => f x = Ok y) l l' -> mapM_result f l = Ok l'.
Proof.
  induction 1 as [|x y l l' Hx _ IH]; cbn; [done|]. by rewrite Hx, IH.
Qed.

(** One row: the first three entries and the rest of what the script
    put together are the two blocks it was made of. *)
Lemma row_round_trip {A} (xs : list A) :
  cut_to 3 (cut_to 3 xs ++ cut_between 6 9 xs) = cut_to 3 xs
  /\ cut_from 3 (cut_to 3 xs ++ cut_between 6 9 xs) = cut_between 6 9 xs.
Proof.
  unfold cut_to, cut_from, cut_between, py_stop. cbn [Z.leb Z.compare].
  change (Z.to_nat 3) with 3%nat. change (Z.to_nat 6) with 6%nat.
  change (Z.to_nat 9) with 9%nat.
  destruct (decide (3 <= length xs)%nat) as [Hle|Hgt].
  - assert (length (firstn 3 xs) = 3%nat) as Hlen
      by (rewrite length_firstn; lia).
    split.
    + rewrite firstn_app, Hlen, Nat.sub_diag. cbn [firstn].
      rewrite app_nil_r. rewrite <- Hlen at 1. apply firstn_all.
    + rewrite skipn_app, Hlen, Nat.sub_diag. cbn [skipn].
      rewrite <- Hlen at 1. by rewrite skipn_all.
  - assert (skipn 6 (firstn 9 xs) = []) as ->
      by (apply skipn_all2; rewrite length_firstn; lia).
    rewrite app_nil_r. split.
    + by rewrite firstn_firstn.
    + apply skipn_all2. rewrite length_firstn. lia.
Qed.

Lemma slice_axis1_rows (cut : list ndarray -> list ndarray) (xss : list (list ndarray)) :
  slice_axis1 cut (Array (map Array xss))
  = Ok (Array (map (fun xs => Array (cut xs)) xss)).
Proof.
  unfold slice_axis1.
  rewrite (mapM_result_Forall2_Ok _ _ (map (fun xs => Array (cut xs)) xss)); [done|].
  induction xss as [|xs xss IH]; cbn; constructor; done.
Qed.

Lemma slice_axis2_rows (cut : list ndarray -> list ndarray) (xss : list (list ndarray)) :
  slice_axis2 cut (Array [Array (map Array xss)])
  = Ok (Array [Array (map (fun xs => Array (cut xs)) xss)]).
Proof.
  unfold slice_axis2. cbn [mapM_result].
  rewrite (mapM_result_Forall2_Ok _ _ (map (fun xs => Array (cut xs)) xss)); [done|].
  induction xss as [|xs xss IH]; cbn; constructor; done.
Qed.

Lemma is_matrix_rows (a : ndarray) :
  is_matrix a = true ->
  exists xss, a = Array (map Array xss)
              /\ Forall (Forall (fun x => nd_shape x = [])) xss.
Proof.
  destruct a as [x|rows]; [done|]. cbn [is_matrix].
  induction rows as [|r rows IH]; cbn [forallb].
  - intros _. by exists [].
  - intros [Hr Hrows]%andb_prop. destruct (IH Hrows) as (xss & [= ->] & Hxss).
    destruct r as [x|xs]; [done|]. exists (xs :: xss). split; [done|].
    constructor; [|done].
    apply Forall_forall. intros x Hx.
    rewrite forallb_forall in Hr. apply list_elem_of_In in Hx.
    specialize (Hr x Hx). by destruct x.
Qed.

Lemma same_shapes_scalars (l : list ndarray) :
  Forall (fun x => nd_shape x = []) l -> same_shapes l = true.
Proof.
  destruct 1 as [|x l Hx Hl]; [done|]. cbn.
  apply forallb_forall. intros y Hy. apply bool_decide_eq_true.
  apply list_elem_of_In in Hy. rewrite Forall_forall in Hl.
  by rewrite Hx, (Hl y Hy).
Qed.

Lemma concatenate_axis1_rows (f g : list ndarray -> list ndarray)
    (xss : list (list ndarray)) :
  Forall (fun xs => Forall (fun x => nd_shape x = []) (f xs ++ g xs)) xss ->
  concatenate_axis1 (Array (map (fun xs => Array (f xs)) xss))
                    (Array (map (fun xs => Array (g xs)) xss))
  = Ok (Array (map (fun xs => Array (f xs ++ g xs)) xss)).
Proof.
  intros Hscalars. unfold concatenate_axis1.
  rewrite !length_map, Nat.eqb_refl. cbn [negb].
  rewrite (mapM_result_Forall2_Ok _ _ (map (fun xs => Array (f xs ++ g xs)) xss)).
  2:{ clear Hscalars. induction xss as [|xs xss IH]; cbn; constructor; done. }
  cbn. rewrite same_shapes_scalars; [done|].
  induction Hscalars as [|xs xss Hxs _ IH]; cbn; [done|].
  by apply Forall_app.
Qed.

(** The script and the call agree on the layout: for a matrix [annotation]
    the script builds an array, and with [num_pose_dims] at 3 the two
    slices of [EfficientPosePostprocess.call] cut it back into
    [annotation[:, :3]] and [annotation[:, 6:9]], each under the leading
    axis the script added.  No width of the matrix is needed for this. *)
Theorem transformation_round_trip (self : EfficientPosePostprocess)
    (annotation : ndarray) :
  num_pose_dims self = 3 ->
  is_matrix annotation = true ->
  exists t rotations translations,
    transformation annotation = Ok t
    /\ slice_axis1 (cut_to 3) annotation = Ok rotations
    /\ slice_axis1 (cut_between 6 9) annotation = Ok translations
    /\ slice_axis2 (cut_to (num_pose_dims self)) t
       = Ok (expand_dims_axis0 rotations)
    /\ slice_axis2 (cut_from (num_pose_dims self)) t
       = Ok (expand_dims_axis0 translations).
Proof.
  intros -> (xss & -> & Hscalars)%is_matrix_rows.
  unfold transformation. rewrite !slice_axis1_rows. cbn [mbind result_bind].
  rewrite (concatenate_axis1_rows (cut_to 3) (cut_between 6 9)).
  2:{ eapply Forall_impl; [exact Hscalars|]. cbn. intros xs Hxs.
      apply Forall_app. split.
      - by apply Forall_take.
      - unfold cut_between. by apply Forall_drop, Forall_take. }
  cbn [mbind result_bind]. eexists _, _, _. repeat split.
  - unfold expand_dims_axis0.
    rewrite <- (map_map (fun xs => cut_to 3 xs ++ cut_between 6 9 xs) Array).
    rewrite slice_axis2_rows, map_map. do 4 f_equal.
    apply map_ext. intros xs. f_equal. apply row_round_trip.
  - unfold expand_dims_axis0.
    rewrite <- (map_map (fun xs => cut_to 3 xs ++ cut_between 6 9 xs) Array).
    rewrite slice_axis2_rows, map_map. do 4 f_equal.
    apply map_ext. intros xs. f_equal. apply row_round_trip.
Qed.

Lemma transformation_round_trip_witness :
  let annotation :=
    Array [Array (map Scalar [0.5; -0.25; 1; 7; 8; 9; 10; 20; 30; 40]%float);
           Array (map Scalar [0.1; 0.2; 0.3; 4; 5; 6; 11; 21; 31; 41]%float)] in
  exists t,
    transformation annotation = Ok t
    /\ slice_axis2 (cut_to (num_pose_dims Example.self)) t
       = Ok (Array [Array [Array (map Scalar [0.5; -0.25; 1]%float);
                           Array (map Scalar [0.1; 0.2; 0.3]%float)]])
    /\ slice_axis2 (cut_from (num_pose_dims Example.self)) t
       = Ok (Array [Array [Array (map Scalar [10; 20; 30]%float);
                           Array (map Scalar [11; 21; 31]%float)]]).
Proof.
  intros annotation.
  destruct (transformation_round_trip Example.self annotation eq_refl eq_refl)
    as (t & rotations & translations & Ht & Hr & Htr & Hrot & Htrans).
  exists t. injection Hr as <-. injection Htr as <-.
  repeat split; done.
Defined.

(** ** The detector *)

Section DetectorProperties.

Context {Picture Size CameraMatrix Color Tensor Camera Output : Type}.

Variable P : paz.
Variable picture_shape : Picture -> list Z.
Variable lincolor : nat -> list Color.
Variable EfficientPosePreprocess_call :
  Model -> Picture -> result (Tensor * Tensor * Camera).
Variable DrawBoxes2D_call :
  list string -> Picture -> list Box2D -> result Picture.
Variable WrapOutput_call :
  list string -> Picture -> list ref -> list Pose6D -> Output.
Variable DrawPose6D_call :
  @Detect.DrawPose6D Size CameraMatrix Color -> Picture -> Pose6D -> result Picture.

Local Abbreviation detector := (@Detect.DetectAndEstimateEfficientPose Size CameraMatrix Color).
Local Abbreviation detector_call :=
  (Detect.call P picture_shape EfficientPosePreprocess_call DrawBoxes2D_call
               WrapOutput_call DrawPose6D_call).

Lemma D_bind_Returned {A B} (m : @Detect.D Size CameraMatrix Color A)
    (k : A -> @Detect.D Size CameraMatrix Color B) s s' (b : B) :
  (m ≫= k) s = (s', Detect.Returned b) ->
  exists a s1, m s = (s1, Detect.Returned a) /\ k a s1 = (s', Detect.Returned b).
Proof.
  unfold mbind, Detect.D_bind. destruct (m s) as [s1 [a|e]]; [eauto|done].
Qed.

(** A preprocessing or post-processing pipeline handed to [__init__] is
    not kept: the attribute stays unassigned, and every call raises
    [AttributeError] where it reads it, before anything else has happened
    for [preprocess], after the default preprocessing for
    [postprocess]. *)
Theorem custom_processors_make_call_raise {Preprocess Postprocess : Type}
    (model : Model) (class_names : list string) (score_thresh nms_thresh : float)
    (LINEMOD_CAMERA_MATRIX : CameraMatrix)
    (LINEMOD_OBJECT_SIZES : list (string * Size))
    (preprocess : option Preprocess) (postprocess : option Postprocess)
    (variances : list float) (show_boxes2D show_poses6D : bool)
    (image : Picture) (detections transformations : ndarray) (w : world) :
  is_Some preprocess \/ is_Some postprocess ->
  let self : detector :=
    Detect.init lincolor model class_names score_thresh nms_thresh
      LINEMOD_CAMERA_MATRIX LINEMOD_OBJECT_SIZES preprocess postprocess
      variances show_boxes2D show_poses6D in
  exists e,
    detector_call image detections transformations (self, w)
    = ((self, w), Detect.Failed e)
    /\ (is_Some preprocess -> e = Detect.AttributeError "preprocess")
    /\ (preprocess = None ->
        match EfficientPosePreprocess_call model image with
        | Ok _ => e = Detect.AttributeError "postprocess"
        | Raise e' => e = Detect.Raised e'
        end).
Proof.
  intros Hcustom self. unfold Detect.call, mbind, Detect.D_bind, Detect.attribute. cbn.
  destruct preprocess as [pre|]; cbn.
  - eexists. split; [reflexivity|]. split; [done|]. discriminate.
  - destruct Hcustom as [[? [=]]|[post ->]].
    unfold Detect.returning. cbn.
    destruct (EfficientPosePreprocess_call model image) as [[[x y] cam]|e']; cbn.
    + eexists. split; [reflexivity|]. split; [by intros [? [=]]|done].
    + eexists. split; [reflexivity|]. split; [by intros [? [=]]|done].
Qed.

(** *** The table of drawing processors *)

Lemma build_notin (camera : CameraMatrix)
    (l : list (string * Size * Color)) (name : string) :
  forall acc : gmap string (@Detect.DrawPose6D Size CameraMatrix Color),
    name ∉ map (fun x => x.1.1) l ->
    foldl (fun name_to_draw '((name, object_size), box_color) =>
             <[name := Detect.mkDrawPose6D object_size camera box_color]>
               name_to_draw) acc l !! name
    = acc !! name.
Proof.
  induction l as [|[[n size] color] l IH]; intros acc Hnotin; cbn; [done|].
  cbn in Hnotin. apply not_elem_of_cons in Hnotin as [Hne Hnotin].
  rewrite IH by done. by rewrite lookup_insert_ne.
Qed.

Lemma build_lookup (camera : CameraMatrix)
    (l : list (string * Size * Color)) :
  forall (acc : gmap string (@Detect.DrawPose6D Size CameraMatrix Color))
         (i : nat) (name : string) (size : Size) (color : Color),
    NoDup (map (fun x => x.1.1) l) ->
    l !! i = Some (name, size, color) ->
    foldl (fun name_to_draw '((name, object_size), box_color) =>
             <[name := Detect.mkDrawPose6D object_size camera box_color]>
               name_to_draw) acc l !! name
    = Some (Detect.mkDrawPose6D size camera color).
Proof.
  induction l as [|[[n s0] c0] l IH]; intros acc i name size color Hnd Hi;
    [done|].
  cbn in Hnd. apply NoDup_cons in Hnd as [Hnotin Hnd].
  destruct i as [|i]; cbn in Hi |- *.
  - injection Hi as -> -> ->. rewrite build_notin by done.
    by rewrite lookup_insert_eq.
  - by apply (IH _ i).
Qed.

Lemma build_is_Some (camera : CameraMatrix)
    (l : list (string * Size * Color)) (name : string) :
  forall acc : gmap string (@Detect.DrawPose6D Size CameraMatrix Color),
    is_Some (foldl (fun name_to_draw '((name, object_size), box_color) =>
                      <[name := Detect.mkDrawPose6D object_size camera box_color]>
                        name_to_draw) acc l !! name) ->
    is_Some (acc !! name)
    \/ exists i size color, l !! i = Some (name, size, color).
Proof.
  induction l as [|[[n s0] c0] l IH]; intros acc H; cbn in H; [by left|].
  apply IH in H as [H|(i & size & color & Hi)].
  - destruct (decide (n = name)) as [->|Hne].
    + right. by exists 0%nat, s0, c0.
    + left. by rewrite lookup_insert_ne in H.
  - right. by exists (S i), size, color.
Qed.

Lemma zip_keys_NoDup (sizes : list (string * Size)) :
  forall colors : list Color,
    NoDup (map fst sizes) ->
    NoDup (map (fun x : string * Size * Color => x.1.1) (zip sizes colors)).
Proof.
  induction sizes as [|[n s0] sizes IH]; intros colors Hnd; cbn;
    [apply NoDup_nil_2|].
  destruct colors as [|c colors]; cbn; [apply NoDup_nil_2|].
  cbn in Hnd. apply NoDup_cons in Hnd as [Hnotin Hnd].
  apply NoDup_cons. split; [|by apply IH].
  intros Hin. apply Hnotin.
  apply list_elem_of_fmap in Hin as ([[n' s'] c'] & -> & Hin).
  apply list_elem_of_lookup in Hin as [i Hi].
  apply lookup_zip_with_Some in Hi as (x & y & [= <- <-] & Hx & _).
  apply list_elem_of_fmap. exists (n', s'). split; [done|].
  by eapply list_elem_of_lookup_2.
Qed.

(** [_build_draw_pose6D] makes one entry for each of the first names that
    have a colour: the name at position [i] draws with the size at
    position [i], the colour at position [i] and the camera parameter it
    was given.  Names beyond the colours, and names that are no key, have
    no entry. *)
Theorem build_draw_pose6D_lookup (self : detector)
    (name_to_size : list (string * Size)) (camera : CameraMatrix) :
  NoDup (map fst name_to_size) ->
  (forall i name size color,
     name_to_size !! i = Some (name, size) ->
     Detect.colors self !! i = Some color ->
     Detect._build_draw_pose6D self name_to_size camera !! name
     = Some (Detect.mkDrawPose6D size camera color))
  /\ (forall name,
        is_Some (Detect._build_draw_pose6D self name_to_size camera !! name) ->
        exists i size color,
          name_to_size !! i = Some (name, size)
          /\ Detect.colors self !! i = Some color).
Proof.
  intros Hnd. unfold Detect._build_draw_pose6D. split.
  - intros i name size color Hi Hc.
    apply (build_lookup _ _ _ i); [by apply zip_keys_NoDup|].
    apply lookup_zip_with_Some. by exists (name, size), color.
  - intros name [H|(i & size & color & Hi)]%build_is_Some.
    + rewrite lookup_empty in H. by destruct H.
    + apply lookup_zip_with_Some in Hi as (x & y & [= <- <-] & Hx & Hy).
      by exists i, size, color.
Qed.

(** *** What a returning call has drawn *)

Lemma draw_poses_Returned (table : gmap string (@Detect.DrawPose6D Size CameraMatrix Color))
    (pairs : list (ref * Pose6D)) :
  forall (image image' : Picture) s s',
    Detect.draw_pose6D s.1 = Some table ->
    Detect.draw_poses DrawPose6D_call image pairs s = (s', Detect.Returned image') ->
    s' = s
    /\ Forall (fun pair => exists b, objects s.2 !! pair.1 = Some b
                                     /\ is_Some (table !! class_name b)) pairs.
Proof.
  induction pairs as [|[r pose] pairs IH]; intros image image' s s' Htable Hrun;
    cbn [Detect.draw_poses] in Hrun.
  - injection Hrun as <- _. by split.
  - apply D_bind_Returned in Hrun as (t & s1 & H1 & Hrun).
    unfold Detect.attribute in H1. rewrite Htable in H1. injection H1 as <- <-.
    apply D_bind_Returned in Hrun as (b & s1 & H1 & Hrun).
    unfold Detect.box_at in H1.
    destruct (objects s.2 !! r) as [b'|] eqn:Hb; [|done]. injection H1 as <- <-.
    apply D_bind_Returned in Hrun as (draw & s1 & H1 & Hrun).
    unfold Detect.item in H1.
    destruct (table !! class_name b') as [draw'|] eqn:Hd; [|done].
    injection H1 as <- <-.
    apply D_bind_Returned in Hrun as (image1 & s1 & H1 & Hrun).
    unfold Detect.returning in H1. injection H1 as <- _.
    destruct (IH _ _ _ _ Htable Hrun) as [-> Hall].
    split; [done|]. constructor; [|done]. exists b'. cbn. by rewrite Hd.
Qed.

Lemma boxes_at_state (boxes2D : list ref) :
  forall (s s' : detector * world) bs,
    Detect.boxes_at boxes2D s = (s', Detect.Returned bs) -> s' = s.
Proof.
  induction boxes2D as [|r rest IH]; intros s s' bs Hrun; cbn in Hrun.
  - by injection Hrun as <- _.
  - apply D_bind_Returned in Hrun as (b & s1 & H1 & Hrun).
    unfold Detect.box_at in H1.
    destruct (objects s.2 !! r); [|done]. injection H1 as <- _.
    apply D_bind_Returned in Hrun as (bs' & s1 & H1 & Hrun).
    apply IH in H1 as ->. by injection Hrun as <- _.
Qed.

(** A call with [show_poses6D] returns only if every box that has a pose
    is of a class that is a key of [class_to_sizes] and has a colour: the
    post-processing has returned, [self.draw_pose6D] is the table for
    [class_to_sizes] and [camera_matrix], and each box paired with a pose
    has an entry there.  A detection of any other class ends the call with
    [KeyError]. *)
Theorem call_returns_only_for_known_classes (self : detector)
    (image : Picture) (detections transformations : ndarray) (w : world)
    (self' : detector) (w' : world) (out : Output) :
  Detect.show_poses6D self = true ->
  detector_call image detections transformations (self, w)
  = ((self', w'), Detect.Returned out) ->
  exists model x y camera_parameter postprocess boxes2D poses6D,
    Detect.preprocess self = Some (Detect.EfficientPosePreprocess model)
    /\ EfficientPosePreprocess_call model image = Ok (x, y, camera_parameter)
    /\ Detect.postprocess self = Some postprocess
    /\ call P postprocess (mkImage (picture_shape image))
            (detections, transformations) 1 camera_parameter w
       = (w', Ok (boxes2D, poses6D))
    /\ Detect.draw_pose6D self'
       = Some (Detect._build_draw_pose6D self (Detect.class_to_sizes self)
                                         (Detect.camera_matrix self))
    /\ forall i box2D pose6D,
         boxes2D !! i = Some box2D -> poses6D !! i = Some pose6D ->
         exists b j size color,
           objects w' !! box2D = Some b
           /\ Detect.class_to_sizes self !! j = Some (class_name b, size)
           /\ Detect.colors self !! j = Some color.
Proof.
  intros Hshow Hrun. unfold Detect.call in Hrun.
  apply D_bind_Returned in Hrun as ([model] & s1 & H1 & Hrun).
  unfold Detect.attribute in H1. cbn in H1.
  destruct (Detect.preprocess self) as [pre|] eqn:Hpre; [|done].
  injection H1 as <- ->.
  apply D_bind_Returned in Hrun as ([[x y] cam] & s1 & H1 & Hrun).
  unfold Detect.returning in H1.
  destruct (EfficientPosePreprocess_call model image) as [pd|] eqn:Hcall; [|done].
  cbn in H1. injection H1 as <- ->.
  apply D_bind_Returned in Hrun as (post & s1 & H1 & Hrun).
  unfold Detect.attribute in H1. cbn in H1.
  destruct (Detect.postprocess self) as [post'|] eqn:Hpost; [|done].
  injection H1 as <- <-.
  apply D_bind_Returned in Hrun as ([boxes2D poses6D] & s1 & H1 & Hrun).
  unfold Detect.running in H1. cbn [fst snd] in H1.
  destruct (call P post' _ _ _ _ w) as [w1 [[bs ps]|]] eqn:Hpp; [|done].
  cbn in H1. injection H1 as <- <- <-.
  apply D_bind_Returned in Hrun as (sb & s1 & H1 & Hrun).
  injection H1 as <- <-.
  apply D_bind_Returned in Hrun as (image1 & s1 & H1 & Hrun).
  assert (s1 = (self, w1)) as ->.
  { cbn in H1. destruct (Detect.show_boxes2D self).
    - apply D_bind_Returned in H1 as ([names] & s2 & H2 & H1).
      injection H2 as <- _.
      apply D_bind_Returned in H1 as (boxes & s2 & H2 & H1).
      apply boxes_at_state in H2 as ->.
      unfold Detect.returning in H1. by injection H1 as <- _.
    - by injection H1 as <- _. }
  apply D_bind_Returned in Hrun as (sp & s1 & H2 & Hrun).
  injection H2 as <- <-. cbn in Hrun. rewrite Hshow in Hrun.
  apply D_bind_Returned in Hrun as (image2 & s1 & H2 & Hrun).
  apply D_bind_Returned in H2 as (name_to_draw & s2 & H3 & H2).
  injection H3 as <- <-.
  apply D_bind_Returned in H2 as ([] & s2 & H3 & H2).
  unfold Detect.set_draw_pose6D in H3. cbn in H3. injection H3 as <-.
  eapply draw_poses_Returned in H2 as [-> Hall]; [|reflexivity].
  apply D_bind_Returned in Hrun as ([keys] & s2 & H3 & Hrun).
  injection H3 as <- _. injection Hrun as <- <- _.
  exists model, x, y, cam, post', bs, ps. repeat split; try done.
  intros i box2D pose6D Hb Hp0.
  rewrite Forall_forall in Hall.
  destruct (Hall (box2D, pose6D)) as (b & Hb' & Hsome).
  { apply list_elem_of_lookup. exists i. apply lookup_zip_with_Some.
    by exists box2D, pose6D. }
  cbn in Hb'.
  apply build_is_Some in Hsome as [Hsome|(j & size & color & Hj)].
  { rewrite lookup_empty in Hsome. by destruct Hsome. }
  apply lookup_zip_with_Some in Hj as (x0 & y0 & [= <- <-] & Hx & Hy).
  by exists b, j, size, color.
Qed.

(** *** What a call reads of the detector *)

Lemma same_reads_refl (a : detector) : Detect.same_reads a a.
Proof. by repeat split. Qed.

Lemma agrees_bind {A B} (m : @Detect.D Size CameraMatrix Color A)
    (k : A -> @Detect.D Size CameraMatrix Color B) :
  Detect.agrees m -> (forall x, Detect.agrees (k x)) -> Detect.agrees (m ≫= k).
Proof.
  intros Hm Hk a b w Hab. unfold mbind, Detect.D_bind.
  destruct (Hm a b w Hab) as (Ho & Hw & Hs).
  destruct (m (a, w)) as [[a1 w1] o1], (m (b, w)) as [[b1 w2] o2].
  cbn in Ho, Hw, Hs. subst o2 w2.
  destruct o1 as [x|e]; [by apply Hk|done].
Qed.

Lemma agrees_ret {A} (x : A) :
  Detect.agrees (mret x : @Detect.D Size CameraMatrix Color A).
Proof. by intros a b w Hab. Qed.

Lemma agrees_read {A} (field : detector -> A) :
  (forall a b, Detect.same_reads a b -> field a = field b) ->
  Detect.agrees (Detect.read field).
Proof.
  intros Hf a b w Hab. unfold Detect.read. cbn. by rewrite (Hf a b Hab).
Qed.

Lemma agrees_attribute {A} (name : string) (field : detector -> option A) :
  (forall a b, Detect.same_reads a b -> field a = field b) ->
  Detect.agrees (Detect.attribute name field).
Proof.
  intros Hf a b w Hab. unfold Detect.attribute. cbn.
  rewrite (Hf a b Hab). by destruct (field b).
Qed.

Lemma agrees_returning {A} (r : result A) :
  Detect.agrees (Detect.returning r : @Detect.D Size CameraMatrix Color A).
Proof. by intros a b w Hab. Qed.

Lemma agrees_running {A} (m : M A) :
  Detect.agrees (Detect.running m : @Detect.D Size CameraMatrix Color A).
Proof.
  intros a b w Hab. unfold Detect.running. cbn. by destruct (m w).
Qed.

Lemma agrees_set_draw_pose6D
    (name_to_draw : gmap string (@Detect.DrawPose6D Size CameraMatrix Color)) :
  Detect.agrees (Detect.set_draw_pose6D name_to_draw).
Proof.
  intros a b w (? & ? & ? & ? & ? & ? & ? & ? & ? & ?).
  unfold Detect.set_draw_pose6D. cbn. by repeat split.
Qed.

Lemma agrees_box_at (r : ref) :
  Detect.agrees (Detect.box_at r : @Detect.D Size CameraMatrix Color Box2D).
Proof.
  intros a b w Hab. unfold Detect.box_at. cbn. by destruct (objects w !! r).
Qed.

Lemma agrees_boxes_at (boxes2D : list ref) :
  Detect.agrees (Detect.boxes_at boxes2D
                 : @Detect.D Size CameraMatrix Color (list Box2D)).
Proof.
  induction boxes2D as [|r rest IH]; cbn [Detect.boxes_at].
  - apply agrees_ret.
  - apply agrees_bind; [apply agrees_box_at|intros b].
    apply agrees_bind; [done|intros bs]. apply agrees_ret.
Qed.

Lemma agrees_item
    (name_to_draw : gmap string (@Detect.DrawPose6D Size CameraMatrix Color))
    (key : string) :
  Detect.agrees (Detect.item name_to_draw key).
Proof.
  intros a b w Hab. unfold Detect.item. by destruct (name_to_draw !! key).
Qed.

Lemma agrees_draw_poses (pairs : list (ref * Pose6D)) :
  forall image : Picture,
    Detect.agrees (Detect.draw_poses DrawPose6D_call image pairs).
Proof.
  induction pairs as [|[r pose] pairs IH]; intros image; cbn [Detect.draw_poses].
  - apply agrees_ret.
  - apply agrees_bind.
    { apply agrees_attribute. by intros a b (_ & _ & _ & _ & _ & _ & _ & _ & _ & ?). }
    intros table. apply agrees_bind; [apply agrees_box_at|intros b].
    apply agrees_bind; [apply agrees_item|intros draw].
    apply agrees_bind; [apply agrees_returning|done].
Qed.

(** What a call returns or raises and what it does to the store depend on
    the detector only through the attributes the body reads. *)
Lemma agrees_call (image : Picture) (detections transformations : ndarray) :
  Detect.agrees (detector_call image detections transformations).
Proof.
  unfold Detect.call.
  apply agrees_bind.
  { apply agrees_attribute. by intros a b (? & _). }
  intros [model]. apply agrees_bind; [apply agrees_returning|].
  intros [[x y] camera_parameter]. apply agrees_bind.
  { apply agrees_attribute. by intros a b (_ & ? & _). }
  intros postprocess. apply agrees_bind; [apply agrees_running|].
  intros [boxes2D poses6D]. apply agrees_bind.
  { apply agrees_read. by intros a b (_ & _ & ? & _). }
  intros show_boxes2D. apply agrees_bind.
  { destruct show_boxes2D; [|apply agrees_ret].
    apply agrees_bind.
    { apply agrees_read. by intros a b (_ & _ & _ & ? & _). }
    intros [class_names]. apply agrees_bind; [apply agrees_boxes_at|].
    intros boxes. apply agrees_returning. }
  intros image1. apply agrees_bind.
  { apply agrees_read. by intros a b (_ & _ & _ & _ & ? & _). }
  intros show_poses6D. apply agrees_bind.
  { destruct show_poses6D; [|apply agrees_ret].
    apply agrees_bind.
    { apply agrees_read.
      intros a b (_ & _ & _ & _ & _ & Hs & Hc & Hcol & _).
      unfold Detect._build_draw_pose6D. by rewrite Hs, Hc, Hcol. }
    intros name_to_draw.
    apply agrees_bind; [apply agrees_set_draw_pose6D|intros []].
    apply agrees_draw_poses. }
  intros image2. apply agrees_bind.
  { apply agrees_read. by intros a b (_ & _ & _ & _ & _ & _ & _ & _ & ? & _). }
  intros [keys]. apply agrees_ret.
Qed.

(** The [variances] handed to the detector have no effect.  [__init__]
    stores them and builds [EfficientPosePostprocess] without them, so the
    boxes are always decoded with [0.1, 0.1, 0.2, 0.2]: two detectors that
    differ in [variances] only return or raise the same and leave the same
    store, on every input. *)
Theorem variances_argument_is_ignored {Preprocess Postprocess : Type}
    (model : Model) (class_names : list string) (score_thresh nms_thresh : float)
    (LINEMOD_CAMERA_MATRIX : CameraMatrix)
    (LINEMOD_OBJECT_SIZES : list (string * Size))
    (preprocess : option Preprocess) (postprocess : option Postprocess)
    (variances1 variances2 : list float) (show_boxes2D show_poses6D : bool)
    (image : Picture) (detections transformations : ndarray) (w : world) :
  let detect variances : detector :=
    Detect.init lincolor model class_names score_thresh nms_thresh
      LINEMOD_CAMERA_MATRIX LINEMOD_OBJECT_SIZES preprocess postprocess
      variances show_boxes2D show_poses6D in
  let run1 := detector_call image detections transformations
                (detect variances1, w) in
  let run2 := detector_call image detections transformations
                (detect variances2, w) in
  run1.2 = run2.2
  /\ run1.1.2 = run2.1.2
  /\ Detect.postprocess (detect variances1)
     = match postprocess with
       | None => Some (init model class_names score_thresh nms_thresh
                            [0.1; 0.1; 0.2; 0.2]%float (Some 0) 3)
       | Some _ => None
       end.
Proof.
  intros detect run1 run2.
  destruct (agrees_call image detections transformations
              (detect variances1) (detect variances2) w) as (Ho & Hw & _).
  { by repeat split. }
  by repeat split.
Qed.

(** *** The attributes a call finds *)

Lemma finds_bind {A B} (Pre Mid Post : detector -> Prop)
    (m : @Detect.D Size CameraMatrix Color A)
    (k : A -> @Detect.D Size CameraMatrix Color B) :
  Detect.finds_attributes Pre m Mid ->
  (forall x, Detect.finds_attributes Mid (k x) Post) ->
  (forall self, Mid self -> Post self) ->
  Detect.finds_attributes Pre (m ≫= k) Post.
Proof.
  intros Hm Hk Hweak self w Hpre. unfold mbind, Detect.D_bind.
  specialize (Hm self w Hpre).
  destruct (m (self, w)) as [[self1 w1] [x|e]].
  - by apply Hk.
  - destruct e; [done|by apply Hweak..].
Qed.

Lemma finds_keep {A} (Inv : detector -> Prop)
    (m : @Detect.D Size CameraMatrix Color A) :
  (forall s, (m s).1.1 = s.1) ->
  (forall s name, (m s).2 <> Detect.Failed (Detect.AttributeError name)) ->
  Detect.finds_attributes Inv m Inv.
Proof.
  intros Hstate Herr self w Hinv.
  specialize (Hstate (self, w)). specialize (Herr (self, w)).
  destruct (m (self, w)) as [[self1 w1] [x|e]]; cbn in *; subst self1; [done|].
  destruct e as [name| |]; [|done..]. by destruct (Herr name).
Qed.

Lemma finds_attribute {A} (Inv : detector -> Prop) (name : string)
    (field : detector -> option A) :
  (forall self, Inv self -> is_Some (field self)) ->
  Detect.finds_attributes Inv (Detect.attribute name field) Inv.
Proof.
  intros Hfield self w Hinv. unfold Detect.attribute. cbn.
  by destruct (Hfield self Hinv) as [x ->].
Qed.

Lemma finds_boxes_at (Inv : detector -> Prop) (boxes2D : list ref) :
  Detect.finds_attributes Inv (Detect.boxes_at boxes2D) Inv.
Proof.
  induction boxes2D as [|r rest IH]; cbn [Detect.boxes_at].
  - by apply finds_keep.
  - apply (finds_bind _ Inv); [|intros b|done].
    + apply finds_keep; intros s; unfold Detect.box_at;
        [|intros name]; by destruct (objects s.2 !! r).
    + apply (finds_bind _ Inv); [done|intros bs|done]. by apply finds_keep.
Qed.

Lemma finds_draw_poses (Inv : detector -> Prop) (pairs : list (ref * Pose6D)) :
  (forall self, Inv self -> is_Some (Detect.draw_pose6D self)) ->
  forall image : Picture,
    Detect.finds_attributes Inv
      (Detect.draw_poses DrawPose6D_call image pairs) Inv.
Proof.
  intros Hdraw.
  induction pairs as [|[r pose] pairs IH]; intros image; cbn [Detect.draw_poses].
  - by apply finds_keep.
  - apply (finds_bind _ Inv); [by apply finds_attribute|intros table|done].
    apply (finds_bind _ Inv); [|intros b|done].
    { apply finds_keep; intros s; unfold Detect.box_at;
        [|intros name]; by destruct (objects s.2 !! r). }
    apply (finds_bind _ Inv); [|intros draw|done].
    { apply finds_keep; intros s; unfold Detect.item;
        [|intros name]; by destruct (table !! class_name b). }
    apply (finds_bind _ Inv); [|done|done].
    apply finds_keep; intros s; unfold Detect.returning;
      [|intros name]; by destruct (DrawPose6D_call draw image pose).
Qed.

(** A detector built without a [preprocess] and a [postprocess] of the
    caller's, as [EFFICIENTPOSEALINEMODDRILLER] builds it, has every
    attribute its call reads: the call never raises [AttributeError].
    [self.draw_pose6D], which [__init__] leaves unassigned, is assigned
    before the loop reads it. *)
Theorem default_processors_raise_no_AttributeError
    (names : list string) (model : Model)
    (LINEMOD_CAMERA_MATRIX : CameraMatrix)
    (LINEMOD_OBJECT_SIZES : list (string * Size))
    (score_thresh nms_thresh : float) (show_boxes2D show_poses6D : bool)
    (image : Picture) (detections transformations : ndarray) (w : world) :
  let self : detector :=
    Detect.EFFICIENTPOSEALINEMODDRILLER lincolor names model
      LINEMOD_CAMERA_MATRIX LINEMOD_OBJECT_SIZES score_thresh nms_thresh
      show_boxes2D show_poses6D in
  Detect.draw_pose6D self = None
  /\ match (detector_call image detections transformations (self, w)).2 with
     | Detect.Failed (Detect.AttributeError _) => False
     | _ => True
     end.
Proof.
  intros self. split; [done|].
  pose (Inv := fun self : detector =>
                 is_Some (Detect.preprocess self)
                 /\ is_Some (Detect.postprocess self)).
  pose (Drawn := fun self : detector =>
                   Inv self /\ is_Some (Detect.draw_pose6D self)).
  assert (forall A (r : result A),
            Detect.finds_attributes Inv
              (Detect.returning r : @Detect.D Size CameraMatrix Color A) Inv)
    as Hreturning.
  { intros A r. apply finds_keep; intros s; [done|intros name]. by destruct r. }
  assert (forall A (field : detector -> A) (I : detector -> Prop),
            Detect.finds_attributes I (Detect.read field) I) as Hread.
  { intros A field I. by apply finds_keep. }
  assert (Detect.finds_attributes Inv
            (detector_call image detections transformations) (fun _ => True))
    as Hcall.
  { unfold Detect.call.
    apply (finds_bind _ Inv); [apply finds_attribute; by intros ? [? _]| |done].
    intros [model0]. apply (finds_bind _ Inv); [apply Hreturning| |done].
    intros [[x y] camera_parameter].
    apply (finds_bind _ Inv); [apply finds_attribute; by intros ? [_ ?]| |done].
    intros postprocess. apply (finds_bind _ Inv); [| |done].
    { apply finds_keep; intros s; unfold Detect.running;
        [|intros name]; by destruct (call _ _ _ _ _ _ _) as [? []]. }
    intros [boxes2D poses6D]. apply (finds_bind _ Inv); [apply Hread| |done].
    intros sb. apply (finds_bind _ Inv); [| |done].
    { destruct sb; [|by apply finds_keep].
      apply (finds_bind _ Inv); [apply Hread| |done].
      intros [class_names]. apply (finds_bind _ Inv); [apply finds_boxes_at| |done].
      intros boxes. apply Hreturning. }
    intros image1. apply (finds_bind _ Inv); [apply Hread| |done].
    intros sp. apply (finds_bind _ (fun _ => True)); [| |done].
    { destruct sp; [|by intros s w0 Hs].
      apply (finds_bind _ Inv); [apply Hread| |done].
      intros name_to_draw. apply (finds_bind _ Drawn); [| |done].
      - intros s w0 Hs. unfold Detect.set_draw_pose6D. cbn. split; [done|eauto].
      - intros []. 
        assert (Detect.finds_attributes Drawn
                  (Detect.draw_poses DrawPose6D_call image1 (zip boxes2D poses6D))
                  Drawn) as Hd by (apply finds_draw_poses; by intros ? [_ ?]).
        intros s w0 Hs. specialize (Hd s w0 Hs).
        destruct (Detect.draw_poses _ _ _ _) as [[s1 w1] [x0|[]]]; done. }
    intros image2. apply (finds_bind _ (fun _ => True)); [apply Hread| |done].
    intros [keys]. by intros s w0 Hs. }
  specialize (Hcall self w).
  destruct (detector_call image detections transformations (self, w))
    as [[self1 w1] [out|[]]]; cbn; try done.
  apply Hcall. split; eauto.
Qed.

End DetectorProperties.

Lemma custom_processors_make_call_raise_witness :
  let self :=
    Detect.init DetectExample.lincolor Example.model Example.class_names
      0.5 0.45 tt [("driller"%string, 5)] (None : option unit) (Some tt)
      default_variances true true in
  DetectExample.call self
  = ((self, Example.empty_world),
     Detect.Failed (Detect.AttributeError "postprocess")).
Proof.
  intros self.
  destruct (custom_processors_make_call_raise PazSpec.processors
              DetectExample.picture_shape DetectExample.lincolor
              DetectExample.preprocess_call DetectExample.draw_boxes2D_call
              DetectExample.wrap_call DetectExample.draw_pose6D_call
              Example.model Example.class_names 0.5 0.45 tt
              [("driller"%string, 5)] (None : option unit) (Some tt)
              default_variances true true [] DetectExample.detections
              Example.transformations Example.empty_world)
    as (e & Hrun & _ & He).
  - right. by exists tt.
  - rewrite <- (He eq_refl). exact Hrun.
Defined.

Lemma build_draw_pose6D_lookup_witness :
  let sizes := [("driller"%string, 5); ("ape"%string, 7)] in
  Detect._build_draw_pose6D (DetectExample.detect sizes) sizes tt !! "ape"%string
  = Some (Detect.mkDrawPose6D 7 tt 1%nat).
Proof.
  intros sizes.
  assert (NoDup (map fst sizes)) as Hnd
    by (apply (bool_decide_eq_true_1 _); vm_compute; reflexivity).
  apply (proj1 (build_draw_pose6D_lookup (DetectExample.detect sizes) sizes tt
                  Hnd) 1%nat);
    reflexivity.
Defined.

Lemma call_returns_only_for_known_classes_witness :
  let self := DetectExample.detect [("driller"%string, 5)] in
  exists self' w' (boxes2D : list ref) (poses6D : list Pose6D),
    (DetectExample.call self).1 = (self', w')
    /\ Detect.draw_pose6D self'
       = Some (Detect._build_draw_pose6D self (Detect.class_to_sizes self)
                                         (Detect.camera_matrix self))
    /\ forall i box2D pose6D,
         boxes2D !! i = Some box2D -> poses6D !! i = Some pose6D ->
         exists b j size color,
           objects w' !! box2D = Some b
           /\ Detect.class_to_sizes self !! j = Some (class_name b, size)
           /\ Detect.colors self !! j = Some color.
Proof.
  intros self.
  destruct (DetectExample.call self) as [[self' w'] o] eqn:Hrun.
  assert (exists out, o = Detect.Returned out) as [out ->].
  { apply (f_equal snd) in Hrun. vm_compute in Hrun. subst o. eauto. }
  unfold DetectExample.call in Hrun.
  apply call_returns_only_for_known_classes in Hrun
    as (model & x & y & cam & post & boxes2D & poses6D & _ & _ & _ & _ & Ht & Hall);
    [|reflexivity].
  by exists self', w', boxes2D, poses6D.
Defined.
